(** * The Dexie storage instance of RxDB: bulk write engine and change feed

    A shallow embedding of [RxStorageInstanceDexie] (plugins/dexie,
    rx-storage-instance-dexie.ts) and of [getChangedDocuments] of
    [RxStorageInstanceLoki] (plugins/lokijs).

    - JavaScript objects with a fixed shape are records; a field that may be
      [undefined] is an [option]; [null] in a change event is [None].
    - The tables of the Dexie database are finite maps keyed by the primary
      key; the changes table is a list of rows read in key order.
    - A promise that rejects is the left injection of a sum.
    - A JavaScript number is an IEEE 754 double: the heights of revisions
      are read, incremented and written as such, exact below [2^53] and
      rounded from there on.
    - [now()] and [randomCouchString(10)] are answers of the environment;
      every call of an operation receives them as a [CallEnv]. *)

From Stdlib Require Import NArith Decimal DecimalFacts DecimalPos DecimalN.
From Stdlib Require Import DecimalString String Ascii.
From stdpp Require Import gmap strings list fin_maps sorting.

Local Open Scope string_scope.

(** ** JavaScript primitives used by the storage code *)
Module Js.

(** A JavaScript number that is not negative and has no fraction, or [NaN]
    ([None]). The numbers are IEEE 754 doubles: every integer below [2^53]
    is one, and from there on the multiples of [2^(e-52)] between [2^e] and
    [2^(e+1)]; [infinity] stands for [Infinity], which is greater than
    every other number and equal to itself. *)
Definition number := option N.

Definition infinity : N := N.shiftl 1 1024.

(** The double nearest to the integer [n], and of two that are as near the
    one with the even significand (round to nearest, ties to even); from
    [2^1024 - 2^970] on it is [Infinity]. *)
Definition to_double (n : N) : N :=
  let e := N.log2 n in
  if (e <? 53)%N then n
  else if (1024 <=? e)%N then infinity
  else
    let shift := (e - 52)%N in
    let q := N.shiftr n shift in
    let r := N.land n (N.ones shift) in
    let half := N.shiftl 1 (shift - 1) in
    let q :=
      if (r <? half)%N then q
      else if (half <? r)%N then (q + 1)%N
      else if N.even q then q else (q + 1)%N in
    N.shiftl q shift.

(** [!!v] for a field that holds a boolean or is [undefined]. *)
Definition truthy (v : option bool) : bool :=
  match v with
  | Some b => b
  | None => false
  end.

(** [!!v] for a field that holds an object or is [undefined]. *)
Definition defined {A : Type} (v : option A) : bool :=
  match v with
  | Some _ => true
  | None => false
  end.

(** [a !== b] on numbers: [NaN] differs from everything, itself included. *)
Definition num_neq (a b : number) : bool :=
  match a, b with
  | Some x, Some y => negb (x =? y)%N
  | _, _ => true
  end.

(** [a > b] on numbers: [false] as soon as one side is [NaN]. *)
Definition num_gt (a b : number) : bool :=
  match a, b with
  | Some x, Some y => (y <? x)%N
  | _, _ => false
  end.

(** [a > b] on strings, code unit by code unit; comparing with
    [undefined] ([None]) converts both sides to numbers, one of which is
    [NaN], and yields [false]. *)
Definition str_gt (a b : option string) : bool :=
  match a, b with
  | Some x, Some y => String.ltb y x
  | _, _ => false
  end.

(** [n + 1]: the sum is rounded to a double, so that from [2^53] on the
    result may be [n] itself. *)
Definition num_succ (a : number) : number :=
  (λ n, to_double (n + 1)%N) <$> a.

(** The decimal digits of an integer. *)
Definition decimal (n : N) : string := NilEmpty.string_of_uint (N.to_uint n).

Fixpoint zeros (m : nat) : string :=
  match m with
  | O => ""
  | S m => String "0" (zeros m)
  end.

(** The number of decimal digits of [x ≥ 1]: the least [m ≥ 1] with
    [x < 10^m]. *)
Fixpoint count_digits (fuel : nat) (m x : N) : N :=
  match fuel with
  | O => m
  | S fuel => if (x <? 10 ^ m)%N then m else count_digits fuel (m + 1)%N x
  end.

Definition nb_digits (x : N) : N := count_digits (N.to_nat (N.log2 x)) 1 x.

(** The integers [s], [k] and [n] of [Number::toString] for a double
    [x ≥ 1] with [D] digits: [s] has [k] digits, [s × 10^(n-k)] is nearer
    to [x] than to any other double, and [k] is as small as can be; of two
    such [s] it is the one nearer to [x], and the even one when both are
    as near. [dropped] is the number of digits of [x] that are left out:
    [k] grows as it falls, and without a digit left out [s] is [x]. When
    the digits kept are rounded up to [10^k], [s] is [1] and [n] one more
    than [D]. *)
Fixpoint shortest (x D : N) (dropped : nat) : N * N * N :=
  match dropped with
  | O => (x, D, D)
  | S fewer =>
      let scale := (10 ^ N.of_nat dropped)%N in
      let k := (D - N.of_nat dropped)%N in
      let lo := (x / scale)%N in
      let hi := (lo + 1)%N in
      let ok_lo := (to_double (lo * scale) =? x)%N in
      let ok_hi := (to_double (hi * scale) =? x)%N in
      if ok_lo || ok_hi then
        let s :=
          if ok_lo && ok_hi then
            if (x - lo * scale <? hi * scale - x)%N then lo
            else if (hi * scale - x <? x - lo * scale)%N then hi
            else if N.even lo then lo else hi
          else if ok_lo then lo else hi in
        if (s =? 10 ^ k)%N then (1, 1, D + 1)%N else (s, k, D)
      else shortest x D fewer
  end.

(** [n + ''], the conversion applied by [n + '-' + s]: [Number::toString]
    with radix 10. Up to [n = 21] the digits of [s] are followed by
    [n - k] zeros; beyond, the exponent is written. *)
Definition num_to_string (a : number) : string :=
  match a with
  | None => "NaN"
  | Some x =>
      if (x =? 0)%N then "0"
      else if (infinity <=? x)%N then "Infinity"
      else
        let D := nb_digits x in
        let '(s, k, n) := shortest x D (N.to_nat D - 1) in
        let digits := decimal s in
        if (n <=? 21)%N then digits ++ zeros (N.to_nat (n - k))
        else
          match digits with
          | String c rest =>
              if (k =? 1)%N then String c ("e+" ++ decimal (n - 1))
              else String c ("." ++ rest ++ "e+" ++ decimal (n - 1))
          | "" => ""
          end
  end.

Definition is_digit (c : ascii) : bool :=
  match c with
  | "0" | "1" | "2" | "3" | "4" | "5" | "6" | "7" | "8" | "9" => true
  | _ => false
  end%char.

Fixpoint digits_prefix (s : string) : string :=
  match s with
  | String c r => if is_digit c then String c (digits_prefix r) else ""
  | "" => ""
  end.

(** [parseInt(s, 10)] on a string that starts with neither white space nor
    a sign: the double nearest to the number written by the leading
    digits, [NaN] without any. (Beyond 20 digits the language leaves the
    last digits to the engine; V8 rounds the number as written.) *)
Definition parseInt (s : string) : number :=
  match digits_prefix s with
  | "" => None
  | ds => (λ d, to_double (N.of_uint d)) <$> NilEmpty.uint_of_string ds
  end.

(** [s.split('-')]. *)
Fixpoint split_dash (s : string) : list string :=
  match s with
  | "" => [""]
  | String c r =>
      if Ascii.eqb c "-"%char then "" :: split_dash r
      else match split_dash r with
           | h :: t => String c h :: t
           | [] => [String c ""]
           end
  end.

End Js.

(** ** The revision codec (util) *)

Record ParsedRevision := {
  height : Js.number;
  hash : option string
}.

(** Modelled from the spec: util's [parseRevision] is not among the sources;
    the spec gives [parseRevision("H-Hash") → {height: int, hash: string}].
    The string is split at ['-'], the height is [parseInt] of the first part
    and the hash is the second part ([undefined] when there is none). *)
Definition parseRevision (revision : string) : ParsedRevision :=
  let split := Js.split_dash revision in
  {| height := Js.parseInt (List.nth 0 split "");
     hash := split !! 1%nat |}.

(** Modelled from the spec: util's [getHeightOfRevision] is not among the
    sources; [getHeightOfRevision("H-Hash") → int]. *)
Definition getHeightOfRevision (revision : string) : Js.number :=
  height (parseRevision revision).



(** ** Devices for the properties of the codec *)

(** [2^53]: up to it every integer is a double, and adding [1] to a number
    below it is exact. *)
Definition safe : N := 9007199254740992.

(** The string of a list of digits, digit by digit. *)
Definition String_of_digit (d : digits) (s : string) : string :=
  String (match d with
          | d0 => "0" | d1 => "1" | d2 => "2" | d3 => "3" | d4 => "4"
          | d5 => "5" | d6 => "6" | d7 => "7" | d8 => "8" | d9 => "9"
          end)%char s.

Fixpoint string_of_list (l : list digits) : string :=
  match l with
  | [] => ""
  | d :: l => String_of_digit d (string_of_list l)
  end.


(** ** Data model (types/rx-storage.d.ts, as used by the storage instance) *)

Section RxStorageInstanceDexie.

(** The application's document type; the value at the schema's primary
    path is kept apart as [primary]. *)
Context {RxDocType : Type}.

(** [RxDocumentData<RxDocType>], with the engine-private [$lastWriteAt]. *)
Record RxDocumentData := {
  primary : string;
  _rev : string;
  _deleted : option bool;
  _attachments : gmap string string;
  lastWriteAt : option N;
  content : RxDocType
}.

Record BulkWriteRow := {
  document : RxDocumentData;
  previous : option RxDocumentData
}.

Inductive Operation := INSERT | UPDATE | DELETE.

(** [ChangeEvent] of event-reduce-js. *)
Record ChangeEvent := {
  change_id : string;
  operation : Operation;
  change_previous : option RxDocumentData;
  change_doc : option RxDocumentData
}.

Record RxStorageChangeEvent := {
  eventId : string;
  documentId : string;
  change : ChangeEvent;
  startTime : N;
  endTime : N
}.

Record EventBulk := {
  bulk_id : string;
  events : list RxStorageChangeEvent
}.

Record RxStorageBulkWriteError := {
  isError : bool;
  status : N;
  error_documentId : string;
  error_writeRow : BulkWriteRow
}.

Record RxStorageBulkWriteResponse := {
  success : gmap string RxDocumentData;
  error : gmap string RxStorageBulkWriteError
}.

Record RxStorageChangedDocumentMeta := {
  meta_id : string;
  sequence : N
}.

Inductive Direction := before | after.

(** [a === b] on directions. *)
Definition Direction_eqb (a b : Direction) : bool :=
  match a, b with
  | before, before | after, after => true
  | _, _ => false
  end.

Record ChangeStreamOnceOptions := {
  direction : Direction;
  sinceSequence : N;
  limit : option N
}.

(** Errors built by [newRxError]. *)
Inductive RxError := SNH (writeRow : BulkWriteRow).

(** What the environment answers during one call of an operation:
    [randomCouchString(10)] and the successive readings of [now()]. *)
Record CallEnv := {
  randomCouchString : string;
  now : nat → N
}.

(** *** Helpers that the storage instance imports *)

(** The imported functions whose result the storage instance only passes
    on: util's [createRevision], the hash of a document body, and
    dexie-helper's [getDexieEventKey(isLocal, primary, revision)]. *)
Class DexieImports := {
  createRevision : RxDocumentData → string;
  getDexieEventKey : bool → string → string → string
}.

Context `{DexieImports}.

(** Modelled from the spec: dexie-helper's [stripDexieKey] is not among the
    sources; documents are returned "with engine-private fields stripped",
    and the engine-private field is [$lastWriteAt]. *)
Definition stripDexieKey (docData : RxDocumentData) : RxDocumentData :=
  {| primary := primary docData;
     _rev := _rev docData;
     _deleted := _deleted docData;
     _attachments := _attachments docData;
     lastWriteAt := None;
     content := content docData |}.

(** *** The substrate: three Dexie tables and the change stream *)

(** An rxjs [Subject]: the values delivered so far, oldest first, and
    whether [complete()] was called; [next] after [complete] delivers
    nothing. *)
Record Subject := {
  emitted : list EventBulk;
  completed : bool
}.

Definition next (value : EventBulk) (s : Subject) : Subject :=
  if completed s then s
  else {| emitted := emitted s ++ [value]; completed := false |}.


(** [dexieChangesTable] has the auto-incremented primary key [++sequence]:
    [autoIncrement] is the last key that was generated. [changes] is the
    subject [changes$]. *)
Record Instance := {
  dexieTable : gmap string RxDocumentData;
  dexieDeletedTable : gmap string RxDocumentData;
  dexieChangesTable : list RxStorageChangedDocumentMeta;
  autoIncrement : N;
  changes : Subject;
  closed : bool
}.

(** Modelled from the spec: the key-value store is an external
    collaborator "assumed to expose bulkGet, bulkPut, bulkDelete, range
    queries on a secondary index"; the two document tables are keyed by
    the primary key, so that [bulkPut] replaces the document stored under
    the same key. *)
Definition bulkPut (docs : list RxDocumentData)
    (table : gmap string RxDocumentData) : gmap string RxDocumentData :=
  foldl (λ t d, <[primary d := d]> t) table docs.

Definition bulkDelete (ids : list string)
    (table : gmap string RxDocumentData) : gmap string RxDocumentData :=
  foldl (λ t id, delete id t) table ids.

(** Modelled from the spec: in the changes table "[sequence] is a monotonic
    auto-assigned integer"; [bulkPut] of rows without a key gives each the
    next key. *)
Fixpoint bulkPutChanges (ids : list string)
    (rows : list RxStorageChangedDocumentMeta) (lastKey : N)
  : list RxStorageChangedDocumentMeta * N :=
  match ids with
  | [] => (rows, lastKey)
  | id :: rest =>
      bulkPutChanges rest
        (rows ++ [{| meta_id := id; sequence := N.succ lastKey |}])
        (N.succ lastKey)
  end.

(** Modelled from the spec: dexie-helper's [getDocsInDb] is not among the
    sources; "for each id, look up in live; if absent, look up in deleted."
    [findInDb] is that lookup for one id. *)
Definition findInDb (internals : Instance) (id : string)
  : option RxDocumentData :=
  match dexieTable internals !! id with
  | Some d => Some d
  | None => dexieDeletedTable internals !! id
  end.

(** Modelled from the spec: [getDocsInDb] answers for each id in turn,
    "preserve input order when returning". *)
Definition getDocsInDb (internals : Instance) (docIds : list string)
  : list (option RxDocumentData) :=
  findInDb internals <$> docIds.

(** *** The batch that a write transaction collects *)

Record Batch := {
  bulkPutDocs : list RxDocumentData;
  bulkRemoveDocs : list string;
  bulkPutDeletedDocs : list RxDocumentData;
  bulkRemoveDeletedDocs : list string;
  changesIds : list string;
  batch_events : list RxStorageChangeEvent
}.

Definition emptyBatch : Batch :=
  {| bulkPutDocs := []; bulkRemoveDocs := []; bulkPutDeletedDocs := [];
     bulkRemoveDeletedDocs := []; changesIds := []; batch_events := [] |}.

Definition push_bulkPutDocs (d : RxDocumentData) (b : Batch) : Batch :=
  {| bulkPutDocs := bulkPutDocs b ++ [d];
     bulkRemoveDocs := bulkRemoveDocs b;
     bulkPutDeletedDocs := bulkPutDeletedDocs b;
     bulkRemoveDeletedDocs := bulkRemoveDeletedDocs b;
     changesIds := changesIds b;
     batch_events := batch_events b |}.

Definition push_bulkRemoveDocs (id : string) (b : Batch) : Batch :=
  {| bulkPutDocs := bulkPutDocs b;
     bulkRemoveDocs := bulkRemoveDocs b ++ [id];
     bulkPutDeletedDocs := bulkPutDeletedDocs b;
     bulkRemoveDeletedDocs := bulkRemoveDeletedDocs b;
     changesIds := changesIds b;
     batch_events := batch_events b |}.

Definition push_bulkPutDeletedDocs (d : RxDocumentData) (b : Batch) : Batch :=
  {| bulkPutDocs := bulkPutDocs b;
     bulkRemoveDocs := bulkRemoveDocs b;
     bulkPutDeletedDocs := bulkPutDeletedDocs b ++ [d];
     bulkRemoveDeletedDocs := bulkRemoveDeletedDocs b;
     changesIds := changesIds b;
     batch_events := batch_events b |}.

Definition push_bulkRemoveDeletedDocs (id : string) (b : Batch) : Batch :=
  {| bulkPutDocs := bulkPutDocs b;
     bulkRemoveDocs := bulkRemoveDocs b;
     bulkPutDeletedDocs := bulkPutDeletedDocs b;
     bulkRemoveDeletedDocs := bulkRemoveDeletedDocs b ++ [id];
     changesIds := changesIds b;
     batch_events := batch_events b |}.

Definition push_changesIds (id : string) (b : Batch) : Batch :=
  {| bulkPutDocs := bulkPutDocs b;
     bulkRemoveDocs := bulkRemoveDocs b;
     bulkPutDeletedDocs := bulkPutDeletedDocs b;
     bulkRemoveDeletedDocs := bulkRemoveDeletedDocs b;
     changesIds := changesIds b ++ [id];
     batch_events := batch_events b |}.

Definition push_events (e : RxStorageChangeEvent) (b : Batch) : Batch :=
  {| bulkPutDocs := bulkPutDocs b;
     bulkRemoveDocs := bulkRemoveDocs b;
     bulkPutDeletedDocs := bulkPutDeletedDocs b;
     bulkRemoveDeletedDocs := bulkRemoveDeletedDocs b;
     changesIds := changesIds b;
     batch_events := batch_events b ++ [e] |}.

(** [list.length > 0 ? op(list) : PROMISE_RESOLVE_VOID]. *)
Definition ifNonEmpty {A T : Type} (l : list A) (op : list A → T → T)
    (table : T) : T :=
  match l with
  | [] => table
  | _ :: _ => op l table
  end.

(** [addChangeDocumentsMeta(ids)]: one row [{id}] per id is put into the
    changes table; the table is given with its last generated key. *)
Definition addChangeDocumentsMeta (ids : list string)
    (changesTable : list RxStorageChangedDocumentMeta * N)
  : list RxStorageChangedDocumentMeta * N :=
  bulkPutChanges ids changesTable.1 changesTable.2.

(** The five requests that close a write transaction, served in the
    order in which [Promise.all] receives them. [bulkWrite] guards the
    fifth with [changesIds.length > 0] ([guardChanges]), [bulkAddRevisions]
    does not. *)
Definition runBatch (guardChanges : bool) (b : Batch) (inst : Instance)
  : Instance :=
  let live :=
    ifNonEmpty (bulkRemoveDocs b) bulkDelete
      (ifNonEmpty (bulkPutDocs b) bulkPut (dexieTable inst)) in
  let deleted :=
    ifNonEmpty (bulkRemoveDeletedDocs b) bulkDelete
      (ifNonEmpty (bulkPutDeletedDocs b) bulkPut (dexieDeletedTable inst)) in
  let appended :=
    if guardChanges
    then ifNonEmpty (changesIds b) addChangeDocumentsMeta
           (dexieChangesTable inst, autoIncrement inst)
    else addChangeDocumentsMeta (changesIds b)
           (dexieChangesTable inst, autoIncrement inst) in
  {| dexieTable := live;
     dexieDeletedTable := deleted;
     dexieChangesTable := appended.1;
     autoIncrement := appended.2;
     changes := changes inst;
     closed := closed inst |}.

Definition setEndTime (t : N) (e : RxStorageChangeEvent)
  : RxStorageChangeEvent :=
  {| eventId := eventId e; documentId := documentId e; change := change e;
     startTime := startTime e; endTime := t |}.

Definition publish (bulk : EventBulk) (inst : Instance) : Instance :=
  {| dexieTable := dexieTable inst;
     dexieDeletedTable := dexieDeletedTable inst;
     dexieChangesTable := dexieChangesTable inst;
     autoIncrement := autoIncrement inst;
     changes := next bulk (changes inst);
     closed := closed inst |}.

(** *** bulkWrite *)

Definition setSuccess (id : string) (d : RxDocumentData)
    (ret : RxStorageBulkWriteResponse) : RxStorageBulkWriteResponse :=
  {| success := <[id := d]> (success ret); error := error ret |}.

Definition setError (id : string) (e : RxStorageBulkWriteError)
    (ret : RxStorageBulkWriteResponse) : RxStorageBulkWriteResponse :=
  {| success := success ret; error := <[id := e]> (error ret) |}.

(** [Object.assign({}, document, {_rev, _deleted, _attachments: {}})],
    with [$lastWriteAt] as given. *)
Definition assignWriteDoc (d : RxDocumentData) (newRevision : string)
    (isDeleted : bool) (lwt : option N) : RxDocumentData :=
  {| primary := primary d;
     _rev := newRevision;
     _deleted := Some isDeleted;
     _attachments := ∅;
     lastWriteAt := lwt;
     content := content d |}.

Definition setLastWriteAt (t : N) (d : RxDocumentData) : RxDocumentData :=
  {| primary := primary d;
     _rev := _rev d;
     _deleted := _deleted d;
     _attachments := _attachments d;
     lastWriteAt := Some t;
     content := content d |}.

Definition setRev (rev : string) (d : RxDocumentData) : RxDocumentData :=
  {| primary := primary d;
     _rev := rev;
     _deleted := _deleted d;
     _attachments := _attachments d;
     lastWriteAt := lastWriteAt d;
     content := content d |}.

Definition mkEvent (id revision : string) (c : ChangeEvent) (t : N)
  : RxStorageChangeEvent :=
  {| eventId := getDexieEventKey false id revision;
     documentId := id;
     change := c;
     startTime := t;
     endTime := t |}.

(** [writeDoc] of the branch [if (!documentInDb)]: the document with its
    first revision. *)
Definition insertedDoc (writeRow : BulkWriteRow) : RxDocumentData :=
  let newRevision := "1-" ++ createRevision (document writeRow) in
  let insertedIsDeleted :=
    if Js.truthy (_deleted (document writeRow)) then true else false in
  assignWriteDoc (document writeRow) newRevision insertedIsDeleted
    (lastWriteAt (document writeRow)).

(** The branch [if (!documentInDb)] of the loop body: insert a new
    document. *)
Definition insertNew (t : N) (writeRow : BulkWriteRow)
    (acc : Batch * RxStorageBulkWriteResponse)
  : Batch * RxStorageBulkWriteResponse :=
  let id := primary (document writeRow) in
  let newRevision := "1-" ++ createRevision (document writeRow) in
  let insertedIsDeleted :=
    if Js.truthy (_deleted (document writeRow)) then true else false in
  let writeDoc := insertedDoc writeRow in
  let insertData := setLastWriteAt t writeDoc in
  let b := push_changesIds id acc.1 in
  let b :=
    if insertedIsDeleted then push_bulkPutDeletedDocs insertData b
    else
      push_events
        (mkEvent id newRevision
           {| change_doc := Some writeDoc; change_id := id;
              operation := INSERT; change_previous := None |} t)
        (push_bulkPutDocs insertData b) in
  (b, setSuccess id writeDoc acc.2).

(** The [if / else if] chain that fills [change] and the batch; [change]
    stays [null] when none of its three cases applies. *)
Definition categorize (id newRevision : string)
    (previous : option RxDocumentData) (writeDoc : RxDocumentData)
    (b : Batch) : Batch * option ChangeEvent :=
  match previous with
  | None => (b, None)
  | Some prev =>
      if Js.truthy (_deleted prev) && negb (Js.truthy (_deleted writeDoc))
      then
        (push_bulkRemoveDeletedDocs id (push_bulkPutDocs writeDoc b),
         Some {| change_id := id; operation := INSERT;
                 change_previous := None;
                 change_doc := Some (stripDexieKey writeDoc) |})
      else if negb (Js.truthy (_deleted prev))
              && negb (Js.truthy (_deleted writeDoc))
      then
        (push_bulkPutDocs writeDoc b,
         Some {| change_id := id; operation := UPDATE;
                 change_previous := Some prev;
                 change_doc := Some (stripDexieKey writeDoc) |})
      else if negb (Js.truthy (_deleted prev))
              && Js.truthy (_deleted writeDoc)
      then
        (push_bulkRemoveDocs id (push_bulkPutDeletedDocs writeDoc b),
         Some {| change_id := id; operation := DELETE;
                 change_previous := Some (setRev newRevision prev);
                 change_doc := None |})
      else (b, None)
  end.

(** The test guarding the conflict error. *)
Definition isConflict (revInDb : string) (previous : option RxDocumentData)
    (documentInDb : RxDocumentData) : bool :=
  (negb (Js.defined previous) && negb (Js.truthy (_deleted documentInDb)))
  || (Js.defined previous
      && match previous with
         | Some prev => negb (String.eqb revInDb (_rev prev))
         | None => false
         end).

(** [newRevHeight + '-' + createRevision(writeRow.document)] with
    [newRevHeight = getHeightOfRevision(revInDb) + 1]. *)
Definition nextRevision (revInDb : string) (d : RxDocumentData) : string :=
  let newRevHeight := Js.num_succ (getHeightOfRevision revInDb) in
  Js.num_to_string newRevHeight ++ "-" ++ createRevision d.

(** [if (!writeRow.previous && documentInDb._deleted)
      { writeRow.previous = documentInDb }]: the row after the assignment. *)
Definition adoptPrevious (documentInDb : RxDocumentData)
    (writeRow : BulkWriteRow) : BulkWriteRow :=
  if negb (Js.defined (previous writeRow))
     && Js.truthy (_deleted documentInDb)
  then {| document := document writeRow; previous := Some documentInDb |}
  else writeRow.

(** The [else] branch of the loop body: update an existing document. *)
Definition updateExisting (t : N) (documentInDb : RxDocumentData)
    (writeRow : BulkWriteRow) (acc : Batch * RxStorageBulkWriteResponse)
  : RxError + Batch * RxStorageBulkWriteResponse :=
  let id := primary (document writeRow) in
  let revInDb := _rev documentInDb in
  let writeRow := adoptPrevious documentInDb writeRow in
  if isConflict revInDb (previous writeRow) documentInDb then
    let err := {| isError := true; status := 409; error_documentId := id;
                  error_writeRow := writeRow |} in
    inr (acc.1, setError id err acc.2)
  else
    let newRevision := nextRevision revInDb (document writeRow) in
    let isDeleted := Js.truthy (_deleted (document writeRow)) in
    let writeDoc :=
      assignWriteDoc (document writeRow) newRevision isDeleted (Some t) in
    let b := push_changesIds id acc.1 in
    match categorize id newRevision (previous writeRow) writeDoc b with
    | (_, None) => inl (SNH writeRow)
    | (b, Some change) =>
        inr (push_events (mkEvent id newRevision change t) b,
             setSuccess id (stripDexieKey writeDoc) acc.2)
    end.

(** The body of [documentWrites.forEach((writeRow, docIndex) => ...)];
    [t] is the reading of [now()] taken as [startTime]. *)
Definition writeStep (t : N) (documentInDb : option RxDocumentData)
    (writeRow : BulkWriteRow) (acc : Batch * RxStorageBulkWriteResponse)
  : RxError + Batch * RxStorageBulkWriteResponse :=
  match documentInDb with
  | None => inr (insertNew t writeRow acc)
  | Some inDb => updateExisting t inDb writeRow acc
  end.

(** The loop; [docsInDb[docIndex]] is [undefined] beyond the end. *)
Fixpoint forEachWrite (env : CallEnv)
    (docsInDb : list (option RxDocumentData)) (docIndex : nat)
    (documentWrites : list BulkWriteRow)
    (acc : Batch * RxStorageBulkWriteResponse)
  : RxError + Batch * RxStorageBulkWriteResponse :=
  match documentWrites with
  | [] => inr acc
  | writeRow :: rest =>
      match writeStep (now env docIndex) (mjoin (docsInDb !! docIndex))
              writeRow acc with
      | inl e => inl e
      | inr acc' => forEachWrite env docsInDb (S docIndex) rest acc'
      end
  end.

Definition emptyResponse : RxStorageBulkWriteResponse :=
  {| success := ∅; error := ∅ |}.

(** [bulkWrite(documentWrites)]: the instance afterwards and either the
    error that rejects the promise or the value that resolves it. An
    error thrown in the transaction aborts it, and nothing is published. *)
Definition bulkWrite (env : CallEnv) (documentWrites : list BulkWriteRow)
    (inst : Instance) : Instance * (RxError + RxStorageBulkWriteResponse) :=
  let documentKeys := (λ writeRow, primary (document writeRow))
                        <$> documentWrites in
  let docsInDb := getDocsInDb inst documentKeys in
  match forEachWrite env docsInDb 0 documentWrites
          (emptyBatch, emptyResponse) with
  | inl e => (inst, inl e)
  | inr (b, ret) =>
      let inst := runBatch true b inst in
      let endTime := now env (length documentWrites) in
      let eventBulk :=
        {| bulk_id := randomCouchString env;
           events := setEndTime endTime <$> batch_events b |} in
      (publish eventBulk inst, inr ret)
  end.

(** The loop of [bulkWrite] told row by row: every row meets the document
    that [find] gives for its own id, and [time] lists the readings of
    [now()] from this row on. [forEachWrite] over [getDocsInDb] is an
    instance of it (lemma [forEachWrite_foldWrite]). *)
Fixpoint foldWrite (time : nat → N) (find : string → option RxDocumentData)
    (documentWrites : list BulkWriteRow)
    (acc : Batch * RxStorageBulkWriteResponse)
  : RxError + Batch * RxStorageBulkWriteResponse :=
  match documentWrites with
  | [] => inr acc
  | writeRow :: rest =>
      match writeStep (time 0%nat) (find (primary (document writeRow)))
              writeRow acc with
      | inl e => inl e
      | inr acc' => foldWrite (λ j, time (S j)) find rest acc'
      end
  end.

(** The environment of a call in which the reading number [k] of [now()]
    is not taken. *)
Definition skipReading (k : nat) (env : CallEnv) : CallEnv :=
  {| randomCouchString := randomCouchString env;
     now j := now env (if (j <? k)%nat then j else S j) |}.

(** Two states of the loop that differ in the error map only, and two
    outcomes of the loop that throw the same error or end in such states. *)
Definition sameWrites (acc1 acc2 : Batch * RxStorageBulkWriteResponse)
  : Prop :=
  acc1.1 = acc2.1 ∧ success acc1.2 = success acc2.2.

Definition sameOutcome
    (r1 r2 : RxError + Batch * RxStorageBulkWriteResponse) : Prop :=
  match r1, r2 with
  | inl e1, inl e2 => e1 = e2
  | inr a1, inr a2 => sameWrites a1 a2
  | _, _ => False
  end.

(** What two calls of [bulkWrite] return, compared up to the error map. *)
Definition sameReturn
    (r1 r2 : RxError + RxStorageBulkWriteResponse) : Prop :=
  match r1, r2 with
  | inl e1, inl e2 => e1 = e2
  | inr ret1, inr ret2 => success ret1 = success ret2
  | _, _ => False
  end.

(** What a batch holds for the document with primary key [i]: the
    documents queued for each table, the removals, the change ids and the
    events. *)
Definition docsFor (i : string) (docs : list RxDocumentData)
  : list RxDocumentData :=
  filter (λ d, primary d = i) docs.

Definition idsFor (i : string) (ids : list string) : list string :=
  filter (λ x, x = i) ids.

Definition eventsFor (i : string) (evs : list RxStorageChangeEvent)
  : list RxStorageChangeEvent :=
  filter (λ e, documentId e = i) evs.

Definition batchFor (i : string) (b : Batch) : Batch :=
  {| bulkPutDocs := docsFor i (bulkPutDocs b);
     bulkRemoveDocs := idsFor i (bulkRemoveDocs b);
     bulkPutDeletedDocs := docsFor i (bulkPutDeletedDocs b);
     bulkRemoveDeletedDocs := idsFor i (bulkRemoveDeletedDocs b);
     changesIds := idsFor i (changesIds b);
     batch_events := eventsFor i (batch_events b) |}.

(** *** bulkAddRevisions *)

(** The computation of [mustUpdate] from the two parsed revisions. *)
Definition mustUpdate (newWriteRevision oldRevision : ParsedRevision)
  : bool :=
  if Js.num_neq (height newWriteRevision) (height oldRevision) then
    if Js.num_gt (height newWriteRevision) (height oldRevision)
    then true else false
  else if Js.str_gt (hash newWriteRevision) (hash oldRevision) then true
  else false.

(** The [if / else if] chain of the branch [if (mustUpdate)]. *)
Definition categorizeRevision (id : string)
    (documentInDb docData : RxDocumentData) (b : Batch)
  : Batch * option ChangeEvent :=
  if Js.truthy (_deleted documentInDb) && negb (Js.truthy (_deleted docData))
  then
    (push_bulkPutDocs docData (push_bulkRemoveDeletedDocs id b),
     Some {| change_id := id; operation := INSERT;
             change_previous := None; change_doc := Some docData |})
  else if negb (Js.truthy (_deleted documentInDb))
          && negb (Js.truthy (_deleted docData))
  then
    (push_bulkPutDocs docData b,
     Some {| change_id := id; operation := UPDATE;
             change_previous := Some (stripDexieKey documentInDb);
             change_doc := Some docData |})
  else if negb (Js.truthy (_deleted documentInDb))
          && Js.truthy (_deleted docData)
  then
    (push_bulkRemoveDocs id (push_bulkPutDeletedDocs docData b),
     Some {| change_id := id; operation := DELETE;
             change_previous := Some (stripDexieKey documentInDb);
             change_doc := None |})
  else (b, None).

(** The body of [documents.forEach((docData, docIndex) => ...)]. *)
Definition revisionStep (t : N) (documentInDb : option RxDocumentData)
    (docData : RxDocumentData) (b : Batch) : Batch :=
  let id := primary docData in
  match documentInDb with
  | None =>
      let insertData := setLastWriteAt t docData in
      let b :=
        if Js.truthy (_deleted insertData)
        then push_bulkPutDeletedDocs insertData b
        else push_bulkPutDocs insertData b in
      push_changesIds id
        (push_events
           (mkEvent id (_rev docData)
              {| change_doc := Some docData; change_id := id;
                 operation := INSERT; change_previous := None |} t)
           b)
  | Some documentInDb =>
      let newWriteRevision := parseRevision (_rev docData) in
      let oldRevision := parseRevision (_rev documentInDb) in
      if mustUpdate newWriteRevision oldRevision then
        match categorizeRevision id documentInDb docData b with
        | (b, Some change) =>
            push_changesIds id
              (push_events (mkEvent id (_rev docData) change t) b)
        | (b, None) => b
        end
      else b
  end.

Fixpoint forEachRevision (env : CallEnv)
    (docsInDb : list (option RxDocumentData)) (docIndex : nat)
    (documents : list RxDocumentData) (b : Batch) : Batch :=
  match documents with
  | [] => b
  | docData :: rest =>
      forEachRevision env docsInDb (S docIndex) rest
        (revisionStep (now env docIndex) (mjoin (docsInDb !! docIndex))
           docData b)
  end.

(** [bulkAddRevisions(documents)]; the promise resolves to [undefined]. *)
Definition bulkAddRevisions (env : CallEnv)
    (documents : list RxDocumentData) (inst : Instance) : Instance :=
  let documentKeys := primary <$> documents in
  let docsInDb := getDocsInDb inst documentKeys in
  let b := forEachRevision env docsInDb 0 documents emptyBatch in
  let inst := runBatch false b inst in
  let endTime := now env (length documents) in
  let eventBulk :=
    {| bulk_id := randomCouchString env;
       events := setEndTime endTime <$> batch_events b |} in
  publish eventBulk inst.

(** *** getChangedDocuments *)

Definition sequence_le (a b : RxStorageChangedDocumentMeta) : Prop :=
  (sequence a ≤ sequence b)%N.

Definition sequence_ge (a b : RxStorageChangedDocumentMeta) : Prop :=
  (sequence b ≤ sequence a)%N.

#[global] Instance sequence_le_dec : RelDecision sequence_le.
Proof. intros a b. unfold sequence_le. apply _. Defined.

#[global] Instance sequence_ge_dec : RelDecision sequence_ge.
Proof. intros a b. unfold sequence_ge. apply _. Defined.

(** The rows of a table in the order of their key [sequence], as a range
    query over the index visits them. *)
Definition bySequence (rows : list RxStorageChangedDocumentMeta)
  : list RxStorageChangedDocumentMeta :=
  merge_sort sequence_le rows.

(** [where('sequence').above(x)] and [where('sequence').below(x)]. *)
Definition above (x : N) (rows : list RxStorageChangedDocumentMeta)
  : list RxStorageChangedDocumentMeta :=
  filter (λ m, (x < sequence m)%N) (bySequence rows).

Definition below (x : N) (rows : list RxStorageChangedDocumentMeta)
  : list RxStorageChangedDocumentMeta :=
  filter (λ m, (sequence m < x)%N) (bySequence rows).

(** [if (options.limit) { query = query.limit(options.limit) }]: a limit
    that is [undefined] or [0] is falsy and leaves the query as it is. *)
Definition applyLimit {A : Type} (lim : option N) (query : list A)
  : list A :=
  match lim with
  | Some n => if (n =? 0)%N then query else take (N.to_nat n) query
  | None => query
  end.

Record ChangedDocuments := {
  lastSequence : N;
  changedDocuments : list RxStorageChangedDocumentMeta
}.

Definition getChangedDocuments (options : ChangeStreamOnceOptions)
    (inst : Instance) : ChangedDocuments :=
  let query :=
    match direction options with
    | before =>
        reverse (below (sinceSequence options) (dexieChangesTable inst))
    | after => above (sinceSequence options) (dexieChangesTable inst)
    end in
  let query := applyLimit (limit options) query in
  let changedDocuments := query in
  let lastSequence :=
    match changedDocuments with
    | [] => sinceSequence options
    | first :: _ =>
        let useForLastSequence :=
          match direction options with
          | after => List.last changedDocuments first
          | before => first
          end in
        sequence useForLastSequence
    end in
  {| lastSequence := lastSequence; changedDocuments := changedDocuments |}.

(** The spec's words for the two directions: the entries that lie after
    (before) [since], and the order in which they are listed. *)
Definition inRange (d : Direction) (since : N)
    (m : RxStorageChangedDocumentMeta) : Prop :=
  match d with
  | after => (since < sequence m)%N
  | before => (sequence m < since)%N
  end.

#[global] Instance inRange_dec d since m : Decision (inRange d since m).
Proof. destruct d; unfold inRange; apply _. Defined.

Definition listedOrder (d : Direction)
  : relation RxStorageChangedDocumentMeta :=
  match d with
  | after => sequence_le
  | before => sequence_ge
  end.

(** *** close *)


(** ** getChangedDocuments of the LokiJS storage instance *)

(** [chain().find({sequence: {[operator]: x}})] on the changes
    collection. *)
Definition lokiFind (gt : bool) (x : N)
    (changesCollection : list RxStorageChangedDocumentMeta)
  : list RxStorageChangedDocumentMeta :=
  if gt then filter (λ m, (x < sequence m)%N) changesCollection
  else filter (λ m, (sequence m < x)%N) changesCollection.

(** [simplesort('sequence', desc)]. *)
Definition simplesort (desc : bool)
    (rows : list RxStorageChangedDocumentMeta)
  : list RxStorageChangedDocumentMeta :=
  if desc then merge_sort sequence_ge rows else merge_sort sequence_le rows.

(** The branch of [getChangedDocuments] that runs on the local state. *)
Definition lokiGetChangedDocuments (options : ChangeStreamOnceOptions)
    (changesCollection : list RxStorageChangedDocumentMeta)
  : ChangedDocuments :=
  let desc := Direction_eqb (direction options) before in
  let gt := Direction_eqb (direction options) after in
  let query :=
    simplesort desc (lokiFind gt (sinceSequence options) changesCollection) in
  let query := applyLimit (limit options) query in
  let changedDocuments := query in
  let useForLastSequence :=
    if negb desc then last changedDocuments else head changedDocuments in
  {| changedDocuments := changedDocuments;
     lastSequence :=
       match useForLastSequence with
       | Some m => sequence m
       | None => sinceSequence options
       end |}.

(** ** The other operations of the Dexie storage instance *)

(** *** findDocumentsById *)

(** Modelled from the spec: [bulkGet(ids) → [doc|absent]] of one table,
    "preserving order". *)
Definition bulkGet (ids : list string) (table : gmap string RxDocumentData)
  : list (option RxDocumentData) :=
  (λ id, table !! id) <$> ids.

(** [ids.forEach((id, idx) => ...)]: the document at [idx] is reported,
    without [$lastWriteAt], when it is there and is not deleted or deleted
    ones are asked for. *)
Fixpoint forEachId (deleted : bool) (docsInDb : list (option RxDocumentData))
    (idx : nat) (ids : list string) (ret : gmap string RxDocumentData)
  : gmap string RxDocumentData :=
  match ids with
  | [] => ret
  | id :: rest =>
      let ret :=
        match mjoin (docsInDb !! idx) with
        | Some documentInDb =>
            if negb (Js.truthy (_deleted documentInDb)) || deleted
            then <[id := stripDexieKey documentInDb]> ret
            else ret
        | None => ret
        end in
      forEachId deleted docsInDb (S idx) rest ret
  end.

Definition findDocumentsById (ids : list string) (deleted : bool)
    (inst : Instance) : gmap string RxDocumentData :=
  let docsInDb :=
    if deleted then getDocsInDb inst ids
    else bulkGet ids (dexieTable inst) in
  forEachId deleted docsInDb 0 ids ∅.

(** *** query *)

(** The part of [MangoQuery] that [query] reads itself; selector and sort
    reach it through the matcher and the comparator only. *)
Record MangoQuery := {
  skip : option N;
  query_limit : option N
}.

Definition keyOrder (a b : string * RxDocumentData) : Prop :=
  String.leb a.1 b.1 = true.

#[global] Instance keyOrder_dec : RelDecision keyOrder.
Proof. intros a b. unfold keyOrder. apply _. Defined.

(** Modelled from the spec: "full scan of live using the opaque matcher";
    the scan delivers the rows of the table, here in the order of the
    primary key. The sort that follows rearranges them, and nothing proved
    below depends on the order of the scan. *)
Definition tableToArray (table : gmap string RxDocumentData)
  : list RxDocumentData :=
  (merge_sort keyOrder (map_to_list table)).*2.

(** [query(preparedQuery)]. [queryMatcher] is what [getQueryMatcher]
    returned and [sort] is [Array.prototype.sort] with the comparator that
    [getSortComparator] returned. *)
Definition query (queryMatcher : RxDocumentData → bool)
    (sort : list RxDocumentData → list RxDocumentData)
    (preparedQuery : MangoQuery) (inst : Instance) : list RxDocumentData :=
  let docsInDb :=
    filter (λ d, queryMatcher d = true) (tableToArray (dexieTable inst)) in
  let documents := sort (stripDexieKey <$> docsInDb) in
  let documents :=
    match skip preparedQuery with
    | Some n => if (n =? 0)%N then documents else drop (N.to_nat n) documents
    | None => documents
    end in
  let documents :=
    match query_limit preparedQuery with
    | Some n =>
        if negb (n =? 0)%N && (n <? N.of_nat (length documents))%N
        then take (N.to_nat n) documents
        else documents
    | None => documents
    end in
  documents.

(** *** remove *)


(** *** What the loop of bulkWrite does with a row, read off its tests *)

(** The row meets a stored document and the conflict test fires. *)
Definition isRefused (inst : Instance) (writeRow : BulkWriteRow) : bool :=
  match findInDb inst (primary (document writeRow)) with
  | Some documentInDb =>
      isConflict (_rev documentInDb)
        (previous (adoptPrevious documentInDb writeRow)) documentInDb
  | None => false
  end.

(** The row passes the conflict test with a deleted [previous] and a
    deleted document: no case of the chain applies. *)
Definition fallsThrough (inst : Instance) (writeRow : BulkWriteRow) : bool :=
  match findInDb inst (primary (document writeRow)) with
  | Some documentInDb =>
      negb (isRefused inst writeRow)
      && match previous (adoptPrevious documentInDb writeRow) with
         | Some prev =>
             Js.truthy (_deleted prev)
             && Js.truthy (_deleted (document writeRow))
         | None => true
         end
  | None => false
  end.

(** The row pushes an event: it is not refused, and it does not insert a
    deleted document. *)
Definition pushesEvent (inst : Instance) (writeRow : BulkWriteRow) : bool :=
  match findInDb inst (primary (document writeRow)) with
  | Some _ => negb (isRefused inst writeRow)
  | None => negb (Js.truthy (_deleted (document writeRow)))
  end.

(** *** Invariants of the tables *)

(** Every document sits under its primary key, the live table holds no
    deleted document and the deleted table holds deleted documents only. *)
Definition wellPlaced (inst : Instance) : Prop :=
  (∀ i d, dexieTable inst !! i = Some d →
          primary d = i ∧ Js.truthy (_deleted d) = false) ∧
  (∀ i d, dexieDeletedTable inst !! i = Some d →
          primary d = i ∧ Js.truthy (_deleted d) = true).

(** The same of a batch: documents queued for the live table are not
    deleted, documents queued for the deleted table are. *)
Definition queuedInPlace (b : Batch) : Prop :=
  Forall (λ d, Js.truthy (_deleted d) = false) (bulkPutDocs b) ∧
  Forall (λ d, Js.truthy (_deleted d) = true) (bulkPutDeletedDocs b).

(** No id is in both document tables. *)
Definition partitioned (inst : Instance) : Prop :=
  ∀ i, dexieTable inst !! i = None ∨ dexieDeletedTable inst !! i = None.

(** The rows of the changes table are in strictly ascending order of
    their sequence, and no sequence exceeds the last generated key. *)
Definition sequence_lt (a b : RxStorageChangedDocumentMeta) : Prop :=
  (sequence a < sequence b)%N.

Definition sequenced (inst : Instance) : Prop :=
  StronglySorted sequence_lt (dexieChangesTable inst) ∧
  Forall (λ m, (sequence m ≤ autoIncrement inst)%N) (dexieChangesTable inst).

(** The rows that [bulkPut] appends for [ids] after the key [lastKey]. *)
Definition newChanges (lastKey : N) (ids : list string)
  : list RxStorageChangedDocumentMeta :=
  imap (λ k id, {| meta_id := id;
                   sequence := (lastKey + 1 + N.of_nat k)%N |}) ids.

(** ** The change feed and the cleanup of the LokiJS storage instance *)

(** The part of the local state that [addChangeDocumentMeta] works on:
    the changes collection, oldest row first, and the cached field
    [lastChangefeedSequence] of the instance. *)
Record LokiChangeFeed := {
  lokiChangesCollection : list RxStorageChangedDocumentMeta;
  lastChangefeedSequence : N
}.

(** [addChangeDocumentMeta(id)]. *)
Definition addChangeDocumentMeta (id : string) (feed : LokiChangeFeed)
  : LokiChangeFeed :=
  let lastChangefeedSequence :=
    if (lastChangefeedSequence feed =? 0)%N then
      match head (take 1 (simplesort true (lokiChangesCollection feed))) with
      | Some lastDoc => sequence lastDoc
      | None => lastChangefeedSequence feed
      end
    else lastChangefeedSequence feed in
  let nextFeedSequence := (lastChangefeedSequence + 1)%N in
  {| lokiChangesCollection :=
       lokiChangesCollection feed
         ++ [{| meta_id := id; sequence := nextFeedSequence |}];
     lastChangefeedSequence := nextFeedSequence |}.

(** A document of the LokiJS collection, as [cleanup] reads it: the key
    [$loki], [_deleted] and [_meta.lwt]. *)
Record LokiDocument := {
  loki_key : N;
  loki_deleted : option bool;
  meta_lwt : Z;
  loki_data : RxDocType
}.

(** [find({_deleted: true, '_meta.lwt': {$lt: maxDeletionTime}})]. *)
Definition cleanupSelector (maxDeletionTime : Z) (d : LokiDocument) : Prop :=
  loki_deleted d = Some true ∧ (meta_lwt d < maxDeletionTime)%Z.

#[global] Instance cleanupSelector_dec maxDeletionTime d :
  Decision (cleanupSelector maxDeletionTime d).
Proof. unfold cleanupSelector. apply _. Defined.

(** [collection.remove(foundDocuments)]: the documents go by their key. *)
Definition lokiRemove (foundDocuments collection : list LokiDocument)
  : list LokiDocument :=
  filter (λ d, loki_key d ∉ loki_key <$> foundDocuments) collection.

(** [cleanup(minimumDeletedTime)] on the local state, [t] being the
    reading of [now()]: the collection afterwards and the value returned. *)
Definition cleanup (minimumDeletedTime : Z) (t : N)
    (collection : list LokiDocument) : list LokiDocument * bool :=
  let deleteAmountPerRun := 10%nat in
  let maxDeletionTime := (Z.of_N t - minimumDeletedTime)%Z in
  let foundDocuments :=
    take deleteAmountPerRun
      (filter (cleanupSelector maxDeletionTime) collection) in
  let collection :=
    if (0 <? length foundDocuments)%nat
    then lokiRemove foundDocuments collection
    else collection in
  (collection, negb (length foundDocuments =? deleteAmountPerRun)%nat).

End RxStorageInstanceDexie.

Arguments RxDocumentData RxDocType : clear implicits.
Arguments BulkWriteRow RxDocType : clear implicits.
Arguments ChangeEvent RxDocType : clear implicits.
Arguments RxStorageChangeEvent RxDocType : clear implicits.
Arguments EventBulk RxDocType : clear implicits.
Arguments RxStorageBulkWriteError RxDocType : clear implicits.
Arguments RxStorageBulkWriteResponse RxDocType : clear implicits.
Arguments RxError RxDocType : clear implicits.
Arguments DexieImports RxDocType : clear implicits.
Arguments Subject RxDocType : clear implicits.
Arguments Instance RxDocType : clear implicits.
Arguments Batch RxDocType : clear implicits.
Arguments LokiDocument RxDocType : clear implicits.

(** ** Sample data: documents whose body is one string *)
Module Sample.

(** A stand-in for the MD5 hash of the body. *)
#[global] Instance imports : DexieImports string := {|
  createRevision d := "h" ++ content d;
  getDexieEventKey isLocal primary revision :=
    (if isLocal then "local" else "non-local") ++ "|" ++ primary ++ "|"
      ++ revision
|}.

Definition env : CallEnv :=
  {| randomCouchString := "bulk"; now k := N.of_nat (1000 + k) |}.

Definition doc (id rev : string) (deleted : bool) (body : string)
  : RxDocumentData string :=
  {| primary := id; _rev := rev; _deleted := Some deleted;
     _attachments := ∅; lastWriteAt := None; content := body |}.

Definition emptyInstance : Instance string :=
  {| dexieTable := ∅; dexieDeletedTable := ∅; dexieChangesTable := [];
     autoIncrement := 0; changes := {| emitted := []; completed := false |};
     closed := false |}.

(** The document [a] alive at revision [3-H]. *)
Definition liveInstance : Instance string :=
  {| dexieTable := {[ "a" := doc "a" "3-H" false "v2" ]};
     dexieDeletedTable := ∅;
     dexieChangesTable := [ {| meta_id := "a"; sequence := 1 |};
                            {| meta_id := "a"; sequence := 2 |};
                            {| meta_id := "a"; sequence := 3 |} ];
     autoIncrement := 3;
     changes := {| emitted := []; completed := false |};
     closed := false |}.

(** The document [a] deleted at revision [3-H]. *)
Definition tombstoneInstance : Instance string :=
  {| dexieTable := ∅;
     dexieDeletedTable := {[ "a" := doc "a" "3-H" true "v2" ]};
     dexieChangesTable := [ {| meta_id := "a"; sequence := 1 |};
                            {| meta_id := "a"; sequence := 2 |};
                            {| meta_id := "a"; sequence := 3 |} ];
     autoIncrement := 3;
     changes := {| emitted := []; completed := false |};
     closed := false |}.

(** Rows for the document [a]. *)
Definition deleteRow : BulkWriteRow string :=
  {| document := doc "a" "" true "v2";
     previous := Some (doc "a" "3-H" false "v2") |}.

Definition updateRow : BulkWriteRow string :=
  {| document := doc "a" "" false "v3";
     previous := Some (doc "a" "3-H" false "v2") |}.

Definition staleRow : BulkWriteRow string :=
  {| document := doc "a" "" false "v3";
     previous := Some (doc "a" "2-G" false "v1") |}.

Definition insertRow (body : string) (deleted : bool) : BulkWriteRow string :=
  {| document := doc "a" "" deleted body; previous := None |}.

Definition otherRow : BulkWriteRow string :=
  {| document := doc "b" "" false "w1"; previous := None |}.

(** The document [a] at a revision of height [2^53], and a row that
    updates it. *)
Definition tallDoc (deleted : bool) : RxDocumentData string :=
  doc "a" "9007199254740992-H" deleted "v2".

Definition tallRow : BulkWriteRow string :=
  {| document := doc "a" "" false "v3"; previous := Some (tallDoc false) |}.

End Sample.

(** ** Properties of the revision codec *)

Lemma digits_prefix_uint (d : uint) :
  Js.digits_prefix (NilEmpty.string_of_uint d) = NilEmpty.string_of_uint d.
Proof. induction d; simpl; congruence. Qed.

Lemma split_dash_uint (d : uint) (r : string) :
  Js.split_dash (NilEmpty.string_of_uint d ++ String "-" r)
  = NilEmpty.string_of_uint d :: Js.split_dash r.
Proof. induction d; simpl; try rewrite IHd; reflexivity. Qed.

Lemma string_of_N_nonempty (n : N) :
  NilEmpty.string_of_uint (N.to_uint n) ≠ "".
Proof.
  destruct n as [|p]; [discriminate|].
  simpl. pose proof (DecimalPos.Unsigned.to_uint_nonnil p) as Hp.
  destruct (Pos.to_uint p); simpl; congruence.
Qed.

(** ** Numbers below 2^53 *)

Lemma safe_pow2 : safe = (2 ^ 53)%N.
Proof. reflexivity. Qed.

Lemma to_double_safe (n : N) : (n < safe)%N → Js.to_double n = n.
Proof.
  intros Hn. unfold Js.to_double.
  assert (N.log2 n < 53)%N as Hlog.
  { destruct n as [|p]; [done|]. apply N.log2_lt_pow2; [done|].
    by rewrite <- safe_pow2. }
  apply N.ltb_lt in Hlog. by rewrite Hlog.
Qed.

Lemma to_double_large (m : N) : (53 ≤ N.log2 m)%N → (safe ≤ Js.to_double m)%N.
Proof.
  intros Hlog. unfold Js.to_double.
  destruct (N.ltb_spec (N.log2 m) 53) as [?|_]; [lia|].
  destruct (N.leb_spec 1024 (N.log2 m)) as [_|Hfin].
  { unfold Js.infinity. rewrite N.shiftl_1_l, safe_pow2.
    apply N.pow_le_mono_r; lia. }
  set (shift := (N.log2 m - 52)%N).
  set (q := N.shiftr m shift).
  assert (2 ^ 52 ≤ q)%N as Hq.
  { unfold q. rewrite N.shiftr_div_pow2.
    apply N.div_le_lower_bound; [by apply N.pow_nonzero|].
    rewrite <- N.pow_add_r.
    replace (shift + 52)%N with (N.log2 m) by (unfold shift; lia).
    apply N.log2_spec. destruct m; [simpl in Hlog; lia|lia]. }
  assert (2 ^ 1 ≤ 2 ^ shift)%N as Hshift.
  { apply N.pow_le_mono_r; [lia|unfold shift; lia]. }
  assert (∀ q', (q ≤ q')%N → (safe ≤ N.shiftl q' shift)%N) as Hres.
  { intros q' Hq'. rewrite N.shiftl_mul_pow2, safe_pow2.
    change (2 ^ 53)%N with (2 ^ 52 * 2 ^ 1)%N.
    apply N.mul_le_mono; [lia|done]. }
  cbv zeta. fold shift. fold q.
  repeat case_match; apply Hres; lia.
Qed.

Lemma to_double_safe_inv (m x : N) :
  (x < safe)%N → Js.to_double m = x → m = x.
Proof.
  intros Hx Hm. destruct (N.lt_ge_cases (N.log2 m) 53) as [Hlog|Hlog].
  - revert Hm. unfold Js.to_double. apply N.ltb_lt in Hlog. by rewrite Hlog.
  - pose proof (to_double_large m Hlog). lia.
Qed.

Lemma count_digits_le (fuel : nat) (m x b : N) :
  (x < 10 ^ b)%N → (Js.count_digits fuel m x ≤ N.max m b)%N.
Proof.
  intros Hx. revert m. induction fuel as [|fuel IH]; intros m; simpl; [lia|].
  destruct (N.ltb_spec x (10 ^ m)) as [_|Hge]; [lia|].
  assert (m < b)%N as Hm.
  { destruct (N.lt_ge_cases m b) as [?|Hbm]; [done|].
    assert (10 ^ b ≤ 10 ^ m)%N by (apply N.pow_le_mono_r; lia). lia. }
  specialize (IH (m + 1)%N). lia.
Qed.

Lemma nb_digits_safe (x : N) : (x < safe)%N → (Js.nb_digits x ≤ 16)%N.
Proof.
  intros Hx. unfold Js.nb_digits.
  pose proof (count_digits_le (N.to_nat (N.log2 x)) 1 x 16) as Hle.
  assert (x < 10 ^ 16)%N as H16.
  { assert (safe < 10 ^ 16)%N by reflexivity. lia. }
  specialize (Hle H16). lia.
Qed.

(** Below [2^53] the digits found are digits of [x] itself. *)
Lemma shortest_safe (x D : N) (dropped : nat) :
  (x < safe)%N → (N.of_nat dropped ≤ D)%N →
  ∀ s k n,
    Js.shortest x D dropped = (s, k, n) →
    (s * 10 ^ (n - k) = x ∧ k ≤ n ∧ n ≤ D + 1)%N.
Proof.
  intros Hx. induction dropped as [|fewer IH]; intros HD s k n.
  - simpl. intros [= <- <- <-]. rewrite N.sub_diag. simpl. lia.
  - cbn [Js.shortest]. cbv zeta.
    set (scale := (10 ^ N.of_nat (S fewer))%N).
    set (k' := (D - N.of_nat (S fewer))%N).
    set (lo := (x / scale)%N).
    assert (∀ c, Js.to_double (c * scale) = x →
                 (if (c =? 10 ^ k')%N then (1, 1, D + 1)%N else (c, k', D))
                 = (s, k, n) →
                 (s * 10 ^ (n - k) = x ∧ k ≤ n ∧ n ≤ D + 1)%N) as Hvalid.
    { intros c Hc%to_double_safe_inv; [|done].
      destruct (N.eqb_spec c (10 ^ k')) as [->|_]; intros [= <- <- <-].
      - replace (D + 1 - 1)%N with (k' + N.of_nat (S fewer))%N
          by (unfold k'; lia).
        rewrite N.pow_add_r. fold scale. lia.
      - replace (D - k')%N with (N.of_nat (S fewer)) by (unfold k'; lia).
        fold scale. unfold k'. lia. }
    destruct (Js.to_double (lo * scale) =? x)%N eqn:Hlo,
      (Js.to_double ((lo + 1) * scale) =? x)%N eqn:Hhi;
      cbn [orb andb];
      try apply N.eqb_eq in Hlo; try apply N.eqb_eq in Hhi.
    + destruct (_ <? _)%N; [by apply Hvalid|].
      destruct (_ <? _)%N; [by apply Hvalid|].
      destruct (N.even lo); by apply Hvalid.
    + by apply Hvalid.
    + by apply Hvalid.
    + apply IH. lia.
Qed.

(** *** Decimal digits *)

Lemma string_of_uint_list (u : uint) :
  NilEmpty.string_of_uint u = string_of_list (to_list u).
Proof. induction u; simpl; unfold String_of_digit; congruence. Qed.

Lemma string_of_list_app (l1 l2 : list digits) :
  string_of_list (l1 ++ l2) = string_of_list l1 ++ string_of_list l2.
Proof.
  induction l1 as [|d l1 IH]; [done|].
  change (String_of_digit d (string_of_list (l1 ++ l2))
          = String_of_digit d (string_of_list l1 ++ string_of_list l2)).
  by rewrite IH.
Qed.

Lemma lnzhead_length (l : list digits) :
  (length (lnzhead l) ≤ length l)%nat.
Proof.
  induction l as [|d l IH]; simpl; [done|]. destruct d; simpl; lia.
Qed.

(** The digits of [10 × s] are those of [s] and a zero. *)
Lemma decimal_tenfold (s : N) :
  (0 < s)%N → Js.decimal (s * 10) = Js.decimal s ++ "0".
Proof.
  intros Hs. unfold Js.decimal.
  set (d := N.to_uint s).
  assert (N.of_uint d = s) as Hof by apply DecimalN.Unsigned.of_to.
  assert (unorm d = d) as Hnorm.
  { by rewrite <- DecimalN.Unsigned.to_of, Hof. }
  assert (d ≠ Decimal.zero) as Hnz.
  { intros Hz. rewrite Hz in Hof. simpl in Hof. lia. }
  assert (N.to_uint (s * 10) = Decimal.app d (D0 Nil)) as ->.
  { assert (N.of_uint (Decimal.app d (D0 Nil)) = (s * 10)%N) as <-.
    { unfold N.of_uint. rewrite DecimalPos.Unsigned.of_uint_alt.
      assert (Decimal.rev (Decimal.app d (D0 Nil)) = D0 (Decimal.rev d)) as ->.
      { apply to_list_inj. simpl.
        rewrite !rev_spec, app_spec. simpl. apply List.rev_unit. }
      rewrite DecimalPos.Unsigned.of_lu_eqn. simpl Unsigned.hd.
      simpl Unsigned.tl.
      rewrite <- DecimalPos.Unsigned.of_uint_alt.
      change (Pos.of_uint d) with (N.of_uint d). rewrite Hof. lia. }
    rewrite DecimalN.Unsigned.to_of.
    apply to_list_inj. rewrite unorm_spec, app_spec.
    apply (f_equal to_list) in Hnorm. rewrite unorm_spec in Hnorm.
    assert (to_list d ≠ [d0]) as Hnz'.
    { intros Hz. apply Hnz, to_list_inj. by rewrite Hz. }
    unfold lunorm in *. 
    destruct (to_list d) as [|c l] eqn:Hl.
    { simpl in Hnorm. done. }
    destruct c; try done.
    simpl in Hnorm. pose proof (lnzhead_length l) as Hlen.
    destruct (lnzhead l) as [|c' l'] eqn:Hhead.
    - by injection Hnorm as <-.
    - rewrite Hnorm in Hlen. simpl in Hlen. lia. }
  rewrite !string_of_uint_list, app_spec, string_of_list_app. done.
Qed.

Lemma zeros_snoc (m : nat) : Js.zeros (S m) = Js.zeros m ++ "0".
Proof.
  induction m as [|m IH]; [done|].
  change (String "0" (Js.zeros (S m)) = String "0" (Js.zeros m ++ "0")).
  by rewrite <- IH.
Qed.

Lemma string_app_assoc (a b c : string) : (a ++ b) ++ c = a ++ (b ++ c).
Proof.
  induction a as [|x a IH]; [done|].
  change (String x ((a ++ b) ++ c) = String x (a ++ (b ++ c))).
  by rewrite IH.
Qed.

Lemma string_app_nil_r (a : string) : a ++ "" = a.
Proof.
  induction a as [|x a IH]; [done|].
  change (String x (a ++ "") = String x a). by rewrite IH.
Qed.

Lemma decimal_scaled (s : N) (m : nat) :
  (0 < s)%N →
  Js.decimal (s * 10 ^ N.of_nat m) = Js.decimal s ++ Js.zeros m.
Proof.
  intros Hs. induction m as [|m IH].
  - simpl. by rewrite N.mul_1_r, string_app_nil_r.
  - rewrite Nat2N.inj_succ, N.pow_succ_r', zeros_snoc.
    replace (s * (10 * 10 ^ N.of_nat m))%N
      with (s * 10 ^ N.of_nat m * 10)%N by lia.
    rewrite decimal_tenfold by (assert (0 < 10 ^ N.of_nat m)%N
      by (apply N.neq_0_lt_0, N.pow_nonzero; lia); lia).
    by rewrite IH, string_app_assoc.
Qed.

(** Below [2^53] the conversion to a string writes [x] itself. *)
Lemma num_to_string_safe (x : N) :
  (x < safe)%N → Js.num_to_string (Some x) = Js.decimal x.
Proof.
  intros Hx. unfold Js.num_to_string.
  destruct (N.eqb_spec x 0) as [->|Hpos]; [done|].
  destruct (N.leb_spec Js.infinity x) as [Hinf|_].
  { assert (safe < Js.infinity)%N by reflexivity. lia. }
  pose proof (nb_digits_safe x Hx) as HD.
  destruct (Js.shortest _ _ _) as [[s k] n] eqn:Hshort.
  apply shortest_safe in Hshort as (Hval & Hk & Hn); [|done|lia].
  destruct (N.leb_spec n 21) as [_|?]; [|lia].
  rewrite <- Hval.
  replace (10 ^ (n - k))%N with (10 ^ N.of_nat (N.to_nat (n - k)))%N
    by (by rewrite N2Nat.id).
  rewrite decimal_scaled; [done|].
  destruct s; [|done]. simpl in Hval. lia.
Qed.

(** The doubles at work: reading, adding [1] and writing at and beyond
    [2^53]. *)
Lemma double_samples :
  Js.parseInt "9007199254740993" = Some (2 ^ 53)%N ∧
  Js.num_succ (Some (2 ^ 53)%N) = Some (2 ^ 53)%N ∧
  Js.num_succ (Some (2 ^ 53 + 2)%N) = Some (2 ^ 53 + 4)%N ∧
  Js.num_to_string (Some (2 ^ 53)%N) = "9007199254740992" ∧
  Js.num_to_string (Some (2 ^ 64)%N) = "18446744073709552000" ∧
  Js.num_to_string (Some (10 ^ 21)%N) = "1e+21" ∧
  Js.num_to_string (Some (2 ^ 70)%N) = "1.1805916207174113e+21" ∧
  Js.num_to_string (Js.num_succ (Some Js.infinity)) = "Infinity".
Proof. repeat split; by vm_compute. Qed.

(** Up to [2^53] itself nothing is rounded. *)
Lemma to_double_upto (n : N) : (n ≤ safe)%N → Js.to_double n = n.
Proof.
  intros Hn. destruct (N.eq_dec n safe) as [->|Hne]; [done|].
  apply to_double_safe. lia.
Qed.

Lemma num_to_string_upto (n : N) :
  (n ≤ safe)%N → Js.num_to_string (Some n) = Js.decimal n.
Proof.
  intros Hn. destruct (N.eq_dec n safe) as [->|Hne]; [by vm_compute|].
  apply num_to_string_safe. lia.
Qed.

Lemma parseInt_decimal (n : N) :
  Js.parseInt (Js.decimal n) = Some (Js.to_double n).
Proof.
  unfold Js.parseInt, Js.decimal. rewrite digits_prefix_uint.
  pose proof (string_of_N_nonempty n) as Hne.
  destruct (NilEmpty.string_of_uint (N.to_uint n)) eqn:Hs; [done|].
  rewrite <- Hs, NilEmpty.usu. simpl.
  by rewrite DecimalN.Unsigned.of_to.
Qed.

(** A number up to [2^53] is read back from its string. *)
Lemma parseInt_num_to_string (n : N) :
  (n ≤ safe)%N → Js.parseInt (Js.num_to_string (Some n)) = Some n.
Proof.
  intros Hn.
  by rewrite num_to_string_upto, parseInt_decimal, to_double_upto.
Qed.

(** The height written into a new revision is the height read back. *)
Lemma getHeightOfRevision_built (n : N) (h : string) :
  (n ≤ safe)%N →
  getHeightOfRevision (Js.num_to_string (Some n) ++ "-" ++ h) = Some n.
Proof.
  intros Hn. unfold getHeightOfRevision, parseRevision.
  rewrite num_to_string_upto by done.
  change (Js.decimal n ++ "-" ++ h)
    with (NilEmpty.string_of_uint (N.to_uint n) ++ String "-" h).
  rewrite split_dash_uint. simpl.
  change (NilEmpty.string_of_uint (N.to_uint n)) with (Js.decimal n).
  by rewrite parseInt_decimal, to_double_upto.
Qed.

Lemma getHeightOfRevision_first (h : string) :
  getHeightOfRevision ("1-" ++ h) = Some 1%N.
Proof. by apply (getHeightOfRevision_built 1 h). Qed.




(** ** Properties of the write loop *)

Section Properties.

Context {RxDocType : Type} `{!DexieImports RxDocType}.

Implicit Types (row writeRow : BulkWriteRow RxDocType).
Implicit Types (inDb prev docData : RxDocumentData RxDocType).
Implicit Types (acc : Batch RxDocType * RxStorageBulkWriteResponse RxDocType).
Implicit Types (inst : Instance RxDocType) (env : CallEnv).

Lemma getDocsInDb_lookup inst (all : list (BulkWriteRow RxDocType)) k row :
  all !! k = Some row →
  mjoin (getDocsInDb inst ((λ r, primary (document r)) <$> all) !! k)
  = findInDb inst (primary (document row)).
Proof.
  intros Hk. unfold getDocsInDb.
  by rewrite !list_lookup_fmap, Hk.
Qed.

Lemma foldWrite_ext (f g : nat → N) find (rows : list (BulkWriteRow RxDocType))
    acc :
  (∀ j, (j < length rows)%nat → f j = g j) →
  foldWrite f find rows acc = foldWrite g find rows acc.
Proof.
  revert f g acc. induction rows as [|r rest IH]; intros f g acc Hfg; [done|].
  simpl. rewrite Hfg by (simpl; lia). destruct (writeStep _ _ _ _); [done|].
  apply IH. intros j Hj. apply Hfg. simpl. lia.
Qed.

Lemma foldWrite_app (f : nat → N) find
    (pre post : list (BulkWriteRow RxDocType)) acc :
  foldWrite f find (pre ++ post) acc
  = match foldWrite f find pre acc with
    | inl e => inl e
    | inr acc1 => foldWrite (λ j, f (length pre + j)%nat) find post acc1
    end.
Proof.
  revert f acc. induction pre as [|r pre IH]; intros f acc; [done|].
  simpl. destruct (writeStep _ _ _ _); [done|]. apply IH.
Qed.

(** Every row of a batch is categorized against the document read for its
    id at the start of the transaction. *)
Lemma forEachWrite_foldWrite env inst (all rows : list (BulkWriteRow RxDocType))
    k acc :
  drop k all = rows →
  forEachWrite env (getDocsInDb inst ((λ r, primary (document r)) <$> all))
    k rows acc
  = foldWrite (λ j, now env (k + j)) (findInDb inst) rows acc.
Proof.
  revert k acc. induction rows as [|row rest IH]; intros k acc Hdrop; [done|].
  assert (all !! k = Some row) as Hk.
  { rewrite <- (Nat.add_0_r k), <- lookup_drop, Hdrop. done. }
  simpl. rewrite (getDocsInDb_lookup _ _ _ _ Hk), Nat.add_0_r.
  destruct (writeStep _ _ _ _) as [e|acc']; [done|].
  rewrite (IH (S k)).
  - apply foldWrite_ext. intros j _. f_equal. lia.
  - replace (S k) with (k + 1)%nat by lia.
    by rewrite <- drop_drop, Hdrop.
Qed.

(** *** One row against an existing document *)

(** The row once its [previous] is known to carry the stored revision. *)
Lemma updateExisting_accepted t inDb row prev acc :
  previous (adoptPrevious inDb row) = Some prev →
  _rev prev = _rev inDb →
  updateExisting t inDb row acc
  = let id := primary (document row) in
    let newRevision := nextRevision (_rev inDb) (document row) in
    let writeDoc :=
      assignWriteDoc (document row) newRevision
        (Js.truthy (_deleted (document row))) (Some t) in
    match categorize id newRevision (Some prev) writeDoc
            (push_changesIds id acc.1) with
    | (_, None) => inl (SNH (adoptPrevious inDb row))
    | (b, Some c) =>
        inr (push_events (mkEvent id newRevision c t) b,
             setSuccess id (stripDexieKey writeDoc) acc.2)
    end.
Proof.
  intros Hprev Hrev. unfold updateExisting.
  assert (document (adoptPrevious inDb row) = document row) as Hdoc.
  { unfold adoptPrevious. by destruct (_ && _). }
  rewrite Hprev, Hdoc. unfold isConflict. simpl.
  rewrite Hrev, String.eqb_refl. simpl. done.
Qed.

(** The row when the conflict test fires. *)
Lemma updateExisting_conflict t inDb row acc :
  (previous row = None ∧ Js.truthy (_deleted inDb) = false)
  ∨ (∃ prev, previous row = Some prev ∧ _rev prev ≠ _rev inDb) →
  updateExisting t inDb row acc
  = inr (acc.1,
         setError (primary (document row))
           {| isError := true; status := 409;
              error_documentId := primary (document row);
              error_writeRow := row |} acc.2).
Proof.
  intros [[Hnone Hlive]|(prev & Hprev & Hne)];
    unfold updateExisting, adoptPrevious, isConflict.
  - rewrite Hnone, Hlive. simpl. rewrite Hnone. simpl. done.
  - rewrite Hprev. simpl. rewrite Hprev. simpl.
    assert (String.eqb (_rev inDb) (_rev prev) = false) as ->
      by (apply String.eqb_neq; congruence).
    done.
Qed.

(** A stored tombstone stands in for a missing [previous]. *)
Lemma adoptPrevious_tombstone inDb row :
  previous row = None → Js.truthy (_deleted inDb) = true →
  previous (adoptPrevious inDb row) = Some inDb.
Proof. intros Hnone Hdel. unfold adoptPrevious. by rewrite Hnone, Hdel. Qed.

Lemma adoptPrevious_given inDb row prev :
  previous row = Some prev → adoptPrevious inDb row = row.
Proof. intros Hprev. unfold adoptPrevious. by rewrite Hprev. Qed.

(** Every row that meets a stored document and does not throw is either
    refused with status 409, leaving the batch as it was, or accepted:
    one document is queued for one of the two tables and reported, and one
    event and one changes row are queued. *)
Lemma updateExisting_inr t inDb row acc acc' :
  updateExisting t inDb row acc = inr acc' →
  (∃ e, status e = 409%N ∧ acc' = (acc.1, setError (primary (document row)) e acc.2))
  ∨ (∃ prev c b,
       previous (adoptPrevious inDb row) = Some prev ∧ _rev prev = _rev inDb ∧
       let id := primary (document row) in
       let newRevision := nextRevision (_rev inDb) (document row) in
       let writeDoc :=
         assignWriteDoc (document row) newRevision
           (Js.truthy (_deleted (document row))) (Some t) in
       categorize id newRevision (Some prev) writeDoc
         (push_changesIds id acc.1) = (b, Some c) ∧
       acc' = (push_events (mkEvent id newRevision c t) b,
               setSuccess id (stripDexieKey writeDoc) acc.2)).
Proof.
  intros Hstep.
  destruct (previous (adoptPrevious inDb row)) as [prev|] eqn:Hprev.
  - destruct (String.eqb_spec (_rev inDb) (_rev prev)) as [Heq|Hne].
    + right. rewrite (updateExisting_accepted _ _ _ prev) in Hstep by done.
      cbv zeta in Hstep.
      destruct (categorize _ _ _ _ _) as [b [c|]] eqn:Hcat; [|done].
      exists prev, c, b. cbv zeta. rewrite Hcat.
      repeat split; [done..|]. congruence.
    + left. revert Hstep. unfold updateExisting, isConflict.
      rewrite Hprev. simpl.
      apply String.eqb_neq in Hne. rewrite Hne. simpl.
      intros [= <-]. eexists. split; [|reflexivity]. done.
  - left. revert Hstep. unfold updateExisting, isConflict.
    rewrite Hprev. simpl.
    assert (Js.truthy (_deleted inDb) = false) as ->.
    { revert Hprev. unfold adoptPrevious.
      destruct (Js.truthy (_deleted inDb)); [|done].
      destruct (previous row) eqn:E; simpl; rewrite ?E; done. }
    simpl. intros [= <-]. eexists. split; [|reflexivity]. done.
Qed.

Lemma isConflict_false inDb row :
  isConflict (_rev inDb) (previous (adoptPrevious inDb row)) inDb = false →
  ∃ prev, previous (adoptPrevious inDb row) = Some prev ∧ _rev prev = _rev inDb.
Proof.
  unfold isConflict.
  destruct (previous (adoptPrevious inDb row)) as [prev|] eqn:Hprev; simpl.
  - intros Heq%negb_false_iff%String.eqb_eq. eauto.
  - rewrite ?orb_false_r. intros Hdel%negb_false_iff.
    revert Hprev. unfold adoptPrevious. rewrite Hdel.
    destruct (previous row) eqn:E; simpl; rewrite ?E; done.
Qed.

Lemma categorize_queues id newRevision prev writeDoc
    (b0 b : Batch RxDocType) c :
  categorize id newRevision (Some prev) writeDoc b0 = (b, Some c) →
  change_id c = id ∧
  batch_events b = batch_events b0 ∧ changesIds b = changesIds b0 ∧
  ((bulkPutDocs b = (bulkPutDocs b0 ++ [writeDoc])%list
    ∧ bulkPutDeletedDocs b = bulkPutDeletedDocs b0)
   ∨ (bulkPutDeletedDocs b = (bulkPutDeletedDocs b0 ++ [writeDoc])%list
      ∧ bulkPutDocs b = bulkPutDocs b0)).
Proof.
  unfold categorize.
  destruct (Js.truthy (_deleted prev)), (Js.truthy (_deleted writeDoc));
    simpl; intros Heq; inversion Heq; subst; simpl; naive_solver.
Qed.

Lemma categorize_delete id newRevision prev writeDoc (b : Batch RxDocType) :
  Js.truthy (_deleted prev) = false →
  Js.truthy (_deleted writeDoc) = true →
  categorize id newRevision (Some prev) writeDoc b
  = (push_bulkRemoveDocs id (push_bulkPutDeletedDocs writeDoc b),
     Some {| change_id := id; operation := DELETE;
             change_previous := Some (setRev newRevision prev);
             change_doc := None |}).
Proof. intros Hp Hd. unfold categorize. by rewrite Hp, Hd. Qed.

Lemma categorize_resurrect id newRevision prev writeDoc (b : Batch RxDocType) :
  Js.truthy (_deleted prev) = true →
  Js.truthy (_deleted writeDoc) = false →
  categorize id newRevision (Some prev) writeDoc b
  = (push_bulkRemoveDeletedDocs id (push_bulkPutDocs writeDoc b),
     Some {| change_id := id; operation := INSERT;
             change_previous := None;
             change_doc := Some (stripDexieKey writeDoc) |}).
Proof. intros Hp Hd. unfold categorize. by rewrite Hp, Hd. Qed.

Lemma categorize_falls_through id newRevision prev writeDoc
    (b : Batch RxDocType) :
  Js.truthy (_deleted prev) = true →
  Js.truthy (_deleted writeDoc) = true →
  categorize id newRevision (Some prev) writeDoc b = (b, None).
Proof. intros Hp Hd. unfold categorize. by rewrite Hp, Hd. Qed.

(** *** One row: the three accepted writes *)

Lemma writeStep_delete t inDb row prev acc :
  previous row = Some prev →
  Js.truthy (_deleted prev) = false →
  _rev prev = _rev inDb →
  Js.truthy (_deleted (document row)) = true →
  let i := primary (document row) in
  let newRevision := nextRevision (_rev inDb) (document row) in
  let tombstone := assignWriteDoc (document row) newRevision true (Some t) in
  writeStep t (Some inDb) row acc
  = inr (push_events
           (mkEvent i newRevision
              {| change_id := i; operation := DELETE;
                 change_previous := Some (setRev newRevision prev);
                 change_doc := None |} t)
           (push_bulkRemoveDocs i
              (push_bulkPutDeletedDocs tombstone (push_changesIds i acc.1))),
         setSuccess i (stripDexieKey tombstone) acc.2).
Proof.
  intros Hprev Hlive Hrev Hdel. simpl.
  rewrite (updateExisting_accepted _ _ _ prev);
    [|by rewrite (adoptPrevious_given _ _ prev)|done].
  cbv zeta. rewrite categorize_delete by (simpl; done). by rewrite Hdel.
Qed.

Lemma writeStep_resurrect t inDb row acc :
  previous row = None →
  Js.truthy (_deleted inDb) = true →
  Js.truthy (_deleted (document row)) = false →
  let i := primary (document row) in
  let newRevision := nextRevision (_rev inDb) (document row) in
  let writeDoc := assignWriteDoc (document row) newRevision false (Some t) in
  writeStep t (Some inDb) row acc
  = inr (push_events
           (mkEvent i newRevision
              {| change_id := i; operation := INSERT;
                 change_previous := None;
                 change_doc := Some (stripDexieKey writeDoc) |} t)
           (push_bulkRemoveDeletedDocs i
              (push_bulkPutDocs writeDoc (push_changesIds i acc.1))),
         setSuccess i (stripDexieKey writeDoc) acc.2).
Proof.
  intros Hnone Hdel Hlive. simpl.
  rewrite (updateExisting_accepted _ _ _ inDb);
    [|by apply adoptPrevious_tombstone|done].
  cbv zeta. rewrite categorize_resurrect by (simpl; done). by rewrite Hlive.
Qed.

Lemma writeStep_throws t inDb row acc :
  previous row = None →
  Js.truthy (_deleted inDb) = true →
  Js.truthy (_deleted (document row)) = true →
  writeStep t (Some inDb) row acc
  = inl (SNH {| document := document row; previous := Some inDb |}).
Proof.
  intros Hnone Hdel Hdead. simpl.
  rewrite (updateExisting_accepted _ _ _ inDb);
    [|by apply adoptPrevious_tombstone|done].
  cbv zeta. rewrite categorize_falls_through by (simpl; done).
  unfold adoptPrevious. by rewrite Hnone, Hdel.
Qed.

(** The words of the claims for a row that passes the conflict test. *)
Lemma accepted_previous inDb row :
  (previous row = None ∧ Js.truthy (_deleted inDb) = true)
  ∨ (∃ prev, previous row = Some prev ∧ _rev prev = _rev inDb) →
  ∃ prev, previous (adoptPrevious inDb row) = Some prev
          ∧ _rev prev = _rev inDb.
Proof.
  intros [[Hnone Hdel]|(prev & Hprev & Hrev)].
  - exists inDb. split; [by apply adoptPrevious_tombstone|done].
  - exists prev. by rewrite (adoptPrevious_given _ _ prev).
Qed.

Lemma nextRevision_height revInDb (d : RxDocumentData RxDocType) h :
  getHeightOfRevision revInDb = Some h →
  (h < 2 ^ 53)%N →
  nextRevision revInDb d
  = (Js.num_to_string (Some (h + 1)%N) ++ "-" ++ createRevision d)%string ∧
  getHeightOfRevision (nextRevision revInDb d) = Some (h + 1)%N.
Proof.
  intros Hh Hsafe. rewrite <- safe_pow2 in Hsafe.
  unfold nextRevision. rewrite Hh. cbn [Js.num_succ fmap option_fmap option_map].
  rewrite to_double_upto by lia.
  split; [done|]. apply getHeightOfRevision_built. lia.
Qed.

(** *** A refused row *)

Lemma writeStep_error_status t d row acc acc' :
  writeStep t d row acc = inr acc' →
  error acc'.2 = error acc.2
  ∨ ∃ e, status e = 409%N
         ∧ error acc'.2 = <[primary (document row) := e]> (error acc.2).
Proof.
  destruct d as [inDb|]; simpl.
  - intros [(e & He & ->)|(prev & c & b & _ & _ & _ & ->)]%updateExisting_inr;
      [right; by exists e|by left].
  - intros [= <-]. by left.
Qed.

Lemma foldWrite_keeps_409 f find (rows : list (BulkWriteRow RxDocType))
    acc acc' i :
  foldWrite f find rows acc = inr acc' →
  (∃ e, error acc.2 !! i = Some e ∧ status e = 409%N) →
  ∃ e, error acc'.2 !! i = Some e ∧ status e = 409%N.
Proof.
  revert f acc. induction rows as [|r rest IH]; intros f acc; simpl.
  - by intros [= <-].
  - destruct (writeStep _ _ _ _) as [|acc1] eqn:Hstep; [done|].
    intros Hrest Hi. apply (IH _ _ Hrest).
    destruct (writeStep_error_status _ _ _ _ _ Hstep) as [->|(e & He & ->)];
      [done|].
    destruct (decide (primary (document r) = i)) as [->|Hne].
    + exists e. by rewrite lookup_insert_eq.
    + by rewrite lookup_insert_ne.
Qed.

Lemma writeStep_sameWrites t d row acc1 acc2 :
  sameWrites acc1 acc2 →
  sameOutcome (writeStep t d row acc1) (writeStep t d row acc2).
Proof.
  destruct acc1 as [b1 [s1 e1]], acc2 as [b2 [s2 e2]].
  intros [Hb Hs]. simpl in Hb, Hs. subst b2 s2.
  destruct d as [inDb|]; simpl.
  - unfold updateExisting. destruct (isConflict _ _ _); simpl; [done|].
    destruct (categorize _ _ _ _ _) as [b [c|]]; simpl; done.
  - done.
Qed.

Lemma foldWrite_sameWrites f find (rows : list (BulkWriteRow RxDocType))
    acc1 acc2 :
  sameWrites acc1 acc2 →
  sameOutcome (foldWrite f find rows acc1) (foldWrite f find rows acc2).
Proof.
  revert f acc1 acc2. induction rows as [|r rest IH]; intros f acc1 acc2 Hs.
  - done.
  - simpl. pose proof (writeStep_sameWrites (f 0%nat)
      (find (primary (document r))) r _ _ Hs) as Hstep.
    destruct (writeStep _ _ _ acc1), (writeStep _ _ _ acc2); try done.
    by apply IH.
Qed.

Lemma bulkWrite_foldWrite env (rows : list (BulkWriteRow RxDocType)) inst :
  bulkWrite env rows inst
  = match foldWrite (now env) (findInDb inst) rows
            (emptyBatch, emptyResponse) with
    | inl e => (inst, inl e)
    | inr (b, ret) =>
        (publish {| bulk_id := randomCouchString env;
                    events := setEndTime (now env (length rows))
                                <$> batch_events b |}
           (runBatch true b inst), inr ret)
    end.
Proof.
  unfold bulkWrite. rewrite (forEachWrite_foldWrite _ _ rows rows) by done.
  rewrite (foldWrite_ext _ (now env)) by done. done.
Qed.

(** C5. A row whose id is stored and which either has no [previous] while
    the stored document is not deleted, or has a [previous] with another
    revision than the stored one, is answered by an error of status 409
    under its id: the loop body leaves the batch and the success map as
    they were and does not throw; the error map that [bulkWrite] returns
    has an entry of status 409 under the id; and the instance after the
    call — tables, changes table and published bulk — is the one that the
    batch without this row produces, the other rows being processed alike. *)
Theorem bulkWrite_conflict_409 env pre row post inst inDb :
  findInDb inst (primary (document row)) = Some inDb →
  (previous row = None ∧ Js.truthy (_deleted inDb) = false)
  ∨ (∃ prev, previous row = Some prev ∧ _rev prev ≠ _rev inDb) →
  (∀ t acc,
     writeStep t (Some inDb) row acc
     = inr (acc.1,
            setError (primary (document row))
              {| isError := true; status := 409;
                 error_documentId := primary (document row);
                 error_writeRow := row |} acc.2)) ∧
  (∀ inst' ret,
     bulkWrite env (pre ++ row :: post) inst = (inst', inr ret) →
     ∃ e, error ret !! primary (document row) = Some e ∧ status e = 409%N) ∧
  (bulkWrite env (pre ++ row :: post) inst).1
  = (bulkWrite (skipReading (length pre) env) (pre ++ post) inst).1 ∧
  sameReturn (bulkWrite env (pre ++ row :: post) inst).2
    (bulkWrite (skipReading (length pre) env) (pre ++ post) inst).2.
Proof.
  intros Hfind Hconflict.
  assert (∀ t acc,
     writeStep t (Some inDb) row acc
     = inr (acc.1,
            setError (primary (document row))
              {| isError := true; status := 409;
                 error_documentId := primary (document row);
                 error_writeRow := row |} acc.2)) as Hstep.
  { intros t acc. simpl. by apply updateExisting_conflict. }
  split; [exact Hstep|].
  rewrite !bulkWrite_foldWrite, !foldWrite_app.
  rewrite (foldWrite_ext (now (skipReading (length pre) env)) (now env)
             _ pre).
  2:{ intros j Hj. simpl. by apply Nat.ltb_lt in Hj as ->. }
  destruct (foldWrite (now env) (findInDb inst) pre _) as [e|acc1] eqn:Hpre.
  { split; [done|]. split; done. }
  simpl (foldWrite _ _ (row :: post) _). rewrite Hfind, Hstep.
  rewrite (foldWrite_ext
             (λ j, now (skipReading (length pre) env) (length pre + j)%nat)
             (λ j, now env (length pre + S j)%nat) _ post).
  2:{ intros j _. simpl.
      assert ((length pre + j <? length pre)%nat = false) as ->
        by (apply Nat.ltb_ge; lia).
      f_equal. lia. }
  pose proof (foldWrite_sameWrites (λ j, now env (length pre + S j)%nat)
    (findInDb inst) post
    (acc1.1, setError (primary (document row))
       {| isError := true; status := 409;
          error_documentId := primary (document row);
          error_writeRow := row |} acc1.2) acc1) as Hsame.
  destruct (foldWrite _ _ post (_, setError _ _ _)) as [e1|[b1 ret1]] eqn:H1.
  - split; [done|].
    destruct (foldWrite _ _ post acc1) as [e2|[b2 ret2]]; simpl in *.
    + split; [done|]. by apply Hsame.
    + by exfalso; apply Hsame.
  - split.
    { intros inst' ret [= _ <-].
      apply (foldWrite_keeps_409 _ _ _ _ _ (primary (document row))) in H1;
        [done|].
      simpl. eexists. by rewrite lookup_insert_eq. }
    destruct (foldWrite _ _ post acc1) as [e2|[b2 ret2]]; simpl in *.
    + by exfalso; apply Hsame.
    + destruct Hsame as [Hb Hs]; [done|]. simpl in Hb, Hs. subst b2.
      split; [|done].
      rewrite !length_app. simpl.
      assert ((length pre + length post <? length pre)%nat = false) as ->
        by (apply Nat.ltb_ge; lia).
      by rewrite Nat.add_succ_r.
Qed.

(** *** What a batch holds for one id *)

Lemma batchFor_push_bulkPutDocs i d (b : Batch RxDocType) :
  batchFor i (push_bulkPutDocs d b)
  = if decide (primary d = i) then push_bulkPutDocs d (batchFor i b)
    else batchFor i b.
Proof.
  unfold batchFor, push_bulkPutDocs, docsFor; simpl.
  rewrite filter_app. case_decide.
  - by rewrite filter_cons_True.
  - by rewrite filter_cons_False, app_nil_r.
Qed.

Lemma batchFor_push_bulkPutDeletedDocs i d (b : Batch RxDocType) :
  batchFor i (push_bulkPutDeletedDocs d b)
  = if decide (primary d = i) then push_bulkPutDeletedDocs d (batchFor i b)
    else batchFor i b.
Proof.
  unfold batchFor, push_bulkPutDeletedDocs, docsFor; simpl.
  rewrite filter_app. case_decide.
  - by rewrite filter_cons_True.
  - by rewrite filter_cons_False, app_nil_r.
Qed.

Lemma batchFor_push_bulkRemoveDocs i x (b : Batch RxDocType) :
  batchFor i (push_bulkRemoveDocs x b)
  = if decide (x = i) then push_bulkRemoveDocs x (batchFor i b)
    else batchFor i b.
Proof.
  unfold batchFor, push_bulkRemoveDocs, idsFor; simpl.
  rewrite filter_app. case_decide.
  - by rewrite filter_cons_True.
  - by rewrite filter_cons_False, app_nil_r.
Qed.

Lemma batchFor_push_bulkRemoveDeletedDocs i x (b : Batch RxDocType) :
  batchFor i (push_bulkRemoveDeletedDocs x b)
  = if decide (x = i) then push_bulkRemoveDeletedDocs x (batchFor i b)
    else batchFor i b.
Proof.
  unfold batchFor, push_bulkRemoveDeletedDocs, idsFor; simpl.
  rewrite filter_app. case_decide.
  - by rewrite filter_cons_True.
  - by rewrite filter_cons_False, app_nil_r.
Qed.

Lemma batchFor_push_changesIds i x (b : Batch RxDocType) :
  batchFor i (push_changesIds x b)
  = if decide (x = i) then push_changesIds x (batchFor i b)
    else batchFor i b.
Proof.
  unfold batchFor, push_changesIds, idsFor; simpl.
  rewrite filter_app. case_decide.
  - by rewrite filter_cons_True.
  - by rewrite filter_cons_False, app_nil_r.
Qed.

Lemma batchFor_push_events i e (b : Batch RxDocType) :
  batchFor i (push_events e b)
  = if decide (documentId e = i) then push_events e (batchFor i b)
    else batchFor i b.
Proof.
  unfold batchFor, push_events, eventsFor; simpl.
  rewrite filter_app. case_decide.
  - by rewrite filter_cons_True.
  - by rewrite filter_cons_False, app_nil_r.
Qed.


Create Rewrite HintDb batchFor.
#[local] Hint Rewrite batchFor_push_bulkPutDocs batchFor_push_bulkPutDeletedDocs
  batchFor_push_bulkRemoveDocs batchFor_push_bulkRemoveDeletedDocs
  batchFor_push_changesIds batchFor_push_events : batchFor.

(** A row with another id adds nothing for [i]. *)
Lemma writeStep_other t d row acc acc' i :
  primary (document row) ≠ i →
  writeStep t d row acc = inr acc' →
  batchFor i acc'.1 = batchFor i acc.1 ∧
  success acc'.2 !! i = success acc.2 !! i ∧
  error acc'.2 !! i = error acc.2 !! i.
Proof.
  intros Hne. destruct d as [inDb|]; simpl.
  - intros [(e & _ & ->)|(prev & c & b & _ & _ & Hcat & ->)]%updateExisting_inr;
      simpl.
    + by rewrite lookup_insert_ne.
    + rewrite lookup_insert_ne by done. split; [|done].
      cbv zeta in Hcat. revert Hcat. unfold categorize.
      repeat case_match; intros [= <- <-];
        autorewrite with batchFor; simpl; repeat case_decide; done.
  - intros [= <-]. unfold insertNew. simpl.
    rewrite lookup_insert_ne by done. split; [|done].
    case_match; autorewrite with batchFor; simpl; repeat case_decide; done.
Qed.

Lemma foldWrite_other f find (rows : list (BulkWriteRow RxDocType)) acc acc' i :
  (∀ r, r ∈ rows → primary (document r) ≠ i) →
  foldWrite f find rows acc = inr acc' →
  batchFor i acc'.1 = batchFor i acc.1 ∧
  success acc'.2 !! i = success acc.2 !! i ∧
  error acc'.2 !! i = error acc.2 !! i.
Proof.
  revert f acc. induction rows as [|r rest IH]; intros f acc Hids; simpl.
  - by intros [= <-].
  - destruct (writeStep _ _ _ _) as [|acc1] eqn:Hstep; [done|].
    intros Hrest.
    apply (writeStep_other _ _ _ _ _ i) in Hstep as (Hb & Hs & He);
      [|apply Hids; left].
    rewrite <- Hb, <- Hs, <- He.
    apply (IH _ _ (λ r' Hr', Hids r' (list_elem_of_further _ _ _ Hr')) Hrest).
Qed.

(** *** The tables after the batch has run *)

Lemma bulkPut_lookup_for (docs : list (RxDocumentData RxDocType))
    (t t' : gmap string (RxDocumentData RxDocType)) i :
  t !! i = t' !! i →
  bulkPut docs t !! i = bulkPut (docsFor i docs) t' !! i.
Proof.
  revert t t'. induction docs as [|d docs IH]; intros t t' Heq; [done|].
  unfold docsFor. destruct (decide (primary d = i)) as [<-|Hne].
  - rewrite filter_cons_True by done. simpl. apply IH.
    by rewrite !lookup_insert_eq.
  - rewrite filter_cons_False by done. simpl. apply IH.
    by rewrite lookup_insert_ne.
Qed.

Lemma bulkDelete_lookup_for (ids : list string)
    (t t' : gmap string (RxDocumentData RxDocType)) i :
  t !! i = t' !! i →
  bulkDelete ids t !! i = bulkDelete (idsFor i ids) t' !! i.
Proof.
  revert t t'. induction ids as [|x ids IH]; intros t t' Heq; [done|].
  unfold idsFor. destruct (decide (x = i)) as [->|Hne].
  - rewrite filter_cons_True by done. simpl. apply IH.
    by rewrite !lookup_delete_eq.
  - rewrite filter_cons_False by done. simpl. apply IH.
    by rewrite lookup_delete_ne.
Qed.

Lemma ifNonEmpty_bulkPut (docs : list (RxDocumentData RxDocType)) t :
  ifNonEmpty docs bulkPut t = bulkPut docs t.
Proof. by destruct docs. Qed.

Lemma ifNonEmpty_bulkDelete (ids : list string)
    (t : gmap string (RxDocumentData RxDocType)) :
  ifNonEmpty ids bulkDelete t = bulkDelete ids t.
Proof. by destruct ids. Qed.

(** What the two document tables hold for [i] after the batch depends on
    what the batch holds for [i] only. *)
Lemma runBatch_lookup guard (b : Batch RxDocType) inst i :
  dexieTable (runBatch guard b inst) !! i
  = bulkDelete (bulkRemoveDocs (batchFor i b))
      (bulkPut (bulkPutDocs (batchFor i b)) (dexieTable inst)) !! i ∧
  dexieDeletedTable (runBatch guard b inst) !! i
  = bulkDelete (bulkRemoveDeletedDocs (batchFor i b))
      (bulkPut (bulkPutDeletedDocs (batchFor i b)) (dexieDeletedTable inst))
    !! i.
Proof.
  unfold runBatch; simpl.
  rewrite !ifNonEmpty_bulkPut, !ifNonEmpty_bulkDelete.
  split; apply bulkDelete_lookup_for, bulkPut_lookup_for; done.
Qed.

Lemma eventsFor_setEndTime i t (evs : list (RxStorageChangeEvent RxDocType)) :
  eventsFor i (setEndTime t <$> evs) = setEndTime t <$> eventsFor i evs.
Proof.
  unfold eventsFor. induction evs as [|e evs IH]; [done|].
  rewrite fmap_cons. destruct (decide (documentId e = i)) as [He|He].
  - rewrite !filter_cons_True by done. by rewrite fmap_cons, IH.
  - rewrite !filter_cons_False by done. done.
Qed.

(** A row that is the only one of its batch with its id: the loop body
    runs on a state that holds nothing for the id, and what the batch, the
    returned maps, the tables and the published bulk hold for the id
    afterwards is what the loop body left. *)
Lemma bulkWrite_row_alone env pre row post inst inst' ret :
  let i := primary (document row) in
  (∀ r, r ∈ (pre ++ post)%list → primary (document r) ≠ i) →
  bulkWrite env (pre ++ row :: post) inst = (inst', inr ret) →
  ∃ acc1 acc2 bulk,
    batchFor i acc1.1 = emptyBatch ∧
    success acc1.2 !! i = None ∧ error acc1.2 !! i = None ∧
    writeStep (now env (length pre)) (findInDb inst i) row acc1 = inr acc2 ∧
    success ret !! i = success acc2.2 !! i ∧
    error ret !! i = error acc2.2 !! i ∧
    dexieTable inst' !! i
    = bulkDelete (bulkRemoveDocs (batchFor i acc2.1))
        (bulkPut (bulkPutDocs (batchFor i acc2.1)) (dexieTable inst)) !! i ∧
    dexieDeletedTable inst' !! i
    = bulkDelete (bulkRemoveDeletedDocs (batchFor i acc2.1))
        (bulkPut (bulkPutDeletedDocs (batchFor i acc2.1))
           (dexieDeletedTable inst)) !! i ∧
    changes inst' = next bulk (changes inst) ∧
    eventsFor i (events bulk)
    = setEndTime (now env (length (pre ++ row :: post)%list))
        <$> batch_events (batchFor i acc2.1).
Proof.
  intros i Hother. rewrite bulkWrite_foldWrite, foldWrite_app.
  destruct (foldWrite _ _ pre _) as [|acc1] eqn:Hpre; [done|].
  simpl (foldWrite _ _ (row :: post) _). rewrite Nat.add_0_r.
  destruct (writeStep _ _ _ _) as [|acc2] eqn:Hstep; [done|].
  destruct (foldWrite _ _ post _) as [|[b ret']] eqn:Hpost; [done|].
  intros [= <- <-].
  apply (foldWrite_other _ _ _ _ _ i) in Hpre as (Hb1 & Hs1 & He1).
  2:{ intros r Hr. apply Hother. apply elem_of_app. by left. }
  apply (foldWrite_other _ _ _ _ _ i) in Hpost as (Hb2 & Hs2 & He2).
  2:{ intros r Hr. apply Hother. apply elem_of_app. by right. }
  simpl in Hb2, Hs2, He2.
  destruct (runBatch_lookup true b inst i) as [Hlive Hdel].
  eexists acc1, acc2, _. repeat split; try done.
  - unfold publish. cbn [dexieTable]. by rewrite Hlive, Hb2.
  - unfold publish. cbn [dexieDeletedTable]. by rewrite Hdel, Hb2.
  - simpl. rewrite eventsFor_setEndTime.
    change (eventsFor i (batch_events b)) with (batch_events (batchFor i b)).
    by rewrite Hb2.
Qed.

(** What the loop body left for the id of its row, once the state before
    is known to have held nothing for it. *)
Ltac batch_of_row Hb :=
  autorewrite with batchFor;
  cbn [primary assignWriteDoc setLastWriteAt insertedDoc documentId mkEvent];
  rewrite ?decide_True by done;
  rewrite ?Hb;
  cbn [bulkPutDocs bulkRemoveDocs bulkPutDeletedDocs bulkRemoveDeletedDocs
       changesIds batch_events emptyBatch push_bulkPutDocs
       push_bulkRemoveDocs push_bulkPutDeletedDocs
       push_bulkRemoveDeletedDocs push_changesIds push_events app
       bulkPut bulkDelete foldl fmap list_fmap].

(** *** Deleting a document *)

(** C3. A row that deletes a stored document — its [previous] is not
    deleted and carries the stored revision, its document is deleted —
    makes the loop body queue the tombstone for the deleted table and the
    id for removal from the live table, and push an event with operation
    DELETE, [doc = null] and a [previous] whose [_rev] is the revision just
    given to the tombstone. When the row is the only one of its batch with
    its id and [bulkWrite] returns, the tombstone with that revision is in
    the deleted table, the live table has lost the id, and that event is
    the one event of the published bulk for the id. *)
Theorem bulkWrite_delete_event env pre row post inst inDb prev :
  let i := primary (document row) in
  let newRevision :=
    (Js.num_to_string (Js.num_succ (getHeightOfRevision (_rev inDb)))
       ++ "-" ++ createRevision (document row))%string in
  findInDb inst i = Some inDb →
  previous row = Some prev →
  Js.truthy (_deleted prev) = false →
  _rev prev = _rev inDb →
  Js.truthy (_deleted (document row)) = true →
  (∀ t acc, ∃ tombstone ev,
     writeStep t (Some inDb) row acc
     = inr (push_events ev
              (push_bulkRemoveDocs i
                 (push_bulkPutDeletedDocs tombstone
                    (push_changesIds i acc.1))),
            setSuccess i (stripDexieKey tombstone) acc.2) ∧
     _deleted tombstone = Some true ∧ _rev tombstone = newRevision ∧
     documentId ev = i ∧
     operation (change ev) = DELETE ∧
     change_doc (change ev) = None ∧
     change_previous (change ev) = Some (setRev newRevision prev)) ∧
  (∀ inst' ret,
     (∀ r, r ∈ (pre ++ post)%list → primary (document r) ≠ i) →
     bulkWrite env (pre ++ row :: post) inst = (inst', inr ret) →
     ∃ tombstone ev bulk,
       dexieTable inst' !! i = None ∧
       dexieDeletedTable inst' !! i = Some tombstone ∧
       _deleted tombstone = Some true ∧ _rev tombstone = newRevision ∧
       success ret !! i = Some (stripDexieKey tombstone) ∧
       changes inst' = next bulk (changes inst) ∧
       eventsFor i (events bulk) = [ev] ∧
       operation (change ev) = DELETE ∧
       change_doc (change ev) = None ∧
       change_previous (change ev) = Some (setRev newRevision prev)).
Proof.
  intros i newRevision Hfind Hprev Hlive Hrev Hdel. split.
  - intros t acc. eexists _, _.
    split; [by apply (writeStep_delete _ _ _ prev)|]. done.
  - intros inst' ret Hother Hcall.
    destruct (bulkWrite_row_alone _ _ _ _ _ _ _ Hother Hcall)
      as (acc1 & acc2 & bulk & Hb & Hs & He & Hstep & Hret & _
          & Htable & Hdeleted & Hchanges & Hevents).
    fold i in Hfind, Hb, Hs, Hstep, Hret, Htable, Hdeleted, Hevents.
    rewrite Hfind, (writeStep_delete _ _ _ prev) in Hstep by done.
    injection Hstep as <-.
    revert Htable Hdeleted Hevents Hret. cbn [fst snd]. batch_of_row Hb.
    intros Htable Hdeleted Hevents Hret.
    eexists _, _, bulk. split; [by rewrite Htable, lookup_delete_eq|].
    split; [by rewrite Hdeleted, lookup_insert_eq|].
    split; [done|]. split; [done|].
    split; [by rewrite Hret; simpl; rewrite lookup_insert_eq|].
    split; [done|]. split; [exact Hevents|]. done.
Qed.

(** *** The revision of an accepted update *)

(** C4, amended. A row that meets a stored document whose revision has a
    height [h] below [2^53] and that passes the conflict test — its
    [previous] carries the stored revision, or is missing while the stored
    document is a tombstone — makes the loop body, unless it throws, queue
    for one of the two tables and report as written a document whose
    revision is [(h + 1) + "-" + createRevision(document)], of height
    [h + 1]. When the row is the only one of its batch with its id and
    [bulkWrite] returns, that document is the stored one afterwards. From
    [2^53] on the sum [h + 1] is rounded and the height need not grow. *)
Theorem bulkWrite_update_revision env pre row post inst inDb h :
  let i := primary (document row) in
  let newRevision :=
    (Js.num_to_string (Some (h + 1)%N) ++ "-"
       ++ createRevision (document row))%string in
  findInDb inst i = Some inDb →
  getHeightOfRevision (_rev inDb) = Some h →
  (h < 2 ^ 53)%N →
  (previous row = None ∧ Js.truthy (_deleted inDb) = true)
  ∨ (∃ prev, previous row = Some prev ∧ _rev prev = _rev inDb) →
  (∀ t acc acc',
     writeStep t (Some inDb) row acc = inr acc' →
     ∃ writeDoc,
       _rev writeDoc = newRevision ∧
       getHeightOfRevision (_rev writeDoc) = Some (h + 1)%N ∧
       ((bulkPutDocs acc'.1 = (bulkPutDocs acc.1 ++ [writeDoc])%list
         ∧ bulkPutDeletedDocs acc'.1 = bulkPutDeletedDocs acc.1)
        ∨ (bulkPutDeletedDocs acc'.1
           = (bulkPutDeletedDocs acc.1 ++ [writeDoc])%list
           ∧ bulkPutDocs acc'.1 = bulkPutDocs acc.1)) ∧
       success acc'.2 = <[i := stripDexieKey writeDoc]> (success acc.2) ∧
       error acc'.2 = error acc.2) ∧
  (∀ inst' ret,
     (∀ r, r ∈ (pre ++ post)%list → primary (document r) ≠ i) →
     bulkWrite env (pre ++ row :: post) inst = (inst', inr ret) →
     ∃ stored,
       findInDb inst' i = Some stored ∧
       _rev stored = newRevision ∧
       getHeightOfRevision (_rev stored) = Some (h + 1)%N ∧
       success ret !! i = Some (stripDexieKey stored) ∧
       error ret !! i = None).
Proof.
  intros i newRevision Hfind Hh Hsafe Haccepted.
  destruct (accepted_previous _ _ Haccepted) as (prev & Hprev & Hrev).
  destruct (nextRevision_height (_rev inDb) (document row) h Hh Hsafe)
    as [Hnext Hheight].
  split.
  - intros t acc acc' Hstep. simpl in Hstep.
    rewrite (updateExisting_accepted _ _ _ prev) in Hstep by done.
    cbv zeta in Hstep.
    destruct (categorize _ _ _ _ _) as [b [c|]] eqn:Hcat; [|done].
    injection Hstep as <-.
    apply categorize_queues in Hcat as (_ & _ & _ & Hput).
    eexists. split; [|split; [|split; [|split]]].
    4: reflexivity.
    + exact Hnext.
    + simpl. exact Hheight.
    + exact Hput.
    + done.
  - intros inst' ret Hother Hcall.
    destruct (bulkWrite_row_alone _ _ _ _ _ _ _ Hother Hcall)
      as (acc1 & acc2 & bulk & Hb & Hs & He & Hstep & Hret & Herr
          & Htable & Hdeleted & _ & _).
    fold i in Hfind, Hb, Hs, He, Hstep, Hret, Herr, Htable, Hdeleted.
    rewrite Hfind in Hstep. simpl in Hstep.
    rewrite (updateExisting_accepted _ _ _ prev) in Hstep by done.
    cbv zeta in Hstep. fold i in Hstep. unfold categorize in Hstep.
    set (writeDoc := assignWriteDoc (document row) _ _ _) in Hstep.
    exists writeDoc. unfold findInDb.
    assert (_rev writeDoc = newRevision) as Hr by exact Hnext.
    assert (getHeightOfRevision (_rev writeDoc) = Some (h + 1)%N) as Hg
      by exact Hheight.
    destruct (Js.truthy (_deleted prev)),
      (Js.truthy (_deleted writeDoc)); simpl in Hstep; try done;
      injection Hstep as <-;
      revert Htable Hdeleted Hret Herr; cbn [fst snd]; batch_of_row Hb;
      intros Htable Hdeleted Hret Herr;
      rewrite Htable, ?Hdeleted, ?lookup_delete_eq, ?lookup_insert_eq;
      (split; [done|]); (split; [done|]); (split; [done|]);
      rewrite Hret, Herr; simpl; by rewrite lookup_insert_eq.
Qed.

(** *** Writing over a tombstone without [previous] *)

(** C7, amended. A row whose id is stored as a tombstone of a height below
    [2^53], whose [previous] is missing and whose document is not deleted
    is processed as an update of the tombstone: the loop body does not
    refuse it, gives the document a revision of the tombstone's height
    plus one, queues it for the live table and its id for removal from the
    deleted table, and pushes an INSERT event with [previous = null]. When
    the row is the only one of its batch with its id and [bulkWrite]
    returns, the document is in the live table, the deleted table has lost
    the id, and on a change stream that is not completed the bulk with
    the event is the one emitted. *)
Theorem bulkWrite_resurrect env pre row post inst inDb h :
  let i := primary (document row) in
  findInDb inst i = Some inDb →
  Js.truthy (_deleted inDb) = true →
  previous row = None →
  Js.truthy (_deleted (document row)) = false →
  getHeightOfRevision (_rev inDb) = Some h →
  (h < 2 ^ 53)%N →
  (∀ t acc, ∃ writeDoc ev,
     writeStep t (Some inDb) row acc
     = inr (push_events ev
              (push_bulkRemoveDeletedDocs i
                 (push_bulkPutDocs writeDoc (push_changesIds i acc.1))),
            setSuccess i (stripDexieKey writeDoc) acc.2) ∧
     getHeightOfRevision (_rev writeDoc) = Some (h + 1)%N ∧
     _deleted writeDoc = Some false ∧
     documentId ev = i ∧
     operation (change ev) = INSERT ∧
     change_previous (change ev) = None ∧
     change_doc (change ev) = Some (stripDexieKey writeDoc)) ∧
  (∀ inst' ret,
     (∀ r, r ∈ (pre ++ post)%list → primary (document r) ≠ i) →
     bulkWrite env (pre ++ row :: post) inst = (inst', inr ret) →
     ∃ writeDoc ev bulk,
       dexieTable inst' !! i = Some writeDoc ∧
       dexieDeletedTable inst' !! i = None ∧
       getHeightOfRevision (_rev writeDoc) = Some (h + 1)%N ∧
       _deleted writeDoc = Some false ∧
       success ret !! i = Some (stripDexieKey writeDoc) ∧
       error ret !! i = None ∧
       changes inst' = next bulk (changes inst) ∧
       (completed (changes inst) = false →
        emitted (changes inst') = (emitted (changes inst) ++ [bulk])%list) ∧
       eventsFor i (events bulk) = [ev] ∧
       operation (change ev) = INSERT ∧
       change_previous (change ev) = None ∧
       change_doc (change ev) = Some (stripDexieKey writeDoc)).
Proof.
  intros i Hfind Hdel Hnone Hlive Hh Hsafe.
  destruct (nextRevision_height (_rev inDb) (document row) h Hh Hsafe)
    as [_ Hheight].
  split.
  - intros t acc. eexists _, _.
    split; [by apply writeStep_resurrect|]. done.
  - intros inst' ret Hother Hcall.
    destruct (bulkWrite_row_alone _ _ _ _ _ _ _ Hother Hcall)
      as (acc1 & acc2 & bulk & Hb & Hs & He & Hstep & Hret & Herr
          & Htable & Hdeleted & Hchanges & Hevents).
    fold i in Hfind, Hb, Hs, He, Hstep, Hret, Herr, Htable, Hdeleted, Hevents.
    rewrite Hfind, writeStep_resurrect in Hstep by done.
    injection Hstep as <-.
    revert Htable Hdeleted Hevents Hret Herr. cbn [fst snd]. batch_of_row Hb.
    intros Htable Hdeleted Hevents Hret Herr.
    eexists _, _, bulk. split; [by rewrite Htable, lookup_insert_eq|].
    split; [by rewrite Hdeleted, lookup_delete_eq|].
    split; [exact Hheight|]. split; [done|].
    split; [by rewrite Hret; simpl; rewrite lookup_insert_eq|].
    split; [by rewrite Herr|].
    split; [done|].
    split; [intros Hopen; rewrite Hchanges; unfold next; by rewrite Hopen|].
    split; [exact Hevents|]. done.
Qed.

(** *** Rows whose id is not stored *)

Lemma writeStep_absent t row acc :
  let i := primary (document row) in
  writeStep t None row acc = inr (insertNew t row acc) ∧
  success (insertNew t row acc).2 = <[i := insertedDoc row]> (success acc.2) ∧
  error (insertNew t row acc).2 = error acc.2 ∧
  change <$> eventsFor i (batch_events (insertNew t row acc).1)
  = ((change <$> eventsFor i (batch_events acc.1))
     ++ if Js.truthy (_deleted (document row)) then []
        else [ {| change_id := i; operation := INSERT;
                  change_previous := None;
                  change_doc := Some (insertedDoc row) |} ])%list.
Proof.
  intros i. split; [done|]. split; [done|]. split; [done|].
  unfold insertNew. fold i.
  destruct (Js.truthy (_deleted (document row))); simpl.
  - by rewrite app_nil_r.
  - unfold eventsFor. rewrite filter_app, fmap_app.
    by rewrite filter_cons_True.
Qed.

Lemma foldWrite_absent f find (rows : list (BulkWriteRow RxDocType))
    acc acc' i :
  find i = None →
  foldWrite f find rows acc = inr acc' →
  let mine := filter (λ r, primary (document r) = i) rows in
  change <$> eventsFor i (batch_events acc'.1)
  = ((change <$> eventsFor i (batch_events acc.1))
     ++ ((λ r, {| change_id := i; operation := INSERT;
                  change_previous := None;
                  change_doc := Some (insertedDoc r) |})
         <$> filter (λ r, Js.truthy (_deleted (document r)) = false) mine))%list ∧
  success acc'.2 !! i
  = match last mine with
    | Some r => Some (insertedDoc r)
    | None => success acc.2 !! i
    end ∧
  error acc'.2 !! i = error acc.2 !! i.
Proof.
  intros Hfind. revert f acc.
  induction rows as [|r rest IH]; intros f acc; simpl.
  - intros [= <-]. by rewrite app_nil_r.
  - destruct (writeStep _ _ _ _) as [|acc1] eqn:Hstep; [done|].
    intros Hrest. specialize (IH _ _ Hrest) as (Hev & Hsucc & Herr).
    destruct (decide (primary (document r) = i)) as [Hi|Hne].
    + rewrite filter_cons_True by done.
      rewrite Hi, Hfind in Hstep.
      destruct (writeStep_absent (f 0%nat) r acc) as (Hr & Hs & He & Hevr).
      rewrite Hr in Hstep. injection Hstep as <-.
      rewrite Hi in Hs, Hevr.
      rewrite Hev, Hevr, Hsucc, Herr, He, Hs, <- app_assoc.
      split; [|split; [|done]].
      * f_equal. destruct (Js.truthy (_deleted (document r))) eqn:Hd.
        -- by rewrite filter_cons_False by (rewrite Hd; done).
        -- by rewrite filter_cons_True by done.
      * rewrite last_cons. destruct (last _); [done|].
        by rewrite lookup_insert_eq.
    + rewrite filter_cons_False by done.
      apply (writeStep_other _ _ _ _ _ i) in Hstep as (Hb & Hs & He);
        [|done].
      rewrite Hev, Hsucc, Herr, Hs, He.
      change (eventsFor i (batch_events acc1.1))
        with (batch_events (batchFor i acc1.1)).
      by rewrite Hb.
Qed.

(** C10. When the id [i] is not stored and [bulkWrite] returns, every row
    of the batch that carries [i] — however many there are — went through
    the insert branch against the state read at the start: its document
    got a revision ["1-" + hash] of height 1, none of them was refused,
    the success map holds under [i] the document of the last such row, and
    the published bulk holds for [i] exactly one INSERT event, with
    [previous = null], per such row whose document is not deleted, in the
    order of the rows. *)
Theorem bulkWrite_duplicate_inserts env
    (rows : list (BulkWriteRow RxDocType)) inst inst' ret i :
  findInDb inst i = None →
  bulkWrite env rows inst = (inst', inr ret) →
  let mine := filter (λ r, primary (document r) = i) rows in
  (∀ r, r ∈ mine →
        _rev (insertedDoc r) = ("1-" ++ createRevision (document r))%string
        ∧ getHeightOfRevision (_rev (insertedDoc r)) = Some 1%N) ∧
  error ret !! i = None ∧
  success ret !! i = insertedDoc <$> last mine ∧
  ∃ bulk,
    changes inst' = next bulk (changes inst) ∧
    change <$> eventsFor i (events bulk)
    = (λ r, {| change_id := i; operation := INSERT;
               change_previous := None;
               change_doc := Some (insertedDoc r) |})
      <$> filter (λ r, Js.truthy (_deleted (document r)) = false) mine.
Proof.
  intros Hfind Hcall mine. rewrite bulkWrite_foldWrite in Hcall.
  destruct (foldWrite _ _ _ _) as [|[b ret']] eqn:Hfold; [done|].
  injection Hcall as <- <-.
  apply (foldWrite_absent _ _ _ _ _ i Hfind) in Hfold as (Hev & Hs & He).
  fold mine in Hev, Hs. simpl in Hev, Hs, He.
  split; [|split; [done|split]].
  - intros r _. split; [done|]. apply getHeightOfRevision_first.
  - rewrite Hs. by destruct (last mine).
  - eexists. split; [reflexivity|]. simpl.
    rewrite eventsFor_setEndTime, <- list_fmap_compose.
    rewrite <- Hev. by apply list_fmap_ext.
Qed.

(** ** Properties of bulkAddRevisions *)

Implicit Types (E D : RxDocumentData RxDocType).

(** Two tombstones: whatever the revisions, the loop body queues nothing. *)
Lemma revisionStep_tombstones t E D (b : Batch RxDocType) :
  Js.truthy (_deleted E) = true →
  Js.truthy (_deleted D) = true →
  revisionStep t (Some E) D b = b.
Proof.
  intros HE HD. unfold revisionStep, categorizeRevision.
  rewrite HE, HD. simpl. by destruct (mustUpdate _ _).
Qed.



Lemma bulkAddRevisions_one env D inst :
  bulkAddRevisions env [D] inst
  = let b := revisionStep (now env 0%nat) (findInDb inst (primary D)) D
               emptyBatch in
    publish {| bulk_id := randomCouchString env;
               events := setEndTime (now env 1%nat) <$> batch_events b |}
      (runBatch false b inst).
Proof. done. Qed.

Lemma findInDb_publish_runBatch bulk guard (b : Batch RxDocType) inst i :
  findInDb (publish bulk (runBatch guard b inst)) i
  = match bulkDelete (bulkRemoveDocs (batchFor i b))
            (bulkPut (bulkPutDocs (batchFor i b)) (dexieTable inst)) !! i with
    | Some d => Some d
    | None =>
        bulkDelete (bulkRemoveDeletedDocs (batchFor i b))
          (bulkPut (bulkPutDeletedDocs (batchFor i b))
             (dexieDeletedTable inst)) !! i
    end.
Proof.
  destruct (runBatch_lookup guard b inst i) as [Hlive Hdel].
  unfold findInDb, publish. cbn [dexieTable dexieDeletedTable].
  by rewrite Hlive, Hdel.
Qed.

Lemma docsFor_one D : docsFor (primary D) [D] = [D].
Proof. unfold docsFor. by rewrite filter_cons_True. Qed.

Lemma idsFor_one (i : string) : idsFor i [i] = [i].
Proof. unfold idsFor. by rewrite filter_cons_True. Qed.



(** Two tombstones in a call of their own: the tables stay as they were,
    whatever the revisions, and the published bulk has no event. *)
Lemma bulkAddRevisions_two_tombstones env E D inst :
  findInDb inst (primary D) = Some E →
  Js.truthy (_deleted E) = true →
  Js.truthy (_deleted D) = true →
  let inst' := bulkAddRevisions env [D] inst in
  dexieTable inst' = dexieTable inst ∧
  dexieDeletedTable inst' = dexieDeletedTable inst ∧
  dexieChangesTable inst' = dexieChangesTable inst ∧
  changes inst'
  = next {| bulk_id := randomCouchString env; events := [] |} (changes inst).
Proof.
  intros Hfind HE HD. cbv zeta. rewrite bulkAddRevisions_one. cbv zeta.
  rewrite Hfind, revisionStep_tombstones by done. done.
Qed.

(** C2, amended. Every call of [bulkAddRevisions] on an instance whose
    change stream is not completed publishes exactly one bulk, which holds
    the events of the call — also when there are none. *)
Theorem bulkAddRevisions_always_publishes env
    (documents : list (RxDocumentData RxDocType)) inst :
  completed (changes inst) = false →
  ∃ bulk,
    emitted (changes (bulkAddRevisions env documents inst))
    = (emitted (changes inst) ++ [bulk])%list ∧
    bulk_id bulk = randomCouchString env ∧
    events bulk
    = setEndTime (now env (length documents))
        <$> batch_events
              (forEachRevision env
                 (getDocsInDb inst (primary <$> documents)) 0 documents
                 emptyBatch).
Proof.
  intros Hopen. eexists. unfold bulkAddRevisions, publish, next.
  cbn [changes runBatch]. rewrite Hopen. cbn [emitted].
  split; [reflexivity|]. done.
Qed.

(** ** Properties of getChangedDocuments *)

#[local] Instance sequence_le_total : Total sequence_le.
Proof. intros a b. unfold sequence_le. lia. Qed.

#[local] Instance sequence_le_trans : Transitive sequence_le.
Proof. intros a b c. unfold sequence_le. lia. Qed.

#[local] Instance sequence_ge_total : Total sequence_ge.
Proof. intros a b. unfold sequence_ge. lia. Qed.

#[local] Instance sequence_ge_trans : Transitive sequence_ge.
Proof. intros a b c. unfold sequence_ge. lia. Qed.

Lemma StronglySorted_filter {A} (R : relation A) (P : A → Prop)
    `{∀ x, Decision (P x)} (l : list A) :
  StronglySorted R l → StronglySorted R (filter P l).
Proof.
  induction 1 as [|x l Hl IH Hx]; [constructor|].
  destruct (decide (P x)).
  - rewrite filter_cons_True by done. constructor; [done|].
    apply Forall_forall. intros y Hy%list_elem_of_filter.
    rewrite Forall_forall in Hx. apply Hx, Hy.
  - by rewrite filter_cons_False.
Qed.

Lemma above_range x (rows : list RxStorageChangedDocumentMeta) :
  above x rows ≡ₚ filter (inRange after x) rows
  ∧ StronglySorted sequence_le (above x rows).
Proof.
  unfold above, bySequence. split.
  - by rewrite merge_sort_Permutation.
  - apply StronglySorted_filter, StronglySorted_merge_sort; apply _.
Qed.

Lemma below_reverse_range x (rows : list RxStorageChangedDocumentMeta) :
  reverse (below x rows) ≡ₚ filter (inRange before x) rows
  ∧ StronglySorted sequence_ge (reverse (below x rows)).
Proof.
  unfold below, bySequence. split.
  - by rewrite reverse_Permutation, merge_sort_Permutation.
  - apply Sorted_StronglySorted; [apply _|].
    apply (Sorted_reverse sequence_le), StronglySorted_Sorted.
    apply StronglySorted_filter, StronglySorted_merge_sort; apply _.
Qed.

Lemma simplesort_range desc gt x
    (rows : list RxStorageChangedDocumentMeta) :
  simplesort desc (lokiFind gt x rows)
  ≡ₚ filter (inRange (if gt then after else before) x) rows
  ∧ StronglySorted (if desc then sequence_ge else sequence_le)
      (simplesort desc (lokiFind gt x rows)).
Proof.
  unfold simplesort, lokiFind. split.
  - destruct desc, gt; by rewrite merge_sort_Permutation.
  - destruct desc; apply StronglySorted_merge_sort; apply _.
Qed.

Lemma last_default {A} (l : list A) (x d : A) :
  last (x :: l) = Some (List.last (x :: l) d).
Proof.
  revert x. induction l as [|y l IH]; intros x; [done|].
  rewrite last_cons_cons, (IH y). done.
Qed.

(** C8, amended. [getChangedDocuments], of the Dexie and of the LokiJS
    instance alike, lists the entries of the changes table whose sequence
    is greater than [sinceSequence] in ascending order for the direction
    "after", those whose sequence is smaller in descending order for the
    direction "before", cut to the first [limit] of them when a limit
    other than 0 is given and uncut when the limit is 0 or missing;
    [lastSequence] is [sinceSequence] when the list is empty, else the
    sequence of its last element for "after" and of its first element for
    "before". *)
Theorem getChangedDocuments_range (options : ChangeStreamOnceOptions) :
  let since := sinceSequence options in
  let d := direction options in
  let describes (rows : list RxStorageChangedDocumentMeta)
        (res : ChangedDocuments) : Prop :=
    ∃ full,
      full ≡ₚ filter (inRange d since) rows ∧
      StronglySorted (listedOrder d) full ∧
      changedDocuments res
      = match limit options with
        | Some n => if decide (n = 0%N) then full else take (N.to_nat n) full
        | None => full
        end ∧
      (changedDocuments res = [] → lastSequence res = since) ∧
      (∀ m, d = after → last (changedDocuments res) = Some m →
            lastSequence res = sequence m) ∧
      (∀ m, d = before → head (changedDocuments res) = Some m →
            lastSequence res = sequence m) in
  (∀ inst : Instance RxDocType,
     describes (dexieChangesTable inst) (getChangedDocuments options inst)) ∧
  (∀ changesCollection,
     describes changesCollection
       (lokiGetChangedDocuments options changesCollection)).
Proof.
  intros since d describes. split.
  - intros inst. unfold describes, getChangedDocuments. fold d since.
    set (rows := dexieChangesTable inst).
    exists (match d with
            | before => reverse (below since rows)
            | after => above since rows
            end).
    split; [|split; [|split; [|split; [|split]]]].
    + destruct d; [apply below_reverse_range|apply above_range].
    + destruct d; [apply below_reverse_range|apply above_range].
    + cbn [changedDocuments]. unfold applyLimit.
      destruct (limit options) as [n|]; [|done].
      destruct (N.eqb_spec n 0); by case_decide.
    + cbn [changedDocuments lastSequence]. by intros ->.
    + cbn [changedDocuments lastSequence]. intros m -> Hm.
      destruct (applyLimit _ _) as [|first rest]; [done|].
      rewrite (last_default _ _ first) in Hm. by injection Hm as <-.
    + cbn [changedDocuments lastSequence]. intros m -> Hm.
      destruct (applyLimit _ _) as [|first rest]; [done|].
      by injection Hm as <-.
  - intros rows. unfold describes, lokiGetChangedDocuments. fold d since.
    exists (simplesort (Direction_eqb d before)
              (lokiFind (Direction_eqb d after) since rows)).
    split; [|split; [|split; [|split; [|split]]]].
    + destruct d;
        [exact (proj1 (simplesort_range true false since rows))
        |exact (proj1 (simplesort_range false true since rows))].
    + destruct d;
        [exact (proj2 (simplesort_range true false since rows))
        |exact (proj2 (simplesort_range false true since rows))].
    + cbn [changedDocuments]. unfold applyLimit.
      destruct (limit options) as [n|]; [|done].
      destruct (N.eqb_spec n 0); by case_decide.
    + cbn [changedDocuments lastSequence]. intros ->. by destruct d.
    + cbn [changedDocuments lastSequence]. by intros m -> ->.
    + cbn [changedDocuments lastSequence]. by intros m -> ->.
Qed.

(** ** More about bulkWrite: what it returns, appends and publishes *)

(** What the loop body does with a row is decided by the document stored
    for its id at the start: it throws when the row falls through the
    chain, refuses it with status 409 when the conflict test fires, and
    otherwise reports one document and queues one changes row. *)
Lemma writeStep_fate t inst row acc :
  let i := primary (document row) in
  match writeStep t (findInDb inst i) row acc with
  | inl e =>
      fallsThrough inst row = true ∧
      ∃ inDb, findInDb inst i = Some inDb ∧ e = SNH (adoptPrevious inDb row)
  | inr acc' =>
      fallsThrough inst row = false ∧
      changesIds acc'.1
      = (changesIds acc.1 ++ if isRefused inst row then [] else [i])%list ∧
      documentId <$> batch_events acc'.1
      = ((documentId <$> batch_events acc.1)
         ++ if pushesEvent inst row then [i] else [])%list ∧
      if isRefused inst row
      then success acc'.2 = success acc.2 ∧
           ∃ e, error acc'.2 = <[i := e]> (error acc.2) ∧
                status e = 409%N ∧ isError e = true ∧
                error_documentId e = i ∧ error_writeRow e = row
      else error acc'.2 = error acc.2 ∧
           ∃ d, success acc'.2 = <[i := d]> (success acc.2) ∧ primary d = i
  end.
Proof.
  intros i. unfold fallsThrough, pushesEvent, isRefused. fold i.
  destruct (findInDb inst i) as [inDb|] eqn:Hfind; simpl.
  - unfold updateExisting. fold i.
    destruct (isConflict _ _ _) eqn:Hconflict; simpl.
    + rewrite !app_nil_r. repeat split; try done.
      eexists. repeat split; try done. simpl.
      revert Hconflict. unfold adoptPrevious.
      destruct (previous row) eqn:Hp; simpl; [done|].
      destruct (Js.truthy (_deleted inDb)) eqn:Hd; simpl; [|done].
      unfold isConflict. simpl. by rewrite String.eqb_refl.
    + destruct (isConflict_false _ _ Hconflict) as (prev & Hprev & Hrev).
      assert (document (adoptPrevious inDb row) = document row) as Hdoc.
      { unfold adoptPrevious. by destruct (_ && _). }
      rewrite Hprev, Hdoc. unfold categorize. cbn [assignWriteDoc _deleted].
      cbn [Js.truthy].
      destruct (Js.truthy (_deleted prev)),
        (Js.truthy (_deleted (document row))); simpl;
        repeat split; eauto; try (by rewrite fmap_app).
  - unfold insertNew. fold i.
    destruct (Js.truthy (_deleted (document row))); simpl;
      rewrite ?app_nil_r, ?fmap_app; repeat split; eauto.
Qed.

Lemma foldWrite_fate f inst (rows : list (BulkWriteRow RxDocType)) acc :
  match foldWrite f (findInDb inst) rows acc with
  | inl e =>
      ∃ pre row post inDb,
        rows = (pre ++ row :: post)%list ∧
        (∀ r, r ∈ pre → fallsThrough inst r = false) ∧
        fallsThrough inst row = true ∧
        findInDb inst (primary (document row)) = Some inDb ∧
        e = SNH (adoptPrevious inDb row)
  | inr acc' =>
      (∀ r, r ∈ rows → fallsThrough inst r = false) ∧
      changesIds acc'.1
      = (changesIds acc.1
         ++ ((λ r, primary (document r))
             <$> filter (λ r, isRefused inst r = false) rows))%list ∧
      documentId <$> batch_events acc'.1
      = ((documentId <$> batch_events acc.1)
         ++ ((λ r, primary (document r))
             <$> filter (λ r, pushesEvent inst r = true) rows))%list
  end.
Proof.
  revert f acc. induction rows as [|row rest IH]; intros f acc; simpl.
  - rewrite !app_nil_r. split; [|done]. intros r Hr. inversion Hr.
  - pose proof (writeStep_fate (f 0%nat) inst row acc) as Hstep.
    cbv zeta in Hstep.
    destruct (writeStep _ _ _ _) as [e|acc1].
    + destruct Hstep as (Hfall & inDb & Hfind & ->).
      exists [], row, rest, inDb. repeat split; try done.
      intros r Hr. inversion Hr.
    + destruct Hstep as (Hfall & Hids & Hevs & _).
      specialize (IH (λ j, f (S j)) acc1).
      destruct (foldWrite _ _ rest acc1) as [e|acc'].
      * destruct IH as (pre & r & post & inDb & -> & Hpre & Hr & Hfind & ->).
        exists (row :: pre), r, post, inDb. repeat split; try done.
        intros r' [->|Hr']%elem_of_cons; [done|by apply Hpre].
      * destruct IH as (Hall & Hids' & Hevs'). split; [|split].
        -- intros r [->|Hr]%elem_of_cons; [done|by apply Hall].
        -- rewrite Hids', Hids, <- app_assoc. f_equal.
           destruct (isRefused inst row) eqn:Href.
           ++ by rewrite filter_cons_False by (rewrite Href; done).
           ++ by rewrite filter_cons_True by done.
        -- rewrite Hevs', Hevs, <- app_assoc. f_equal.
           destruct (pushesEvent inst row) eqn:Hpush.
           ++ by rewrite filter_cons_True by done.
           ++ by rewrite filter_cons_False by (rewrite Hpush; done).
Qed.

Lemma bulkPutChanges_newChanges (ids : list string)
    (rows : list RxStorageChangedDocumentMeta) (k : N) :
  bulkPutChanges ids rows k
  = ((rows ++ newChanges k ids)%list, (k + N.of_nat (length ids))%N).
Proof.
  revert rows k. induction ids as [|id rest IH]; intros rows k; simpl.
  - by rewrite app_nil_r, N.add_0_r.
  - rewrite IH, <- app_assoc. f_equal; [|lia]. f_equal.
    unfold newChanges. simpl. f_equal; [f_equal; lia|].
    apply imap_ext. intros j x _. simpl. f_equal. lia.
Qed.

Lemma runBatch_changes guard (b : Batch RxDocType) inst :
  dexieChangesTable (runBatch guard b inst)
  = (dexieChangesTable inst
     ++ newChanges (autoIncrement inst) (changesIds b))%list ∧
  autoIncrement (runBatch guard b inst)
  = (autoIncrement inst + N.of_nat (length (changesIds b)))%N.
Proof.
  assert ((if guard
           then ifNonEmpty (changesIds b) addChangeDocumentsMeta
                  (dexieChangesTable inst, autoIncrement inst)
           else addChangeDocumentsMeta (changesIds b)
                  (dexieChangesTable inst, autoIncrement inst))
          = bulkPutChanges (changesIds b) (dexieChangesTable inst)
              (autoIncrement inst)) as Heq.
  { by destruct guard, (changesIds b). }
  unfold runBatch. cbn [dexieChangesTable autoIncrement].
  by rewrite Heq, bulkPutChanges_newChanges.
Qed.

(** X1. When [bulkWrite] returns, the changes table has grown by exactly
    one row per row of the batch that was not refused with status 409, in
    the order of the batch and with the keys that follow the last
    generated one without a gap; nothing else in the table has changed. *)
Theorem bulkWrite_appends_changes env
    (rows : list (BulkWriteRow RxDocType)) inst inst' ret :
  bulkWrite env rows inst = (inst', inr ret) →
  let accepted := filter (λ r, isRefused inst r = false) rows in
  dexieChangesTable inst'
  = (dexieChangesTable inst
     ++ newChanges (autoIncrement inst)
          ((λ r, primary (document r)) <$> accepted))%list ∧
  autoIncrement inst'
  = (autoIncrement inst + N.of_nat (length accepted))%N.
Proof.
  intros Hcall accepted. rewrite bulkWrite_foldWrite in Hcall.
  pose proof (foldWrite_fate (now env) inst rows (emptyBatch, emptyResponse))
    as Hfate.
  destruct (foldWrite _ _ _ _) as [|[b ret']]; [done|].
  injection Hcall as <- <-. destruct Hfate as (_ & Hids & _).
  simpl in Hids. fold accepted in Hids.
  destruct (runBatch_changes true b inst) as [Htable Hkey].
  unfold publish. cbn [dexieChangesTable autoIncrement].
  by rewrite Htable, Hkey, Hids, length_fmap.
Qed.

(** X2. When [bulkWrite] returns on an instance whose change stream is not
    completed, the stream has emitted exactly one more bulk; it holds one
    event per row that was neither refused nor the insert of a deleted
    document, in the order of the rows, each under the id of its row;
    every event ends at the one reading of the clock taken after the
    transaction. *)
Theorem bulkWrite_events_in_order env
    (rows : list (BulkWriteRow RxDocType)) inst inst' ret :
  completed (changes inst) = false →
  bulkWrite env rows inst = (inst', inr ret) →
  ∃ bulk,
    emitted (changes inst') = (emitted (changes inst) ++ [bulk])%list ∧
    completed (changes inst') = false ∧
    bulk_id bulk = randomCouchString env ∧
    documentId <$> events bulk
    = (λ r, primary (document r))
      <$> filter (λ r, pushesEvent inst r = true) rows ∧
    Forall (λ e, endTime e = now env (length rows)) (events bulk).
Proof.
  intros Hopen Hcall. rewrite bulkWrite_foldWrite in Hcall.
  pose proof (foldWrite_fate (now env) inst rows (emptyBatch, emptyResponse))
    as Hfate.
  destruct (foldWrite _ _ _ _) as [|[b ret']]; [done|].
  injection Hcall as <- <-. destruct Hfate as (_ & _ & Hevs).
  simpl in Hevs. eexists.
  unfold publish, next. cbn [changes runBatch]. rewrite Hopen.
  cbn [emitted completed].
  split; [reflexivity|]. split; [done|]. split; [done|].
  cbn [events]. split.
  - rewrite <- Hevs, <- list_fmap_compose. by apply list_fmap_ext.
  - apply Forall_fmap, Forall_true. done.
Qed.

(** X3. [bulkWrite] throws exactly when some row, met with the document
    stored for its id at the start, passes the conflict test with a
    deleted [previous] and a deleted document; the error names the first
    such row, and then no table has changed and nothing was published. *)
Theorem bulkWrite_throws_iff env (rows : list (BulkWriteRow RxDocType)) inst :
  match bulkWrite env rows inst with
  | (inst', inl e) =>
      inst' = inst ∧
      ∃ pre row post inDb,
        rows = (pre ++ row :: post)%list ∧
        (∀ r, r ∈ pre → fallsThrough inst r = false) ∧
        fallsThrough inst row = true ∧
        findInDb inst (primary (document row)) = Some inDb ∧
        e = SNH (adoptPrevious inDb row)
  | (_, inr _) => ∀ r, r ∈ rows → fallsThrough inst r = false
  end.
Proof.
  rewrite bulkWrite_foldWrite.
  pose proof (foldWrite_fate (now env) inst rows (emptyBatch, emptyResponse))
    as Hfate.
  destruct (foldWrite _ _ _ _) as [e|[b ret']].
  - split; [done|exact Hfate].
  - by destruct Hfate.
Qed.

(** The two maps only gain entries, and each entry is the answer to a row
    of the batch. *)
Lemma foldWrite_answers f inst (rows : list (BulkWriteRow RxDocType))
    (known : BulkWriteRow RxDocType → Prop) acc acc' :
  let answered (a : Batch RxDocType * RxStorageBulkWriteResponse RxDocType) :=
    (∀ i d, success a.2 !! i = Some d →
            primary d = i ∧
            ∃ r, known r ∧ primary (document r) = i
                 ∧ isRefused inst r = false) ∧
    (∀ i e, error a.2 !! i = Some e →
            status e = 409%N ∧ isError e = true ∧ error_documentId e = i ∧
            known (error_writeRow e) ∧
            primary (document (error_writeRow e)) = i ∧
            isRefused inst (error_writeRow e) = true) in
  (∀ r, r ∈ rows → known r) →
  foldWrite f (findInDb inst) rows acc = inr acc' →
  answered acc →
  answered acc' ∧
  (∀ i, is_Some (success acc.2 !! i) → is_Some (success acc'.2 !! i)) ∧
  (∀ i, is_Some (error acc.2 !! i) → is_Some (error acc'.2 !! i)) ∧
  (∀ r, r ∈ rows →
        if isRefused inst r
        then is_Some (error acc'.2 !! primary (document r))
        else is_Some (success acc'.2 !! primary (document r))).
Proof.
  intros answered. revert f acc.
  induction rows as [|row rest IH]; intros f acc Hknown; simpl.
  - intros Heq Hacc. injection Heq as <-.
    split; [exact Hacc|]. split; [done|]. split; [done|].
    intros r Hr. inversion Hr.
  - pose proof (writeStep_fate (f 0%nat) inst row acc) as Hstep.
    cbv zeta in Hstep.
    destruct (writeStep _ _ _ _) as [e|acc1]; [done|].
    destruct Hstep as (_ & _ & _ & Hmaps).
    intros Hrest [Hsucc Herr].
    assert (known row) as Hrow by (apply Hknown; left).
    assert (answered acc1
            ∧ (∀ i, is_Some (success acc.2 !! i)
                    → is_Some (success acc1.2 !! i))
            ∧ (∀ i, is_Some (error acc.2 !! i) → is_Some (error acc1.2 !! i))
            ∧ (if isRefused inst row
               then is_Some (error acc1.2 !! primary (document row))
               else is_Some (success acc1.2 !! primary (document row))))
      as (Hacc1 & Hs1 & He1 & Hrow1).
    { unfold answered. destruct (isRefused inst row) eqn:Href.
      - destruct Hmaps as (Hs & e & He & H409 & Hise & Hid & Hwr).
        rewrite Hs, He. split; [split|split; [|split]].
        + exact Hsucc.
        + intros i e' [[<- <-]|[Hne Hold]]%lookup_insert_Some;
            [by rewrite Hwr|by apply Herr].
        + done.
        + intros i Hi. destruct (decide (primary (document row) = i)) as [<-|].
          * by rewrite lookup_insert_eq.
          * by rewrite lookup_insert_ne.
        + by rewrite lookup_insert_eq.
      - destruct Hmaps as (He & d & Hs & Hd).
        rewrite Hs, He. split; [split|split; [|split]].
        + intros i d' [[<- <-]|[Hne Hold]]%lookup_insert_Some.
          * split; [done|]. by exists row.
          * by apply Hsucc.
        + exact Herr.
        + intros i Hi. destruct (decide (primary (document row) = i)) as [<-|].
          * by rewrite lookup_insert_eq.
          * by rewrite lookup_insert_ne.
        + done.
        + by rewrite lookup_insert_eq. }
    destruct (IH _ _ (λ r Hr, Hknown r (list_elem_of_further _ _ _ Hr))
                Hrest Hacc1) as (Hacc' & Hs' & He' & Hrows').
    split; [exact Hacc'|]. split; [auto|]. split; [auto|].
    intros r [->|Hr]%elem_of_cons; [|by apply Hrows'].
    destruct (isRefused inst row); auto.
Qed.

(** X4. When [bulkWrite] returns, every row of the batch is answered
    under its id: a refused row by an entry of the error map, any other
    row by an entry of the success map. Every entry of the error map has
    status 409 and carries a refused row of the batch with that id; every
    entry of the success map is a document with that primary key, written
    for a row of the batch that was not refused. *)
Theorem bulkWrite_answers_every_row env
    (rows : list (BulkWriteRow RxDocType)) inst inst' ret :
  bulkWrite env rows inst = (inst', inr ret) →
  (∀ r, r ∈ rows →
        if isRefused inst r
        then is_Some (error ret !! primary (document r))
        else is_Some (success ret !! primary (document r))) ∧
  (∀ i d, success ret !! i = Some d →
          primary d = i ∧
          ∃ r, r ∈ rows ∧ primary (document r) = i
               ∧ isRefused inst r = false) ∧
  (∀ i e, error ret !! i = Some e →
          status e = 409%N ∧ isError e = true ∧ error_documentId e = i ∧
          error_writeRow e ∈ rows ∧
          primary (document (error_writeRow e)) = i ∧
          isRefused inst (error_writeRow e) = true).
Proof.
  intros Hcall. rewrite bulkWrite_foldWrite in Hcall.
  destruct (foldWrite _ _ _ _) as [|[b ret']] eqn:Hfold; [done|].
  injection Hcall as <- <-.
  destruct (foldWrite_answers _ _ _ (λ r, r ∈ rows) _ _ (λ r Hr, Hr) Hfold)
    as ((Hs & He) & _ & _ & Hrows).
  { split; intros i x Hx; simpl in Hx; by rewrite lookup_empty in Hx. }
  split; [exact Hrows|]. split; [exact Hs|exact He].
Qed.

(** ** The sequence of the changes table *)

Lemma newChanges_cons (k : N) (id : string) (rest : list string) :
  newChanges k (id :: rest)
  = {| meta_id := id; sequence := (k + 1)%N |} :: newChanges (k + 1) rest.
Proof.
  unfold newChanges. rewrite imap_cons. f_equal; [f_equal; lia|].
  apply imap_ext. intros j x _. simpl. f_equal. lia.
Qed.

Lemma newChanges_sequenced (k : N) (ids : list string) :
  StronglySorted sequence_lt (newChanges k ids) ∧
  Forall (λ m, (k < sequence m ≤ k + N.of_nat (length ids))%N)
    (newChanges k ids).
Proof.
  revert k. induction ids as [|id rest IH]; intros k.
  - split; constructor.
  - rewrite newChanges_cons. destruct (IH (k + 1)%N) as [Hsorted Hbound].
    split.
    + constructor; [done|]. eapply Forall_impl; [exact Hbound|].
      intros m Hm. unfold sequence_lt. simpl in *. lia.
    + constructor; [simpl; lia|]. eapply Forall_impl; [exact Hbound|].
      intros m Hm. simpl in *. lia.
Qed.

Lemma newChanges_ids (k : N) (ids : list string) :
  meta_id <$> newChanges k ids = ids.
Proof.
  revert k. induction ids as [|id rest IH]; intros k; [done|].
  by rewrite newChanges_cons, fmap_cons, IH.
Qed.

Lemma runBatch_sequenced guard (b : Batch RxDocType) inst :
  sequenced inst → sequenced (runBatch guard b inst).
Proof.
  intros [Hsorted Hbound]. unfold sequenced.
  destruct (runBatch_changes guard b inst) as [-> ->].
  destruct (newChanges_sequenced (autoIncrement inst) (changesIds b))
    as [Hnew Hrange].
  rewrite Forall_forall in Hbound, Hrange. split.
  - apply StronglySorted_app_2; [|done..].
    intros x1 x2 H1%Hbound H2%Hrange. unfold sequence_lt. lia.
  - apply Forall_app. split; apply Forall_forall.
    + intros m Hm%Hbound. lia.
    + intros m Hm%Hrange. lia.
Qed.

(** X5. The order of the changes table is an invariant of both write
    paths: when its rows are in strictly ascending order of [sequence]
    and none exceeds the last generated key, the same holds after
    [bulkWrite], whether it returns or throws, and after
    [bulkAddRevisions]. *)
Theorem writes_keep_sequenced env
    (rows : list (BulkWriteRow RxDocType))
    (documents : list (RxDocumentData RxDocType)) inst :
  sequenced inst →
  sequenced (bulkWrite env rows inst).1 ∧
  sequenced (bulkAddRevisions env documents inst).
Proof.
  intros Hinst. split.
  - unfold bulkWrite. destruct (forEachWrite _ _ _ _ _) as [e|[b ret]];
      [exact Hinst|]. exact (runBatch_sequenced true b inst Hinst).
  - unfold bulkAddRevisions.
    exact (runBatch_sequenced false _ inst Hinst).
Qed.

Lemma filter_all {A} (P : A → Prop) `{∀ x, Decision (P x)} (l : list A) :
  Forall P l → filter P l = l.
Proof.
  induction 1 as [|x l Hx Hl IH]; [done|].
  by rewrite filter_cons_True, IH.
Qed.

Lemma filter_none {A} (P : A → Prop) `{∀ x, Decision (P x)} (l : list A) :
  Forall (λ x, ¬ P x) l → filter P l = [].
Proof.
  induction 1 as [|x l Hx Hl IH]; [done|].
  by rewrite filter_cons_False.
Qed.

(** A table in strictly ascending order is read in the order it has. *)
Lemma bySequence_sorted (rows : list RxStorageChangedDocumentMeta) :
  StronglySorted sequence_lt rows → bySequence rows = rows.
Proof.
  intros Hrows. unfold bySequence.
  assert (StronglySorted sequence_le rows) as Hle.
  { clear -Hrows. induction Hrows as [|x l Hl IH Hx]; constructor; [done|].
    eapply Forall_impl; [exact Hx|]. unfold sequence_lt, sequence_le. lia. }
  apply (StronglySorted_unique_strong sequence_le);
    [|apply StronglySorted_merge_sort; apply _|done
     |apply merge_sort_Permutation].
  intros x1 x2 H1 H2 H12 H21.
  rewrite merge_sort_Permutation in H1.
  assert (sequence x1 = sequence x2) as Heq
    by (unfold sequence_le in *; lia).
  clear -Hrows H1 H2 Heq.
  induction Hrows as [|x l Hl IH Hx]; [inversion H1|].
  rewrite Forall_forall in Hx. unfold sequence_lt in Hx.
  apply elem_of_cons in H1 as [->|H1], H2 as [->|H2]; [done| | |by apply IH].
  - apply Hx in H2. lia.
  - apply Hx in H1. lia.
Qed.

Lemma last_nonempty_default {A} (x d d' : A) (l : list A) :
  List.last (x :: l) d = List.last (x :: l) d'.
Proof.
  revert x. induction l as [|y l IH]; intros x; [done|].
  change (List.last (y :: l) d = List.last (y :: l) d'). apply IH.
Qed.

Lemma newChanges_last (k : N) (ids : list string) :
  match newChanges k ids with
  | [] => k
  | first :: rest => sequence (List.last (first :: rest) first)
  end = (k + N.of_nat (length ids))%N.
Proof.
  revert k. induction ids as [|id rest IH]; intros k; [simpl; lia|].
  rewrite newChanges_cons. specialize (IH (k + 1)%N).
  destruct (newChanges (k + 1) rest) as [|y l] eqn:Hrest.
  - simpl in *. lia.
  - change (List.last (?x :: y :: l) ?d) with (List.last (y :: l) d).
    rewrite (last_nonempty_default y _ y). simpl length. lia.
Qed.

Lemma getChangedDocuments_after_runBatch guard (b : Batch RxDocType) inst :
  sequenced inst →
  getChangedDocuments
    {| direction := after; sinceSequence := autoIncrement inst;
       limit := None |} (runBatch guard b inst)
  = {| lastSequence := autoIncrement (runBatch guard b inst);
       changedDocuments := newChanges (autoIncrement inst) (changesIds b) |}.
Proof.
  intros Hinst. pose proof (runBatch_sequenced guard b inst Hinst) as [Hs _].
  destruct Hinst as [_ Hbound].
  unfold getChangedDocuments. cbn [direction sinceSequence limit applyLimit].
  unfold above. rewrite (bySequence_sorted _ Hs).
  destruct (runBatch_changes guard b inst) as [-> ->].
  destruct (newChanges_sequenced (autoIncrement inst) (changesIds b))
    as [_ Hrange].
  rewrite filter_app, filter_none, filter_all; simpl.
  2:{ eapply Forall_impl; [exact Hrange|]. intros m Hm. simpl in *. lia. }
  2:{ eapply Forall_impl; [exact Hbound|]. intros m Hm. simpl in *. lia. }
  f_equal.
  pose proof (newChanges_last (autoIncrement inst) (changesIds b)) as Hlast.
  by destruct (newChanges (autoIncrement inst) (changesIds b)).
Qed.

(** X6. Reading the change feed from the cursor held before a write: on
    an instance whose changes table is in order, [getChangedDocuments]
    with direction "after", [sinceSequence] the last key generated before
    [bulkWrite] and no limit returns, on the instance after the call,
    exactly the rows appended for the rows that were not refused, in the
    order of the batch, and [lastSequence] is the last key generated. *)
Theorem getChangedDocuments_resumes_after_bulkWrite env
    (rows : list (BulkWriteRow RxDocType)) inst inst' ret :
  sequenced inst →
  bulkWrite env rows inst = (inst', inr ret) →
  let res :=
    getChangedDocuments
      {| direction := after; sinceSequence := autoIncrement inst;
         limit := None |} inst' in
  meta_id <$> changedDocuments res
  = (λ r, primary (document r))
    <$> filter (λ r, isRefused inst r = false) rows ∧
  sequence <$> changedDocuments res
  = (λ k, (autoIncrement inst + 1 + N.of_nat k)%N)
    <$> seq 0 (length (changedDocuments res)) ∧
  lastSequence res = autoIncrement inst'.
Proof.
  intros Hinst Hcall res.
  rewrite bulkWrite_foldWrite in Hcall.
  pose proof (foldWrite_fate (now env) inst rows (emptyBatch, emptyResponse))
    as Hfate.
  destruct (foldWrite _ _ _ _) as [|[b ret']]; [done|].
  injection Hcall as <- <-. destruct Hfate as (_ & Hids & _).
  simpl in Hids.
  assert (res = {| lastSequence := autoIncrement (runBatch true b inst);
                   changedDocuments :=
                     newChanges (autoIncrement inst) (changesIds b) |})
    as ->.
  { unfold res. rewrite <- (getChangedDocuments_after_runBatch true b inst)
      by done. done. }
  cbn [changedDocuments lastSequence]. split; [|split; [|done]].
  - by rewrite newChanges_ids, Hids.
  - unfold newChanges. rewrite length_imap, fmap_imap.
    apply (imap_seq_0 (changesIds b)
             (λ k, (autoIncrement inst + 1 + N.of_nat k)%N)).
Qed.

(** ** Where the documents are stored *)

Lemma writeStep_queuedInPlace t d row acc acc' :
  writeStep t d row acc = inr acc' →
  queuedInPlace acc.1 → queuedInPlace acc'.1.
Proof.
  unfold queuedInPlace. destruct d as [inDb|]; simpl.
  - intros [(e & _ & ->)|(prev & c & b & _ & _ & Hcat & ->)]%updateExisting_inr;
      [done|].
    cbv zeta in Hcat. revert Hcat. unfold categorize.
    cbn [assignWriteDoc _deleted Js.truthy].
    destruct (Js.truthy (_deleted prev)),
      (Js.truthy (_deleted (document row))) eqn:Hd; simpl;
      intros Heq [Hlive Hdead]; inversion Heq; subst; simpl;
      rewrite ?Forall_app, ?Forall_singleton; simpl; rewrite ?Hd; done.
  - intros [= <-] [Hlive Hdead]. unfold insertNew, insertedDoc.
    destruct (Js.truthy (_deleted (document row))); simpl;
      rewrite ?Forall_app, ?Forall_singleton; done.
Qed.

Lemma foldWrite_queuedInPlace f find (rows : list (BulkWriteRow RxDocType))
    acc acc' :
  foldWrite f find rows acc = inr acc' →
  queuedInPlace acc.1 → queuedInPlace acc'.1.
Proof.
  revert f acc. induction rows as [|row rest IH]; intros f acc; simpl.
  - by intros [= <-].
  - destruct (writeStep _ _ _ _) as [|acc1] eqn:Hstep; [done|].
    intros Hrest Hacc. apply (IH _ _ Hrest).
    by apply (writeStep_queuedInPlace _ _ _ _ _ Hstep).
Qed.

Lemma revisionStep_queuedInPlace t d D (b : Batch RxDocType) :
  queuedInPlace b → queuedInPlace (revisionStep t d D b).
Proof.
  unfold queuedInPlace, revisionStep. intros [Hlive Hdead].
  destruct d as [E|].
  - destruct (mustUpdate _ _); [|done]. unfold categorizeRevision.
    destruct (Js.truthy (_deleted E)), (Js.truthy (_deleted D)) eqn:Hd;
      simpl; rewrite ?Forall_app, ?Forall_singleton; done.
  - cbn [setLastWriteAt _deleted].
    destruct (Js.truthy (_deleted D)) eqn:Hd; simpl;
      rewrite ?Forall_app, ?Forall_singleton; done.
Qed.

Lemma forEachRevision_queuedInPlace env docsInDb k
    (documents : list (RxDocumentData RxDocType)) (b : Batch RxDocType) :
  queuedInPlace b → queuedInPlace (forEachRevision env docsInDb k documents b).
Proof.
  revert k b. induction documents as [|D rest IH]; intros k b Hb; [done|].
  simpl. by apply IH, revisionStep_queuedInPlace.
Qed.

Lemma bulkPut_placed (P : RxDocumentData RxDocType → Prop) docs
    (t : gmap string (RxDocumentData RxDocType)) :
  Forall P docs →
  (∀ i d, t !! i = Some d → primary d = i ∧ P d) →
  ∀ i d, bulkPut docs t !! i = Some d → primary d = i ∧ P d.
Proof.
  intros Hdocs. revert t. induction Hdocs as [|x docs Hx Hdocs IH];
    intros t Ht; [done|].
  simpl. apply IH. intros i d [[<- <-]|[_ Hold]]%lookup_insert_Some;
    [done|by apply Ht].
Qed.

Lemma bulkDelete_lookup_Some ids
    (t : gmap string (RxDocumentData RxDocType)) i d :
  bulkDelete ids t !! i = Some d → t !! i = Some d.
Proof.
  revert t. induction ids as [|x ids IH]; intros t; [done|].
  simpl. intros Hd%IH. by apply lookup_delete_Some in Hd as [_ Hd].
Qed.

Lemma runBatch_wellPlaced guard (b : Batch RxDocType) inst :
  queuedInPlace b → wellPlaced inst → wellPlaced (runBatch guard b inst).
Proof.
  intros [Hlive Hdead] [Htable Hdeleted]. unfold wellPlaced, runBatch.
  cbn [dexieTable dexieDeletedTable].
  rewrite !ifNonEmpty_bulkPut, !ifNonEmpty_bulkDelete.
  split; intros i d Hd%bulkDelete_lookup_Some.
  - by eapply (bulkPut_placed _ _ _ Hlive Htable).
  - by eapply (bulkPut_placed _ _ _ Hdead Hdeleted).
Qed.

(** X7. Where a document is stored agrees with its flag, and this is an
    invariant of both write paths: when every stored document sits under
    its primary key, the live table holds no deleted document and the
    deleted table holds deleted documents only, the same is true after
    [bulkWrite], whether it returns or throws, and after
    [bulkAddRevisions]. *)
Theorem writes_keep_wellPlaced env
    (rows : list (BulkWriteRow RxDocType))
    (documents : list (RxDocumentData RxDocType)) inst :
  wellPlaced inst →
  wellPlaced (bulkWrite env rows inst).1 ∧
  wellPlaced (bulkAddRevisions env documents inst).
Proof.
  intros Hinst. split.
  - rewrite bulkWrite_foldWrite.
    destruct (foldWrite _ _ _ _) as [e|[b ret]] eqn:Hfold; [exact Hinst|].
    apply (foldWrite_queuedInPlace _ _ _ _ _) in Hfold.
    + exact (runBatch_wellPlaced true b inst Hfold Hinst).
    + split; constructor.
  - unfold bulkAddRevisions.
    refine (runBatch_wellPlaced false _ inst _ Hinst).
    apply forEachRevision_queuedInPlace. split; constructor.
Qed.

Lemma bulkWrite_untouched env (rows : list (BulkWriteRow RxDocType))
    inst i :
  (∀ r, r ∈ rows → primary (document r) ≠ i) →
  dexieTable (bulkWrite env rows inst).1 !! i = dexieTable inst !! i ∧
  dexieDeletedTable (bulkWrite env rows inst).1 !! i
  = dexieDeletedTable inst !! i.
Proof.
  intros Hother. rewrite bulkWrite_foldWrite.
  destruct (foldWrite _ _ _ _) as [e|[b ret]] eqn:Hfold; [done|].
  apply (foldWrite_other _ _ _ _ _ i Hother) in Hfold as (Hb & _ & _).
  destruct (runBatch_lookup true b inst i) as [Hlive Hdel].
  unfold publish. cbn [fst dexieTable dexieDeletedTable].
  cbn [fst] in Hb. rewrite Hlive, Hdel, Hb. done.
Qed.

(** X8. No id is in both document tables after [bulkWrite], provided this
    held before, stored documents were placed by their flag, no two rows
    of the batch carry the same id, and the [previous] that a row brings
    has the deleted flag of the document stored for its id. *)
Theorem bulkWrite_keeps_partitioned env
    (rows : list (BulkWriteRow RxDocType)) inst :
  partitioned inst →
  wellPlaced inst →
  NoDup ((λ r, primary (document r)) <$> rows) →
  (∀ r prev inDb,
     r ∈ rows → previous r = Some prev →
     findInDb inst (primary (document r)) = Some inDb →
     Js.truthy (_deleted prev) = Js.truthy (_deleted inDb)) →
  partitioned (bulkWrite env rows inst).1.
Proof.
  intros Hpart [_ Hplaced] Hnodup Hhonest i.
  destruct (decide (i ∈ (λ r, primary (document r)) <$> rows)) as [Hin|Hout].
  2:{ destruct (bulkWrite_untouched env rows inst i) as [-> ->]; [|done].
      intros r Hr <-. apply Hout, list_elem_of_fmap. by exists r. }
  apply list_elem_of_fmap in Hin as (row & -> & Hrow).
  apply list_elem_of_split in Hrow as (pre & post & ->).
  assert (∀ r, r ∈ (pre ++ post)%list
               → primary (document r) ≠ primary (document row)) as Hother.
  { rewrite fmap_app, fmap_cons in Hnodup.
    apply NoDup_app in Hnodup as (_ & Hpre & Hpost%NoDup_cons).
    destruct Hpost as [Hpost _].
    intros r [Hr|Hr]%elem_of_app Heq.
    - apply (Hpre (primary (document row)));
        [rewrite <- Heq; apply list_elem_of_fmap; by exists r|left].
    - apply Hpost. rewrite <- Heq. apply list_elem_of_fmap. by exists r. }
  destruct (bulkWrite env (pre ++ row :: post) inst) as [inst' [e|ret]]
    eqn:Hcall.
  { rewrite bulkWrite_foldWrite in Hcall.
    destruct (foldWrite _ _ _ _) as [|[??]]; [|done].
    injection Hcall as <- _. apply Hpart. }
  destruct (bulkWrite_row_alone _ _ _ _ _ _ _ Hother Hcall)
    as (acc1 & acc2 & bulk & Hb & _ & _ & Hstep & _ & _
        & Htable & Hdeleted & _ & _).
  cbn [fst]. rewrite Htable, Hdeleted. clear Htable Hdeleted Hcall.
  set (i := primary (document row)) in *.
  specialize (Hpart i).
  destruct (findInDb inst i) as [inDb|] eqn:Hfind.
  - simpl in Hstep.
    destruct (updateExisting_inr _ _ _ _ _ Hstep)
      as [(e & _ & ->)|(prev & c & b & Hprev & Hrev & Hcat & ->)].
    { cbn [fst]. rewrite Hb. exact Hpart. }
    cbv zeta in Hcat. fold i in Hcat. revert Hcat. unfold categorize.
    cbn [assignWriteDoc _deleted Js.truthy].
    destruct (Js.truthy (_deleted prev)) eqn:Hp,
      (Js.truthy (_deleted (document row))) eqn:Hd; cbn [andb negb];
      intros Heq; inversion Heq; subst b c; clear Heq;
      cbn [fst]; batch_of_row Hb;
      rewrite ?lookup_insert_eq, ?lookup_delete_eq; auto.
    right. revert Hfind. unfold findInDb.
    destruct (dexieTable inst !! i) eqn:Hlive;
      [by destruct Hpart|]. intros Hdead.
    exfalso. destruct (Hplaced i inDb Hdead) as [_ HinDb].
    revert Hprev. unfold adoptPrevious. rewrite HinDb.
    destruct (previous row) as [p|] eqn:Hrowprev; simpl.
    + rewrite Hrowprev. intros [= ->].
      rewrite (Hhonest row prev inDb) in Hp; [congruence| |done|].
      * apply elem_of_app. right. left.
      * unfold findInDb. fold i. by rewrite Hlive.
    + intros [= <-]. congruence.
  - simpl in Hstep. injection Hstep as <-. revert Hfind. unfold findInDb.
    destruct (dexieTable inst !! i) eqn:Hlive; [done|]. intros Hdead.
    unfold insertNew. fold i.
    destruct (Js.truthy (_deleted (document row))) eqn:Hd;
      cbn [fst]; batch_of_row Hb; rewrite ?Hlive, ?Hdead; auto.
Qed.

(** ** findDocumentsById *)

Lemma forEachId_lookup deleted (g : string → option (RxDocumentData RxDocType))
    (all ids : list string) k ret i :
  drop k all = ids →
  forEachId deleted (g <$> all) k ids ret !! i
  = match
      (if decide (i ∈ ids) then g i else None)
        ≫= (λ d, if negb (Js.truthy (_deleted d)) || deleted
                  then Some (stripDexieKey d) else None)
    with
    | Some d => Some d
    | None => ret !! i
    end.
Proof.
  revert k ret. induction ids as [|id rest IH]; intros k ret Hdrop; [done|].
  assert (all !! k = Some id) as Hk.
  { rewrite <- (Nat.add_0_r k), <- lookup_drop, Hdrop. done. }
  simpl. rewrite list_lookup_fmap, Hk. simpl.
  rewrite (IH (S k)).
  2:{ replace (S k) with (k + 1)%nat by lia.
      by rewrite <- drop_drop, Hdrop. }
  destruct (decide (i = id)) as [->|Hne].
  - rewrite (decide_True (P := id ∈ id :: rest)) by left.
    destruct (g id) as [d|] eqn:Hg; simpl.
    + destruct (negb _ || deleted) eqn:Hshow.
      * case_decide; simpl; rewrite ?Hg; simpl; rewrite ?Hshow;
          [done|by rewrite lookup_insert_eq].
      * case_decide; simpl; rewrite ?Hg; simpl; rewrite ?Hshow; done.
    + case_decide; simpl; rewrite ?Hg; done.
  - assert (∀ r, (<[id := r]> ret) !! i = ret !! i) as Hins
      by (intros r; by rewrite lookup_insert_ne).
    destruct (decide (i ∈ rest)) as [Hin|Hout].
    + rewrite (decide_True (P := i ∈ id :: rest)) by (by right).
      destruct (g i ≫= _); [done|].
      destruct (g id) as [d|]; [|done]. by destruct (negb _ || deleted).
    + rewrite (decide_False (P := i ∈ id :: rest)).
      2:{ by intros [?|?]%elem_of_cons. }
      simpl. destruct (g id) as [d|]; [|done].
      by destruct (negb _ || deleted).
Qed.

(** What [findDocumentsById] holds under an id. *)
Lemma findDocumentsById_at (ids : list string) (deleted : bool)
    (inst : Instance RxDocType) (i : string) :
  findDocumentsById ids deleted inst !! i
  = if decide (i ∈ ids) then
      if deleted then stripDexieKey <$> findInDb inst i
      else match dexieTable inst !! i with
           | Some d =>
               if Js.truthy (_deleted d) then None
               else Some (stripDexieKey d)
           | None => None
           end
    else None.
Proof.
  unfold findDocumentsById, getDocsInDb, bulkGet.
  destruct deleted.
  - rewrite (forEachId_lookup true (findInDb inst) ids ids 0) by done.
    rewrite lookup_empty. case_decide; [|done].
    destruct (findInDb inst i) as [d|]; simpl; [|done].
    by rewrite orb_true_r.
  - rewrite (forEachId_lookup false (λ id, dexieTable inst !! id) ids ids 0)
      by done.
    rewrite lookup_empty. case_decide; [|done].
    destruct (dexieTable inst !! i) as [d|]; simpl; [|done].
    rewrite orb_false_r. by destruct (Js.truthy (_deleted d)).
Qed.

(** X9. [findDocumentsById(ids, deleted)] answers for the asked ids only,
    and for each of them with the stored document without [$lastWriteAt]:
    with [deleted] set, the document of the live table or else of the
    deleted table; without it, the document of the live table unless it is
    deleted. An id that is not stored, or whose document is filtered out,
    is absent from the result. *)
Theorem findDocumentsById_lookup (ids : list string) (deleted : bool)
    (inst : Instance RxDocType) (i : string) (d : RxDocumentData RxDocType) :
  findDocumentsById ids deleted inst !! i = Some d
  ↔ i ∈ ids ∧
    ∃ d0,
      (if deleted then findInDb inst i else dexieTable inst !! i) = Some d0 ∧
      (deleted = true ∨ Js.truthy (_deleted d0) = false) ∧
      d = stripDexieKey d0.
Proof.
  rewrite findDocumentsById_at. case_decide as Hin.
  2:{ split; [done|]. by intros [? _]. }
  destruct deleted.
  - destruct (findInDb inst i) as [d0|]; simpl; split.
    + intros [= <-]. split; [done|]. exists d0. auto.
    + by intros (_ & d1 & [= <-] & _ & ->).
    + done.
    + by intros (_ & d1 & ? & _).
  - destruct (dexieTable inst !! i) as [d0|].
    2:{ split; [done|]. by intros (_ & d1 & ? & _). }
    destruct (Js.truthy (_deleted d0)) eqn:Hd; split.
    + done.
    + intros (_ & d1 & [= <-] & [?|?] & _); congruence.
    + intros [= <-]. split; [done|]. exists d0. auto.
    + by intros (_ & d1 & [= <-] & _ & ->).
Qed.

Lemma stripDexieKey_idemp (d : RxDocumentData RxDocType) :
  stripDexieKey (stripDexieKey d) = stripDexieKey d.
Proof. done. Qed.

(** X10. Reading one's own write: when a row that is not refused is the
    only one of its batch with its id and [bulkWrite] returns, the
    document that the success map reports under the id is, without
    [$lastWriteAt], what [findDocumentsById] finds for the id when deleted
    documents are asked for; when they are not, it is found exactly if it
    is not deleted. *)
Theorem findDocumentsById_after_bulkWrite env pre row post inst inst' ret
    (ids : list string) :
  let i := primary (document row) in
  isRefused inst row = false →
  (∀ r, r ∈ (pre ++ post)%list → primary (document r) ≠ i) →
  bulkWrite env (pre ++ row :: post) inst = (inst', inr ret) →
  i ∈ ids →
  ∃ d,
    success ret !! i = Some d ∧
    findDocumentsById ids true inst' !! i = Some (stripDexieKey d) ∧
    findDocumentsById ids false inst' !! i
    = if Js.truthy (_deleted d) then None else Some (stripDexieKey d).
Proof.
  intros i Hok Hother Hcall Hin.
  destruct (bulkWrite_row_alone _ _ _ _ _ _ _ Hother Hcall)
    as (acc1 & acc2 & bulk & Hb & Hs & _ & Hstep & Hret & _
        & Htable & Hdeleted & _ & _).
  fold i in Hb, Hs, Hstep, Hret, Htable, Hdeleted.
  rewrite !findDocumentsById_at, !decide_True by done.
  unfold findInDb. rewrite Htable, Hdeleted, Hret.
  clear Htable Hdeleted Hret Hcall.
  revert Hok. unfold isRefused. fold i.
  destruct (findInDb inst i) as [inDb|] eqn:Hfind.
  - intros Hok. destruct (isConflict_false _ _ Hok) as (prev & Hprev & Hrev).
    simpl in Hstep.
    rewrite (updateExisting_accepted _ _ _ prev) in Hstep by done.
    cbv zeta in Hstep. fold i in Hstep. unfold categorize in Hstep.
    cbn [assignWriteDoc _deleted Js.truthy] in Hstep.
    destruct (Js.truthy (_deleted prev)),
      (Js.truthy (_deleted (document row))) eqn:Hd;
      cbn [andb negb] in Hstep; try done;
      injection Hstep as <-; cbn [fst snd]; batch_of_row Hb;
      cbn [setSuccess success];
      rewrite ?lookup_insert_eq, ?lookup_delete_eq;
      (eexists; split; [reflexivity|]); simpl; done.
  - intros _. simpl in Hstep. injection Hstep as <-.
    revert Hfind. unfold findInDb.
    destruct (dexieTable inst !! i) eqn:Hlive; [done|]. intros Hdead.
    unfold insertNew. fold i.
    destruct (Js.truthy (_deleted (document row))) eqn:Hd;
      cbn [fst snd]; batch_of_row Hb; cbn [setSuccess success];
      rewrite ?Hlive, ?lookup_insert_eq;
      (eexists; split; [reflexivity|]); simpl; rewrite ?Hd; done.
Qed.

(** ** More about bulkAddRevisions *)

(** Every document of the call meets the document stored for its own id at
    the start; what holds of the batch before and is kept by the loop body
    holds after the loop. *)
Lemma forEachRevision_invariant env inst
    (all : list (RxDocumentData RxDocType)) (P : Batch RxDocType → Prop) :
  (∀ t D b, D ∈ all → P b →
            P (revisionStep t (findInDb inst (primary D)) D b)) →
  ∀ k documents b,
    drop k all = documents →
    P b →
    P (forEachRevision env (getDocsInDb inst (primary <$> all)) k documents b).
Proof.
  intros Hstep k documents. revert k.
  induction documents as [|D rest IH]; intros k b Hdrop Hb; [done|].
  assert (all !! k = Some D) as Hk.
  { rewrite <- (Nat.add_0_r k), <- lookup_drop, Hdrop. done. }
  simpl. apply IH.
  - replace (S k) with (k + 1)%nat by lia. by rewrite <- drop_drop, Hdrop.
  - unfold getDocsInDb. rewrite !list_lookup_fmap, Hk. simpl.
    apply Hstep; [|done]. by eapply list_elem_of_lookup_2.
Qed.

(** X11. Every call of [bulkAddRevisions] on an instance whose change
    stream is not completed makes the stream emit exactly one more bulk
    and appends to the changes table exactly one row per event of that
    bulk, under the id of the event, in the order of the events and with
    the keys that follow the last generated one without a gap. *)
Theorem bulkAddRevisions_changes_match_events env
    (documents : list (RxDocumentData RxDocType)) inst :
  completed (changes inst) = false →
  let inst' := bulkAddRevisions env documents inst in
  ∃ bulk,
    emitted (changes inst') = (emitted (changes inst) ++ [bulk])%list ∧
    dexieChangesTable inst'
    = (dexieChangesTable inst
       ++ newChanges (autoIncrement inst) (documentId <$> events bulk))%list ∧
    autoIncrement inst'
    = (autoIncrement inst + N.of_nat (length (events bulk)))%N.
Proof.
  intros Hopen inst'. unfold inst', bulkAddRevisions.
  set (b := forEachRevision _ _ _ _ _).
  assert (changesIds b = documentId <$> batch_events b) as Hids.
  { unfold b. apply (forEachRevision_invariant env inst documents
      (λ b, changesIds b = documentId <$> batch_events b)); [|done..].
    intros t D b0 _ Hb0. unfold revisionStep.
    destruct (findInDb inst (primary D)) as [E|].
    - destruct (mustUpdate _ _); [|done]. unfold categorizeRevision.
      destruct (Js.truthy (_deleted E)), (Js.truthy (_deleted D)); simpl;
        rewrite ?fmap_app, ?Hb0; done.
    - cbn [setLastWriteAt _deleted].
      destruct (Js.truthy (_deleted D)); simpl; by rewrite fmap_app, Hb0. }
  destruct (runBatch_changes false b inst) as [Htable Hkey].
  eexists. unfold publish, next. cbn [changes runBatch]. rewrite Hopen.
  cbn [emitted]. split; [reflexivity|].
  cbn [dexieChangesTable autoIncrement events].
  rewrite Htable, Hkey, Hids, !length_fmap, <- list_fmap_compose.
  split; [|done]. do 2 f_equal; by apply list_fmap_ext.
Qed.

Lemma bulkPut_lookup_elem (docs : list (RxDocumentData RxDocType))
    (t : gmap string (RxDocumentData RxDocType)) i d :
  bulkPut docs t !! i = Some d → d ∈ docs ∨ t !! i = Some d.
Proof.
  revert t. induction docs as [|x docs IH]; intros t; [by right|].
  simpl. intros [Hd|[[_ Hd]|[_ Hd]]%lookup_insert_Some]%IH.
  - left. by right.
  - left. subst. by left.
  - by right.
Qed.

(** X12. [bulkAddRevisions] never puts a document whose revision does not
    win in the place of a stored one: on an instance where no id is in
    both tables, the document found for an id after the call is the one
    found before, or a document of the call with this id for which
    [mustUpdate] held against the one found before. *)
Theorem bulkAddRevisions_never_lowers env
    (documents : list (RxDocumentData RxDocType)) inst i E E' :
  partitioned inst →
  findInDb inst i = Some E →
  findInDb (bulkAddRevisions env documents inst) i = Some E' →
  E' = E
  ∨ (E' ∈ documents ∧ primary E' = i ∧
     mustUpdate (parseRevision (_rev E')) (parseRevision (_rev E)) = true).
Proof.
  intros Hpart Hfind. unfold bulkAddRevisions.
  set (b := forEachRevision _ _ _ _ _).
  set (wins := λ d : RxDocumentData RxDocType,
         d ∈ documents ∧ primary d = i ∧
         mustUpdate (parseRevision (_rev d)) (parseRevision (_rev E)) = true).
  assert (Forall wins (docsFor i (bulkPutDocs b))
          ∧ Forall wins (docsFor i (bulkPutDeletedDocs b))) as [Hlive Hdead].
  { unfold b. apply (forEachRevision_invariant env inst documents
      (λ b, Forall wins (docsFor i (bulkPutDocs b))
            ∧ Forall wins (docsFor i (bulkPutDeletedDocs b))));
      [|done|split; constructor].
    intros t D b0 HD [Hl Hd].
    destruct (decide (primary D = i)) as [Hi|Hne].
    - rewrite Hi, Hfind. unfold revisionStep.
      destruct (mustUpdate _ _) eqn:Hmust; [|done].
      assert (wins D) as HwD by done.
      unfold categorizeRevision, docsFor.
      destruct (Js.truthy (_deleted E)), (Js.truthy (_deleted D)); simpl;
        rewrite ?filter_app, ?Forall_app, ?filter_cons_True,
          ?Forall_singleton by done; done.
    - unfold revisionStep, categorizeRevision, docsFor.
      cbn [setLastWriteAt _deleted].
      destruct (findInDb inst (primary D)) as [E0|];
        [destruct (mustUpdate _ _); [|done];
         destruct (Js.truthy (_deleted E0))|];
        destruct (Js.truthy (_deleted D)); simpl;
        rewrite ?filter_app, ?filter_cons_False, ?app_nil_r by done;
        done. }
  rewrite findInDb_publish_runBatch.
  change (bulkPutDocs (batchFor i b)) with (docsFor i (bulkPutDocs b)).
  change (bulkPutDeletedDocs (batchFor i b))
    with (docsFor i (bulkPutDeletedDocs b)).
  rewrite Forall_forall in Hlive, Hdead.
  assert (∀ d, dexieTable inst !! i = Some d
               ∨ dexieDeletedTable inst !! i = Some d → d = E) as Hold.
  { revert Hfind. unfold findInDb. intros Hfind d [Hd|Hd].
    - rewrite Hd in Hfind. congruence.
    - destruct (Hpart i) as [Hnone|Hnone]; [|congruence].
      rewrite Hnone in Hfind. congruence. }
  destruct (bulkDelete _ (bulkPut (docsFor i (bulkPutDocs b)) _) !! i)
    as [d|] eqn:Hd.
  - intros [= <-].
    apply bulkDelete_lookup_Some, bulkPut_lookup_elem in Hd as [Hd|Hd].
    + right. by apply Hlive.
    + left. apply Hold. by left.
  - intros HE'.
    apply bulkDelete_lookup_Some, bulkPut_lookup_elem in HE' as [Hd'|Hd'].
    + right. by apply Hdead.
    + left. apply Hold. by right.
Qed.







(** ** query *)

Lemma elem_of_tableToArray (t : gmap string (RxDocumentData RxDocType)) d :
  d ∈ tableToArray t ↔ ∃ i, t !! i = Some d.
Proof.
  unfold tableToArray. rewrite list_elem_of_fmap. split.
  - intros ([i d'] & -> & Hin). exists i.
    rewrite merge_sort_Permutation in Hin. by apply elem_of_map_to_list.
  - intros [i Hi]. exists (i, d). split; [done|].
    rewrite merge_sort_Permutation. by apply elem_of_map_to_list.
Qed.

(** The page that [skip] and [limit] cut is a part of the sorted array. *)
Lemma query_page queryMatcher sort preparedQuery (inst : Instance RxDocType) :
  query queryMatcher sort preparedQuery inst
  `sublist_of`
  sort (stripDexieKey
          <$> filter (λ d, queryMatcher d = true)
                (tableToArray (dexieTable inst))).
Proof.
  unfold query. cbv zeta.
  set (all := sort _).
  set (skipped := match skip preparedQuery with
                  | Some n => if (n =? 0)%N then all
                              else drop (N.to_nat n) all
                  | None => all
                  end).
  assert (skipped `sublist_of` all) as Hskip.
  { unfold skipped. destruct (skip preparedQuery) as [n|]; [|done].
    destruct (n =? 0)%N; [done|]. apply sublist_drop. }
  destruct (query_limit preparedQuery) as [n|]; [|done].
  destruct (negb _ && _); [|done].
  etrans; [apply sublist_take|done].
Qed.

(** X14. [query] returns documents of the live table only: each result is
    a document that the table holds and the matcher accepts, without
    [$lastWriteAt]; on a table that holds no deleted document, no result
    is deleted. The sort is any function that permutes its array. *)
Theorem query_returns_live_matches queryMatcher sort preparedQuery
    (inst : Instance RxDocType) d :
  (∀ l, sort l ≡ₚ l) →
  d ∈ query queryMatcher sort preparedQuery inst →
  ∃ i d0,
    dexieTable inst !! i = Some d0 ∧
    queryMatcher d0 = true ∧
    d = stripDexieKey d0 ∧
    (wellPlaced inst → primary d = i ∧ Js.truthy (_deleted d) = false).
Proof.
  intros Hsort Hin.
  eapply elem_of_sublist in Hin; [|apply query_page].
  rewrite Hsort in Hin.
  apply list_elem_of_fmap in Hin as (d0 & -> & Hin).
  apply list_elem_of_filter in Hin as [Hmatch Hin].
  apply elem_of_tableToArray in Hin as [i Hi].
  exists i, d0. split; [done|]. split; [done|]. split; [done|].
  intros [Hlive _]. exact (Hlive i d0 Hi).
Qed.

(** X15. How many documents [query] returns: of the live documents that
    the matcher accepts, those after the first [skip], and of these no
    more than [limit]; a [limit] of [0], like none, does not cut. *)
Theorem query_length queryMatcher sort preparedQuery
    (inst : Instance RxDocType) :
  (∀ l, sort l ≡ₚ l) →
  let matching :=
    length (filter (λ d, queryMatcher d = true)
              (tableToArray (dexieTable inst))) in
  let rest :=
    (matching - N.to_nat (default 0%N (skip preparedQuery)))%nat in
  length (query queryMatcher sort preparedQuery inst)
  = match query_limit preparedQuery with
    | Some n => if (n =? 0)%N then rest else (N.to_nat n `min` rest)%nat
    | None => rest
    end.
Proof.
  intros Hsort matching rest. unfold query. cbv zeta.
  set (all := sort _).
  assert (length all = matching) as Hall.
  { unfold all. by rewrite Hsort, length_fmap. }
  set (skipped := match skip preparedQuery with
                  | Some n => if (n =? 0)%N then all
                              else drop (N.to_nat n) all
                  | None => all
                  end).
  assert (length skipped = rest) as Hskip.
  { unfold skipped, rest. destruct (skip preparedQuery) as [n|]; simpl.
    - destruct (N.eqb_spec n 0) as [->|_]; [simpl; lia|].
      by rewrite length_drop, Hall.
    - lia. }
  destruct (query_limit preparedQuery) as [n|]; [|done].
  destruct (N.eqb_spec n 0) as [->|Hn]; [done|]. cbn [negb andb].
  destruct (N.ltb_spec n (N.of_nat (length skipped))).
  - rewrite length_take. lia.
  - lia.
Qed.

(** ** remove *)


(** ** The change feed of the LokiJS storage instance *)

(** The first row of the descending sort carries the greatest sequence. *)
Lemma simplesort_desc_head (rows : list RxStorageChangedDocumentMeta) :
  match head (take 1 (simplesort true rows)) with
  | Some m => Forall (λ x, (sequence x ≤ sequence m)%N) rows
  | None => rows = []
  end.
Proof.
  unfold simplesort.
  pose proof (StronglySorted_merge_sort sequence_ge rows) as Hsorted.
  pose proof (merge_sort_Permutation sequence_ge rows) as Hperm.
  destruct (merge_sort sequence_ge rows) as [|m rest]; simpl.
  - by apply Permutation_nil.
  - rewrite <- Hperm. apply StronglySorted_inv in Hsorted as [_ Hrest].
    constructor; [lia|]. eapply Forall_impl; [exact Hrest|].
    unfold sequence_ge. simpl. intros; lia.
Qed.

(** X17. [addChangeDocumentMeta(id)] of the LokiJS instance, when the
    cached [lastChangefeedSequence] is still [0] or is not below any
    sequence of the changes collection: the row inserted for [id] carries
    a sequence that is greater than every sequence of the collection, the
    cache holds this sequence afterwards, is not [0] and is again not
    below any sequence of the collection. *)
Theorem addChangeDocumentMeta_fresh (id : string) (feed : LokiChangeFeed) :
  lastChangefeedSequence feed = 0%N
  ∨ Forall (λ m, (sequence m ≤ lastChangefeedSequence feed)%N)
      (lokiChangesCollection feed) →
  let feed' := addChangeDocumentMeta id feed in
  let fresh := lastChangefeedSequence feed' in
  lokiChangesCollection feed'
  = (lokiChangesCollection feed
     ++ [{| meta_id := id; sequence := fresh |}])%list ∧
  Forall (λ m, (sequence m < fresh)%N) (lokiChangesCollection feed) ∧
  fresh ≠ 0%N ∧
  Forall (λ m, (sequence m ≤ fresh)%N) (lokiChangesCollection feed').
Proof.
  intros Hcache feed' fresh.
  assert (Forall (λ m, (sequence m < fresh)%N) (lokiChangesCollection feed))
    as Hbelow.
  { unfold fresh, feed', addChangeDocumentMeta.
    cbn [lastChangefeedSequence].
    destruct (N.eqb_spec (lastChangefeedSequence feed) 0) as [Hzero|Hset].
    - pose proof (simplesort_desc_head (lokiChangesCollection feed)) as Hmax.
      destruct (head _) as [lastDoc|].
      + eapply Forall_impl; [exact Hmax|]. simpl. intros; lia.
      + rewrite Hmax. constructor.
    - destruct Hcache as [?|Hcache]; [done|].
      eapply Forall_impl; [exact Hcache|]. simpl. intros; lia. }
  split; [done|]. split; [done|]. split.
  - unfold fresh, feed', addChangeDocumentMeta.
    cbn [lastChangefeedSequence]. lia.
  - change (lokiChangesCollection feed')
      with (lokiChangesCollection feed
            ++ [{| meta_id := id; sequence := fresh |}])%list.
    rewrite Forall_app, Forall_singleton. split; [|simpl; lia].
    eapply Forall_impl; [exact Hbelow|]. simpl. intros; lia.
Qed.

(** ** cleanup of the LokiJS storage instance *)

Lemma loki_key_inj (collection : list (LokiDocument RxDocType)) x y :
  NoDup (loki_key <$> collection) →
  x ∈ collection → y ∈ collection → loki_key x = loki_key y → x = y.
Proof.
  induction collection as [|d rest IH]; [by intros _ ?%elem_of_nil|].
  rewrite fmap_cons, NoDup_cons. intros [Hd Hrest].
  intros [->|Hx]%elem_of_cons [->|Hy]%elem_of_cons Hkey; [done|..].
  - exfalso. apply Hd. rewrite Hkey. by apply list_elem_of_fmap_2.
  - exfalso. apply Hd. rewrite <- Hkey. by apply list_elem_of_fmap_2.
  - by apply IH.
Qed.

(** With or without the test [foundDocuments.length > 0], the collection
    afterwards is the one without the found documents. *)
Lemma cleanup_collection minimumDeletedTime t
    (collection : list (LokiDocument RxDocType)) :
  (cleanup minimumDeletedTime t collection).1
  = lokiRemove
      (take 10
         (filter (cleanupSelector (Z.of_N t - minimumDeletedTime))
            collection))
      collection.
Proof.
  unfold cleanup. cbv zeta. cbn [fst].
  destruct (take 10 _) as [|d found]; [|done]. simpl.
  unfold lokiRemove. symmetry. apply filter_all, Forall_forall.
  intros d _. simpl. apply not_elem_of_nil.
Qed.

(** X18. One run of [cleanup(minimumDeletedTime)] on a collection with
    distinct [$loki] keys removes deleted documents with
    [_meta.lwt < now() - minimumDeletedTime] and nothing else, ten of them
    or, when there are fewer, all; it returns [true] exactly when there
    were fewer than ten, and then none is left. When there were exactly
    ten, none is left either, and the run returns [false]. *)
Theorem cleanup_removes_old_tombstones minimumDeletedTime t
    (collection : list (LokiDocument RxDocType)) :
  NoDup (loki_key <$> collection) →
  let old :=
    filter (cleanupSelector (Z.of_N t - minimumDeletedTime)) collection in
  let result := cleanup minimumDeletedTime t collection in
  result.1 `sublist_of` collection ∧
  (∀ d, d ∈ collection →
        ¬ cleanupSelector (Z.of_N t - minimumDeletedTime) d → d ∈ result.1) ∧
  length collection = (length result.1 + 10 `min` length old)%nat ∧
  (result.2 = true ↔ (length old < 10)%nat) ∧
  ((length old ≤ 10)%nat →
   Forall (λ d, ¬ cleanupSelector (Z.of_N t - minimumDeletedTime) d)
     result.1).
Proof.
  intros Hkeys old result. unfold result.
  rewrite cleanup_collection. fold old.
  set (found := take 10 old).
  assert (∀ d, d ∈ found → d ∈ old) as Hfound.
  { intros d Hd. eapply elem_of_sublist; [exact Hd|apply sublist_take]. }
  assert (∀ d, d ∈ old ↔
               cleanupSelector (Z.of_N t - minimumDeletedTime) d
               ∧ d ∈ collection) as Hold.
  { intros d. apply list_elem_of_filter. }
  assert (∀ d, d ∈ collection →
               loki_key d ∈ loki_key <$> found → d ∈ found) as Hsame.
  { intros d Hd (f & Hkey & Hf)%list_elem_of_fmap.
    assert (d = f) as ->; [|done].
    apply (loki_key_inj collection); [done..| |done].
    by apply Hold, Hfound. }
  split; [apply sublist_filter|]. split; [|split; [|split]].
  - intros d Hd Hnot. apply list_elem_of_filter. split; [|done].
    intros Hkey%Hsame; [|done]. by apply Hfound, Hold in Hkey as [? _].
  - rewrite <- (filter_app_complement
                  (λ d, loki_key d ∉ loki_key <$> found) collection)
      at 1.
    rewrite length_app. unfold lokiRemove. f_equal.
    rewrite <- (length_take old 10). fold found.
    apply Permutation_length, NoDup_Permutation.
    + eapply sublist_NoDup; [|apply sublist_filter].
      by eapply NoDup_fmap_1.
    + eapply sublist_NoDup; [|apply sublist_take].
      eapply sublist_NoDup; [|apply sublist_filter].
      by eapply NoDup_fmap_1.
    + intros d. rewrite list_elem_of_filter. split.
      * intros [Hkey Hd]. apply Hsame; [done|].
        by destruct (decide (loki_key d ∈ loki_key <$> found)).
      * intros Hd. split; [|by apply Hfound, Hold in Hd as [_ ?]].
        intros Hnot. apply Hnot. by apply list_elem_of_fmap_2.
  - unfold cleanup. cbv zeta. cbn [snd]. fold old.
    rewrite length_take.
    destruct (Nat.eqb_spec (10 `min` length old) 10); simpl; split;
      intros; try done; lia.
  - intros Hfew. apply Forall_forall. intros d [Hkey Hd]%list_elem_of_filter.
    intros Hsel. apply Hkey. apply list_elem_of_fmap_2.
    unfold found. rewrite take_ge by done. by apply Hold.
Qed.

(** ** The two engines on the same changes *)

Lemma distinct_sequences (rows : list RxStorageChangedDocumentMeta) x1 x2 :
  StronglySorted sequence_lt rows →
  x1 ∈ rows → x2 ∈ rows → sequence x1 = sequence x2 → x1 = x2.
Proof.
  intros Hrows H1 H2 Heq.
  induction Hrows as [|x l Hl IH Hx]; [inversion H1|].
  rewrite Forall_forall in Hx. unfold sequence_lt in Hx.
  apply elem_of_cons in H1 as [->|H1], H2 as [->|H2]; [done| | |by apply IH].
  - apply Hx in H2. lia.
  - apply Hx in H1. lia.
Qed.

(** The descending sort of rows in strictly ascending order reverses
    them. *)
Lemma simplesort_desc_sorted (rows : list RxStorageChangedDocumentMeta) :
  StronglySorted sequence_lt rows → simplesort true rows = reverse rows.
Proof.
  intros Hrows. unfold simplesort.
  apply (StronglySorted_unique_strong sequence_ge).
  - intros x1 x2 H1 H2 H12 H21.
    rewrite merge_sort_Permutation in H1. rewrite elem_of_reverse in H2.
    apply (distinct_sequences rows); [done..|].
    unfold sequence_ge in *. lia.
  - apply StronglySorted_merge_sort; apply _.
  - clear -Hrows. induction Hrows as [|x l Hl IH Hx]; [constructor|].
    rewrite reverse_cons. apply StronglySorted_app_2; [|done|].
    + intros x1 x2 H1 H2. rewrite elem_of_reverse in H1.
      apply list_elem_of_singleton in H2 as ->.
      rewrite Forall_forall in Hx. apply Hx in H1.
      unfold sequence_lt, sequence_ge in *. lia.
    + repeat constructor.
  - by rewrite merge_sort_Permutation, reverse_Permutation.
Qed.

Lemma last_cons_default {A} (x : A) (l : list A) :
  last (x :: l) = Some (List.last (x :: l) x).
Proof.
  revert x. induction l as [|y l IH]; intros x; [done|].
  change (last (y :: l) = Some (List.last (y :: l) x)).
  by rewrite IH, (last_nonempty_default y x y).
Qed.

(** X19. On the same rows in strictly ascending order of their sequence,
    [getChangedDocuments] of the LokiJS instance and of the Dexie
    instance return the same rows and the same [lastSequence], for every
    direction, start and limit. *)
Theorem getChangedDocuments_engines_agree options
    (inst : Instance RxDocType) :
  StronglySorted sequence_lt (dexieChangesTable inst) →
  lokiGetChangedDocuments options (dexieChangesTable inst)
  = getChangedDocuments options inst.
Proof.
  intros Hrows. unfold lokiGetChangedDocuments, getChangedDocuments.
  unfold above, below, lokiFind. rewrite (bySequence_sorted _ Hrows).
  destruct (direction options); cbn [Direction_eqb negb].
  - rewrite simplesort_desc_sorted by by apply StronglySorted_filter.
    by destruct (applyLimit _ _).
  - replace (simplesort false
               (filter (λ m, (sinceSequence options < sequence m)%N)
                  (dexieChangesTable inst)))
      with (filter (λ m, (sinceSequence options < sequence m)%N)
              (dexieChangesTable inst)).
    2:{ symmetry. apply bySequence_sorted. by apply StronglySorted_filter. }
    destruct (applyLimit _ _) as [|first rest] eqn:Hcut; [done|].
    by rewrite last_cons_default.
Qed.

End Properties.

(** ** The theorems at sample inputs *)

Lemma bulkWrite_delete_event_witness :
  findInDb Sample.liveInstance "a" = Some (Sample.doc "a" "3-H" false "v2") ∧
  ∃ tombstone ev bulk,
    let inst' := (bulkWrite Sample.env [Sample.deleteRow] Sample.liveInstance).1 in
    dexieTable inst' !! "a" = None ∧
    dexieDeletedTable inst' !! "a" = Some tombstone ∧
    _rev tombstone = "4-hv2" ∧
    changes inst' = next bulk (changes Sample.liveInstance) ∧
    eventsFor "a" (events bulk) = [ev] ∧
    operation (change ev) = DELETE ∧
    change_doc (change ev) = None ∧
    change_previous (change ev) = Some (Sample.doc "a" "4-hv2" false "v2").
Proof.
  assert (findInDb Sample.liveInstance "a"
          = Some (Sample.doc "a" "3-H" false "v2")) as Hfind by reflexivity.
  split; [exact Hfind|].
  destruct (bulkWrite_delete_event Sample.env [] Sample.deleteRow []
              Sample.liveInstance (Sample.doc "a" "3-H" false "v2")
              (Sample.doc "a" "3-H" false "v2")
              Hfind eq_refl eq_refl eq_refl eq_refl) as [_ Hcall].
  destruct (Hcall
              (bulkWrite Sample.env [Sample.deleteRow] Sample.liveInstance).1
              (setSuccess "a"
                 (stripDexieKey
                    (assignWriteDoc (document Sample.deleteRow) "4-hv2" true
                       (Some 1000%N))) emptyResponse))
    as (tombstone & ev & bulk & H1 & H2 & _ & H3 & _ & H4 & H5 & H6 & H7 & H8).
  - intros r Hr. inversion Hr.
  - reflexivity.
  - exists tombstone, ev, bulk. repeat split; assumption.
Defined.

Lemma bulkWrite_update_revision_witness :
  findInDb Sample.liveInstance "a" = Some (Sample.doc "a" "3-H" false "v2") ∧
  getHeightOfRevision "3-H" = Some 3%N ∧
  (3 < 2 ^ 53)%N ∧
  ∃ stored,
    findInDb (bulkWrite Sample.env [Sample.updateRow] Sample.liveInstance).1 "a"
    = Some stored ∧
    _rev stored = "4-hv3" ∧
    getHeightOfRevision (_rev stored) = Some 4%N.
Proof.
  assert (findInDb Sample.liveInstance "a"
          = Some (Sample.doc "a" "3-H" false "v2")) as Hfind by reflexivity.
  split; [exact Hfind|]. split; [reflexivity|]. split; [reflexivity|].
  destruct (bulkWrite_update_revision Sample.env [] Sample.updateRow []
              Sample.liveInstance (Sample.doc "a" "3-H" false "v2") 3
              Hfind eq_refl eq_refl
              (or_intror (ex_intro _ (Sample.doc "a" "3-H" false "v2")
                            (conj eq_refl eq_refl)))) as [_ Hcall].
  destruct (Hcall
              (bulkWrite Sample.env [Sample.updateRow] Sample.liveInstance).1
              (setSuccess "a"
                 (stripDexieKey
                    (assignWriteDoc (document Sample.updateRow) "4-hv3" false
                       (Some 1000%N))) emptyResponse))
    as (stored & H1 & H2 & H3 & _).
  - intros r Hr. inversion Hr.
  - reflexivity.
  - exists stored. repeat split; assumption.
Defined.

(** C4, counterexample. A document that [bulkAddRevisions] stored at a
    revision of height [2^53] is updated through [bulkWrite]: the row is
    accepted, and the revision written has the height [2^53] again, since
    the sum [2^53 + 1] is rounded to [2^53]. *)
Lemma bulkWrite_update_height_stays :
  let inst :=
    bulkAddRevisions Sample.env [Sample.tallDoc false] Sample.emptyInstance in
  let res := bulkWrite Sample.env [Sample.tallRow] inst in
  _rev <$> findInDb inst "a" = Some "9007199254740992-H" ∧
  getHeightOfRevision "9007199254740992-H" = Some (2 ^ 53)%N ∧
  (∃ ret,
     res.2 = inr ret ∧
     error ret !! "a" = None ∧
     _rev <$> success ret !! "a" = Some "9007199254740992-hv3") ∧
  _rev <$> findInDb res.1 "a" = Some "9007199254740992-hv3" ∧
  getHeightOfRevision "9007199254740992-hv3" = Some (2 ^ 53)%N ∧
  getHeightOfRevision "9007199254740992-hv3" ≠ Some (2 ^ 53 + 1)%N.
Proof.
  cbv zeta. split; [by vm_compute|]. split; [by vm_compute|].
  split; [eexists; split; [by vm_compute|]; split; by vm_compute|].
  split; [by vm_compute|]. split; [by vm_compute|].
  vm_compute. discriminate.
Qed.

(** The same over a tombstone of height [2^53], written over without
    [previous]: the document comes back at the height [2^53]. *)
Lemma bulkWrite_resurrect_height_stays :
  let inst :=
    bulkAddRevisions Sample.env [Sample.tallDoc true] Sample.emptyInstance in
  let res := bulkWrite Sample.env [Sample.insertRow "v3" false] inst in
  _rev <$> dexieDeletedTable inst !! "a" = Some "9007199254740992-H" ∧
  _rev <$> dexieTable res.1 !! "a" = Some "9007199254740992-hv3" ∧
  dexieDeletedTable res.1 !! "a" = None ∧
  getHeightOfRevision "9007199254740992-hv3" = Some (2 ^ 53)%N.
Proof. cbv zeta. repeat split; by vm_compute. Qed.

Lemma bulkWrite_conflict_409_witness :
  findInDb Sample.liveInstance "a" = Some (Sample.doc "a" "3-H" false "v2") ∧
  (∃ ret e,
     (bulkWrite Sample.env [Sample.staleRow; Sample.otherRow]
        Sample.liveInstance).2 = inr ret ∧
     error ret !! "a" = Some e ∧ status e = 409%N) ∧
  (bulkWrite Sample.env [Sample.staleRow; Sample.otherRow]
     Sample.liveInstance).1
  = (bulkWrite (skipReading 0 Sample.env) [Sample.otherRow]
       Sample.liveInstance).1.
Proof.
  assert (findInDb Sample.liveInstance "a"
          = Some (Sample.doc "a" "3-H" false "v2")) as Hfind by reflexivity.
  split; [exact Hfind|].
  destruct (bulkWrite_conflict_409 Sample.env [] Sample.staleRow
              [Sample.otherRow] Sample.liveInstance
              (Sample.doc "a" "3-H" false "v2") Hfind
              (or_intror (ex_intro _ (Sample.doc "a" "2-G" false "v1")
                            (conj eq_refl
                               (λ H : "2-G" = "3-H",
                                  eq_ind "2-G"
                                    (λ s, match s with
                                          | String "2" _ => True
                                          | _ => False
                                          end) I _ H)))))
    as (Hstep & Hret & Hinst & _).
  split; [|exact Hinst].
  destruct (bulkWrite Sample.env [Sample.staleRow; Sample.otherRow]
              Sample.liveInstance) as [inst' [e|ret]] eqn:Hcall;
    [discriminate Hcall|].
  destruct (Hret inst' ret Hcall) as (e & He & H409).
  exists ret, e. split; [reflexivity|]. split; assumption.
Defined.

(** C7, counterexample. The document [a] is stored as a tombstone and the
    row has no [previous], but its document is itself deleted: the call
    throws, nothing is written and nothing is published. *)
Lemma bulkWrite_dead_over_tombstone :
  findInDb Sample.tombstoneInstance "a"
  = Some (Sample.doc "a" "3-H" true "v2") ∧
  previous (Sample.insertRow "v3" true) = None ∧
  bulkWrite Sample.env [Sample.insertRow "v3" true] Sample.tombstoneInstance
  = (Sample.tombstoneInstance,
     inl (SNH {| document := Sample.doc "a" "" true "v3";
                 previous := Some (Sample.doc "a" "3-H" true "v2") |})).
Proof. repeat split. Qed.

Lemma bulkWrite_resurrect_witness :
  findInDb Sample.tombstoneInstance "a"
  = Some (Sample.doc "a" "3-H" true "v2") ∧
  ∃ writeDoc ev bulk,
    let res := bulkWrite Sample.env [Sample.insertRow "v3" false]
                 Sample.tombstoneInstance in
    dexieTable res.1 !! "a" = Some writeDoc ∧
    dexieDeletedTable res.1 !! "a" = None ∧
    getHeightOfRevision (_rev writeDoc) = Some 4%N ∧
    emitted (changes res.1) = [bulk] ∧
    eventsFor "a" (events bulk) = [ev] ∧
    operation (change ev) = INSERT ∧
    change_previous (change ev) = None.
Proof.
  assert (findInDb Sample.tombstoneInstance "a"
          = Some (Sample.doc "a" "3-H" true "v2")) as Hfind by reflexivity.
  split; [exact Hfind|].
  destruct (bulkWrite_resurrect Sample.env [] (Sample.insertRow "v3" false) []
              Sample.tombstoneInstance (Sample.doc "a" "3-H" true "v2") 3
              Hfind eq_refl eq_refl eq_refl eq_refl eq_refl) as [_ Hcall].
  destruct (Hcall
              (bulkWrite Sample.env [Sample.insertRow "v3" false]
                 Sample.tombstoneInstance).1
              (setSuccess "a"
                 (stripDexieKey
                    (assignWriteDoc (document (Sample.insertRow "v3" false))
                       "4-hv3" false (Some 1000%N))) emptyResponse))
    as (writeDoc & ev & bulk & H1 & H2 & H3 & _ & _ & _ & _ & H4 & H5 & H6
        & H7 & _).
  - intros r Hr. inversion Hr.
  - reflexivity.
  - exists writeDoc, ev, bulk. repeat split; try assumption.
    exact (H4 eq_refl).
Defined.

Lemma bulkWrite_duplicate_inserts_witness :
  findInDb Sample.emptyInstance "a" = None ∧
  let res := bulkWrite Sample.env
               [Sample.insertRow "x" false; Sample.insertRow "y" false]
               Sample.emptyInstance in
  ∃ ret bulk,
    res.2 = inr ret ∧
    error ret !! "a" = None ∧
    success ret !! "a" = Some (insertedDoc (Sample.insertRow "y" false)) ∧
    changes res.1 = next bulk (changes Sample.emptyInstance) ∧
    operation <$> (change <$> eventsFor "a" (events bulk)) = [INSERT; INSERT].
Proof.
  split; [reflexivity|]. cbv zeta.
  destruct (bulkWrite Sample.env
              [Sample.insertRow "x" false; Sample.insertRow "y" false]
              Sample.emptyInstance) as [inst' [e|ret]] eqn:Hcall;
    [discriminate Hcall|].
  destruct (bulkWrite_duplicate_inserts Sample.env _ Sample.emptyInstance
              inst' ret "a" eq_refl Hcall)
    as (_ & Herr & Hsucc & bulk & Hchanges & Hevents).
  exists ret, bulk. split; [reflexivity|]. split; [exact Herr|].
  split; [exact Hsucc|]. split; [exact Hchanges|].
  cbn [fst]. rewrite Hevents. reflexivity.
Defined.



(** C2, counterexample. A call that produces no event — here, one that is
    given no document — publishes a bulk all the same. *)
Lemma bulkAddRevisions_publishes_empty_bulk :
  emitted (changes (bulkAddRevisions Sample.env [] Sample.emptyInstance))
  = [ {| bulk_id := "bulk"; events := [] |} ].
Proof. reflexivity. Qed.

Lemma bulkAddRevisions_always_publishes_witness :
  completed (changes Sample.liveInstance) = false ∧
  ∃ bulk,
    emitted
      (changes
         (bulkAddRevisions Sample.env [Sample.doc "a" "2-Z" false "v1"]
            Sample.liveInstance))
    = [bulk] ∧
    events bulk = [].
Proof.
  split; [reflexivity|].
  destruct (bulkAddRevisions_always_publishes Sample.env
              [Sample.doc "a" "2-Z" false "v1"] Sample.liveInstance eq_refl)
    as (bulk & Hemitted & _ & Hevents).
  exists bulk. split; [exact Hemitted|exact Hevents].
Defined.

(** C1, at the failing input. The tombstone of [a] is stored at revision
    [3-H] and the tombstone offered has the greater revision [4-Y]:
    [mustUpdate] holds, no event is published and no changes row is
    appended, but the deleted table still holds the old tombstone. *)
Theorem bulkAddRevisions_tombstone_not_updated :
  let E := Sample.doc "a" "3-H" true "v2" in
  let D := Sample.doc "a" "4-Y" true "v3" in
  let inst' := bulkAddRevisions Sample.env [D] Sample.tombstoneInstance in
  findInDb Sample.tombstoneInstance "a" = Some E ∧
  mustUpdate (parseRevision (_rev D)) (parseRevision (_rev E)) = true ∧
  emitted (changes inst') = [ {| bulk_id := "bulk"; events := [] |} ] ∧
  dexieChangesTable inst' = dexieChangesTable Sample.tombstoneInstance ∧
  dexieTable inst' !! "a" = None ∧
  dexieDeletedTable inst' !! "a" = Some E ∧
  dexieDeletedTable inst' !! "a" ≠ Some D.
Proof. repeat split. discriminate. Qed.

(** C8, counterexample. With the limit 0 the list is not cut to no entry:
    all three entries after sequence 0 are returned. *)
Lemma getChangedDocuments_limit_zero :
  let res :=
    getChangedDocuments
      {| direction := after; sinceSequence := 0; limit := Some 0%N |}
      Sample.liveInstance in
  changedDocuments res
  = [ {| meta_id := "a"; sequence := 1 |};
      {| meta_id := "a"; sequence := 2 |};
      {| meta_id := "a"; sequence := 3 |} ] ∧
  changedDocuments res
  ≠ take (N.to_nat 0)
      (filter (inRange after 0) (dexieChangesTable Sample.liveInstance)) ∧
  changedDocuments
    (lokiGetChangedDocuments
       {| direction := after; sinceSequence := 0; limit := Some 0%N |}
       (dexieChangesTable Sample.liveInstance))
  = changedDocuments res.
Proof. repeat split. discriminate. Qed.

(** ** The further properties at sample inputs *)

Lemma sample_sequenced : sequenced Sample.liveInstance.
Proof.
  split; simpl.
  - repeat constructor; unfold sequence_lt; simpl; lia.
  - repeat constructor; simpl; lia.
Qed.

Lemma sample_wellPlaced : wellPlaced Sample.liveInstance.
Proof.
  split; intros i d; simpl.
  - intros [<- <-]%lookup_singleton_Some. done.
  - by rewrite lookup_empty.
Qed.

Lemma sample_partitioned : partitioned Sample.liveInstance.
Proof. intros i. right. apply lookup_empty. Qed.

Lemma bulkWrite_appends_changes_witness :
  let res := bulkWrite Sample.env [Sample.staleRow; Sample.otherRow]
               Sample.liveInstance in
  ∃ ret,
    res.2 = inr ret ∧
    dexieChangesTable res.1
    = (dexieChangesTable Sample.liveInstance
       ++ [ {| meta_id := "b"; sequence := 4 |} ])%list ∧
    autoIncrement res.1 = 4%N.
Proof.
  cbv zeta.
  destruct (bulkWrite Sample.env [Sample.staleRow; Sample.otherRow]
              Sample.liveInstance) as [inst' [e|ret]] eqn:Hcall;
    [discriminate Hcall|].
  destruct (bulkWrite_appends_changes Sample.env _ Sample.liveInstance
              inst' ret Hcall) as [Htable Hkey].
  exists ret. split; [reflexivity|]. split; [exact Htable|exact Hkey].
Defined.

Lemma bulkWrite_events_in_order_witness :
  let res := bulkWrite Sample.env [Sample.insertRow "x" true; Sample.otherRow]
               Sample.emptyInstance in
  completed (changes Sample.emptyInstance) = false ∧
  ∃ ret bulk,
    res.2 = inr ret ∧
    emitted (changes res.1) = [bulk] ∧
    bulk_id bulk = "bulk" ∧
    documentId <$> events bulk = ["b"] ∧
    Forall (λ e, endTime e = 1002%N) (events bulk).
Proof.
  cbv zeta. split; [reflexivity|].
  destruct (bulkWrite Sample.env [Sample.insertRow "x" true; Sample.otherRow]
              Sample.emptyInstance) as [inst' [e|ret]] eqn:Hcall;
    [discriminate Hcall|].
  destruct (bulkWrite_events_in_order Sample.env _ Sample.emptyInstance
              inst' ret eq_refl Hcall)
    as (bulk & Hnext & _ & Hid & Hids & Hend).
  exists ret, bulk. split; [reflexivity|]. split; [exact Hnext|].
  split; [exact Hid|]. split; [exact Hids|exact Hend].
Defined.

Lemma bulkAddRevisions_changes_match_events_witness :
  let inst' :=
    bulkAddRevisions Sample.env
      [Sample.doc "a" "2-Z" false "v1"; Sample.doc "b" "1-W" false "w1"]
      Sample.liveInstance in
  completed (changes Sample.liveInstance) = false ∧
  ∃ bulk,
    emitted (changes inst') = [bulk] ∧
    documentId <$> events bulk = ["b"] ∧
    dexieChangesTable inst'
    = (dexieChangesTable Sample.liveInstance
       ++ [ {| meta_id := "b"; sequence := 4 |} ])%list ∧
    autoIncrement inst' = 4%N.
Proof.
  cbv zeta. split; [reflexivity|].
  destruct (bulkAddRevisions_changes_match_events Sample.env
              [Sample.doc "a" "2-Z" false "v1"; Sample.doc "b" "1-W" false "w1"]
              Sample.liveInstance eq_refl) as (bulk & Hnext & Htable & Hkey).
  assert (documentId <$> events bulk = ["b"]) as Hids.
  { injection Hnext as <-. reflexivity. }
  exists bulk. split; [exact Hnext|]. split; [exact Hids|].
  split; [|rewrite Hkey, <- (length_fmap documentId), Hids; reflexivity].
  rewrite Htable, Hids. reflexivity.
Defined.

Lemma bulkWrite_answers_every_row_witness :
  let res := bulkWrite Sample.env [Sample.staleRow; Sample.otherRow]
               Sample.liveInstance in
  ∃ ret,
    res.2 = inr ret ∧
    is_Some (error ret !! "a") ∧
    is_Some (success ret !! "b").
Proof.
  cbv zeta.
  destruct (bulkWrite Sample.env [Sample.staleRow; Sample.otherRow]
              Sample.liveInstance) as [inst' [e|ret]] eqn:Hcall;
    [discriminate Hcall|].
  destruct (bulkWrite_answers_every_row Sample.env _ Sample.liveInstance
              inst' ret Hcall) as (Hrows & _ & _).
  exists ret. split; [reflexivity|]. split.
  - apply (Hrows Sample.staleRow). left.
  - apply (Hrows Sample.otherRow). right. left.
Defined.

Lemma writes_keep_sequenced_witness :
  sequenced Sample.liveInstance ∧
  sequenced
    (bulkWrite Sample.env [Sample.updateRow; Sample.otherRow]
       Sample.liveInstance).1 ∧
  sequenced
    (bulkAddRevisions Sample.env [Sample.doc "a" "4-Y" false "v3"]
       Sample.liveInstance).
Proof.
  split; [exact sample_sequenced|].
  exact (writes_keep_sequenced Sample.env _ _ Sample.liveInstance
           sample_sequenced).
Defined.

Lemma getChangedDocuments_resumes_after_bulkWrite_witness :
  sequenced Sample.liveInstance ∧
  let res := bulkWrite Sample.env [Sample.staleRow; Sample.otherRow]
               Sample.liveInstance in
  ∃ ret,
    res.2 = inr ret ∧
    let found :=
      getChangedDocuments
        {| direction := after; sinceSequence := 3; limit := None |} res.1 in
    meta_id <$> changedDocuments found = ["b"] ∧
    sequence <$> changedDocuments found = [4%N] ∧
    lastSequence found = autoIncrement res.1.
Proof.
  split; [exact sample_sequenced|]. cbv zeta.
  destruct (bulkWrite Sample.env [Sample.staleRow; Sample.otherRow]
              Sample.liveInstance) as [inst' [e|ret]] eqn:Hcall;
    [discriminate Hcall|].
  destruct (getChangedDocuments_resumes_after_bulkWrite Sample.env _
              Sample.liveInstance inst' ret sample_sequenced Hcall)
    as (Hids & Hseqs & Hlast).
  exists ret. split; [reflexivity|]. split; [exact Hids|].
  split; [|exact Hlast].
  injection Hcall as <- _. reflexivity.
Defined.

Lemma writes_keep_wellPlaced_witness :
  wellPlaced Sample.liveInstance ∧
  wellPlaced
    (bulkWrite Sample.env [Sample.deleteRow; Sample.otherRow]
       Sample.liveInstance).1 ∧
  wellPlaced
    (bulkAddRevisions Sample.env [Sample.doc "a" "4-Y" true "v3"]
       Sample.liveInstance).
Proof.
  split; [exact sample_wellPlaced|].
  exact (writes_keep_wellPlaced Sample.env _ _ Sample.liveInstance
           sample_wellPlaced).
Defined.

Lemma bulkWrite_keeps_partitioned_witness :
  partitioned Sample.liveInstance ∧
  wellPlaced Sample.liveInstance ∧
  NoDup ["a"; "b"] ∧
  partitioned
    (bulkWrite Sample.env [Sample.deleteRow; Sample.otherRow]
       Sample.liveInstance).1.
Proof.
  assert (NoDup ["a"; "b"]) as Hids.
  { apply NoDup_cons_2; [|apply NoDup_singleton].
    intros Hin%list_elem_of_singleton. discriminate Hin. }
  split; [exact sample_partitioned|]. split; [exact sample_wellPlaced|].
  split; [exact Hids|].
  apply (bulkWrite_keeps_partitioned Sample.env
           [Sample.deleteRow; Sample.otherRow] Sample.liveInstance
           sample_partitioned sample_wellPlaced Hids).
  intros r prev inDb Hr Hprev Hfind.
  apply elem_of_cons in Hr as [->|Hr].
  - injection Hprev as <-. injection Hfind as <-. reflexivity.
  - apply list_elem_of_singleton in Hr as ->. discriminate Hprev.
Defined.

Lemma findDocumentsById_after_bulkWrite_witness :
  isRefused Sample.liveInstance Sample.deleteRow = false ∧
  let res := bulkWrite Sample.env [Sample.deleteRow; Sample.otherRow]
               Sample.liveInstance in
  ∃ ret d,
    res.2 = inr ret ∧
    success ret !! "a" = Some d ∧
    Js.truthy (_deleted d) = true ∧
    findDocumentsById ["a"; "b"] true res.1 !! "a" = Some (stripDexieKey d) ∧
    findDocumentsById ["a"; "b"] false res.1 !! "a" = None.
Proof.
  split; [reflexivity|]. cbv zeta.
  destruct (bulkWrite Sample.env [Sample.deleteRow; Sample.otherRow]
              Sample.liveInstance) as [inst' [e|ret]] eqn:Hcall;
    [discriminate Hcall|].
  destruct (findDocumentsById_after_bulkWrite Sample.env [] Sample.deleteRow
              [Sample.otherRow] Sample.liveInstance inst' ret ["a"; "b"])
    as (d & Hsuccess & Hall & Hlive).
  - reflexivity.
  - intros r Hr. apply list_elem_of_singleton in Hr as ->. discriminate.
  - exact Hcall.
  - left.
  - assert (Js.truthy (_deleted d) = true) as Hd.
    { injection Hcall as _ <-. injection Hsuccess as <-. reflexivity. }
    exists ret, d. split; [reflexivity|]. split; [exact Hsuccess|].
    split; [exact Hd|]. split; [exact Hall|].
    etrans; [exact Hlive|]. rewrite Hd. reflexivity.
Defined.

Lemma bulkAddRevisions_never_lowers_witness :
  let E := Sample.doc "a" "3-H" false "v2" in
  let D := Sample.doc "a" "4-Y" false "v3" in
  partitioned Sample.liveInstance ∧
  findInDb Sample.liveInstance "a" = Some E ∧
  findInDb (bulkAddRevisions Sample.env [D] Sample.liveInstance) "a"
  = Some D ∧
  (D = E
   ∨ (D ∈ [D] ∧ primary D = "a" ∧
      mustUpdate (parseRevision (_rev D)) (parseRevision (_rev E)) = true)).
Proof.
  cbv zeta. split; [exact sample_partitioned|].
  split; [reflexivity|]. split; [reflexivity|].
  exact (bulkAddRevisions_never_lowers Sample.env
           [Sample.doc "a" "4-Y" false "v3"] Sample.liveInstance "a"
           (Sample.doc "a" "3-H" false "v2") (Sample.doc "a" "4-Y" false "v3")
           sample_partitioned eq_refl eq_refl).
Defined.


Lemma query_returns_live_matches_witness :
  let d := Sample.doc "a" "3-H" false "v2" in
  let result :=
    query (λ _, true) (λ l, l) {| skip := None; query_limit := None |}
      Sample.liveInstance in
  d ∈ result ∧
  ∃ i d0,
    dexieTable Sample.liveInstance !! i = Some d0 ∧
    d = stripDexieKey d0 ∧
    (wellPlaced Sample.liveInstance →
     primary d = i ∧ Js.truthy (_deleted d) = false).
Proof.
  cbv zeta.
  assert (Sample.doc "a" "3-H" false "v2"
          ∈ query (λ _, true) (λ l, l) {| skip := None; query_limit := None |}
              Sample.liveInstance) as Hin.
  { replace (query _ _ _ _) with [Sample.doc "a" "3-H" false "v2"]
      by (vm_compute; reflexivity).
    left. }
  split; [exact Hin|].
  destruct (query_returns_live_matches (λ _, true) (λ l, l)
              {| skip := None; query_limit := None |} Sample.liveInstance
              (Sample.doc "a" "3-H" false "v2")
              (λ l, reflexivity l) Hin) as (i & d0 & Hd0 & _ & Hd & Hplaced).
  exists i, d0. split; [exact Hd0|]. split; [exact Hd|exact Hplaced].
Defined.

Lemma query_length_witness :
  length
    (query (λ _, true) (λ l, l) {| skip := Some 1%N; query_limit := Some 5%N |}
       Sample.liveInstance)
  = 0%nat.
Proof.
  rewrite (query_length (λ _, true) (λ l, l)
             {| skip := Some 1%N; query_limit := Some 5%N |}
             Sample.liveInstance (λ l, reflexivity l)).
  vm_compute. reflexivity.
Defined.

Lemma addChangeDocumentMeta_fresh_witness :
  let feed :=
    {| lokiChangesCollection := dexieChangesTable Sample.liveInstance;
       lastChangefeedSequence := 0 |} in
  let feed' := addChangeDocumentMeta "b" feed in
  lastChangefeedSequence feed = 0%N ∧
  lokiChangesCollection feed'
  = (lokiChangesCollection feed ++ [ {| meta_id := "b"; sequence := 4 |} ])%list
  ∧ Forall (λ m, (sequence m < 4)%N) (lokiChangesCollection feed)
  ∧ lastChangefeedSequence feed' = 4%N.
Proof.
  cbv zeta. split; [reflexivity|].
  destruct (addChangeDocumentMeta_fresh "b"
              {| lokiChangesCollection := dexieChangesTable Sample.liveInstance;
                 lastChangefeedSequence := 0 |} (or_introl eq_refl))
    as (Hrows & Hbelow & _ & _).
  split; [exact Hrows|]. split; [exact Hbelow|]. reflexivity.
Defined.

Lemma cleanup_removes_old_tombstones_witness :
  let old : LokiDocument string :=
    {| loki_key := 1; loki_deleted := Some true; meta_lwt := 5;
       loki_data := "x" |} in
  let live : LokiDocument string :=
    {| loki_key := 2; loki_deleted := Some false; meta_lwt := 5;
       loki_data := "y" |} in
  let result := cleanup 10 100 [old; live] in
  NoDup (loki_key <$> [old; live]) ∧
  live ∈ result.1 ∧
  length [old; live] = (length result.1 + 1)%nat ∧
  result.2 = true ∧
  Forall (λ d, ¬ cleanupSelector 90 d) result.1.
Proof.
  cbv zeta.
  assert (NoDup (loki_key
                   <$> [ {| loki_key := 1; loki_deleted := Some true;
                            meta_lwt := 5; loki_data := "x" |};
                         {| loki_key := 2; loki_deleted := Some false;
                            meta_lwt := 5; loki_data := "y" |} ])) as Hkeys.
  { apply NoDup_cons_2; [|apply NoDup_singleton].
    intros Hin%list_elem_of_singleton. discriminate Hin. }
  split; [exact Hkeys|].
  destruct (cleanup_removes_old_tombstones 10 100 _ Hkeys)
    as (_ & Hkept & Hlength & Hdone & Hnone).
  split; [|split; [exact Hlength|split]].
  - apply Hkept; [right; left|]. intros [Hdeleted _]. discriminate Hdeleted.
  - apply Hdone. vm_compute. lia.
  - apply Hnone. vm_compute. lia.
Defined.

Lemma getChangedDocuments_engines_agree_witness :
  let options :=
    {| direction := before; sinceSequence := 3; limit := Some 1%N |} in
  StronglySorted sequence_lt (dexieChangesTable Sample.liveInstance) ∧
  lokiGetChangedDocuments options (dexieChangesTable Sample.liveInstance)
  = getChangedDocuments options Sample.liveInstance.
Proof.
  cbv zeta. split; [exact (proj1 sample_sequenced)|].
  exact (getChangedDocuments_engines_agree
           {| direction := before; sinceSequence := 3; limit := Some 1%N |}
           Sample.liveInstance (proj1 sample_sequenced)).
Defined.
